(** * Skeleton and BVH parser: a shallow embedding of
    [src/data/processed/Skeleton.py], [src/scripts/BVH/bvh_to_h5.py] and
    [src/data/processed/read_h5.py].

    Numbers are modelled as real numbers (the Python code uses numpy
    float64); integers used as indices are [nat] or [Z].  Python
    exceptions are the [Raise] branch of the [PyResult] monad, Python
    dicts are association lists kept in insertion order.  A [str] is a
    string of characters with code points 0..255. *)

From Stdlib Require Import String Ascii List Bool Arith Lia ZArith.
From Stdlib Require Import Reals Lra.
Import ListNotations.
Open Scope string_scope.
Open Scope list_scope.

(* ------------------------------------------------------------------ *)
(** ** Python exceptions and the result monad *)

Inductive exc : Type :=
| KeyError
| IndexError
| ValueError
| TypeError
| RecursionError.

Inductive PyResult (A : Type) : Type :=
| Ok : A -> PyResult A
| Raise : exc -> PyResult A.

Arguments Ok {A} _.
Arguments Raise {A} _.

Definition bind {A B} (m : PyResult A) (f : A -> PyResult B) : PyResult B :=
  match m with
  | Ok a => f a
  | Raise e => Raise e
  end.

Notation "x <- m ;; k" := (bind m (fun x => k))
  (at level 61, m at next level, right associativity).

Definition is_raise {A} (m : PyResult A) : bool :=
  match m with Ok _ => false | Raise _ => true end.

(* ------------------------------------------------------------------ *)
(** ** Python dicts with string keys, kept in insertion order *)

Definition dict (V : Type) := list (string * V).

Fixpoint dict_get {V} (k : string) (d : dict V) : option V :=
  match d with
  | [] => None
  | (k', v) :: d' => if String.eqb k k' then Some v else dict_get k d'
  end.

(** [d[k] = v]: an existing key keeps its position, a new key is appended. *)
Fixpoint dict_set {V} (k : string) (v : V) (d : dict V) : dict V :=
  match d with
  | [] => [(k, v)]
  | (k', v') :: d' =>
      if String.eqb k k' then (k', v) :: d' else (k', v') :: dict_set k v d'
  end.

(** [d[k]] raising [KeyError] on a missing key. *)
Definition dict_getitem {V} (k : string) (d : dict V) : PyResult V :=
  match dict_get k d with Some v => Ok v | None => Raise KeyError end.

(** [lst[i]] for a non-negative index. *)
Definition list_getitem {A} (l : list A) (i : nat) : PyResult A :=
  match nth_error l i with Some a => Ok a | None => Raise IndexError end.

(** [lst[i] = v] for a non-negative index. *)
Fixpoint list_set {A} (l : list A) (i : nat) (v : A) : list A :=
  match l, i with
  | [], _ => []
  | _ :: l', 0 => v :: l'
  | a :: l', S i' => a :: list_set l' i' v
  end.

Definition list_setitem {A} (l : list A) (i : nat) (v : A) : PyResult (list A) :=
  if Nat.ltb i (length l) then Ok (list_set l i v) else Raise IndexError.

(* ------------------------------------------------------------------ *)
(** ** Strings: [in], [startswith], [strip], [split] *)

(** [sub in s] *)
Fixpoint contains (sub s : string) : bool :=
  String.prefix sub s ||
  match s with
  | EmptyString => false
  | String _ s' => contains sub s'
  end.

Definition startswith (s pre : string) : bool := String.prefix pre s.

(** [c.isspace()] for the code points 0..255 a character stands for:
    tab, line feed, vertical tab, form feed, carriage return, the
    separators \x1c..\x1f, space, NEL (\x85) and NBSP (\xa0).  These are
    the characters [str.strip()] and [str.split()] treat as whitespace. *)
Definition is_space (c : ascii) : bool :=
  match nat_of_ascii c with
  | 9 | 10 | 11 | 12 | 13 | 28 | 29 | 30 | 31 | 32 | 133 | 160 => true
  | _ => false
  end.

Fixpoint lstrip (s : string) : string :=
  match s with
  | EmptyString => EmptyString
  | String c s' => if is_space c then lstrip s' else s
  end.

Fixpoint rev_string (s : string) (acc : string) : string :=
  match s with
  | EmptyString => acc
  | String c s' => rev_string s' (String c acc)
  end.

Definition strip (s : string) : string :=
  rev_string (lstrip (rev_string (lstrip s) EmptyString)) EmptyString.

(** [s.split()]: split on runs of whitespace, dropping empty pieces. *)
Fixpoint split_aux (s : string) (cur : string) : list string :=
  match s with
  | EmptyString => if String.eqb cur "" then [] else [cur]
  | String c s' =>
      if is_space c then
        app (if String.eqb cur "" then [] else [cur]) (split_aux s' "")
      else split_aux s' (String.append cur (String c EmptyString))
  end.

Definition split (s : string) : list string := split_aux s "".

(* ------------------------------------------------------------------ *)
(** ** Python's [float()] on strings

    [float(v)] strips surrounding whitespace, removes the underscores
    that stand between two digits (any other underscore is an error),
    then reads an optional sign, digits with at most one dot and at least
    one digit, and optionally an exponent: [e] or [E], an optional sign
    and at least one digit.  The value is the exact real number the
    literal denotes: rounding to float64 (and its overflow to [inf]) is
    not modelled.  The non-finite literals [inf], [infinity] and [nan]
    (in any case) have no real value; the model raises [ValueError] on
    them, where Python returns the IEEE special values. *)

Definition digit_val (c : ascii) : option Z :=
  let n := nat_of_ascii c in
  if Nat.leb 48 n && Nat.leb n 57 then Some (Z.of_nat (n - 48)) else None.

Definition is_digit (c : ascii) : bool :=
  let n := nat_of_ascii c in Nat.leb 48 n && Nat.leb n 57.

(** [_Py_string_to_number_with_underscores]: [prev] is the character read
    before [s] (NUL at the start). *)
Fixpoint drop_underscores (prev : ascii) (s : string) : option string :=
  match s with
  | EmptyString => if Nat.eqb (nat_of_ascii prev) 95 then None else Some EmptyString
  | String c s' =>
      if Nat.eqb (nat_of_ascii c) 95 then
        if is_digit prev then drop_underscores c s' else None
      else if Nat.eqb (nat_of_ascii prev) 95 && negb (is_digit c) then None
      else option_map (String c) (drop_underscores c s')
  end.

(** The digits of an exponent; [nd] tells whether a digit was seen. *)
Fixpoint exp_digits (s : string) (k : Z) (nd : bool) : option Z :=
  match s with
  | EmptyString => if nd then Some k else None
  | String c s' =>
      match digit_val c with
      | Some d => exp_digits s' (10 * k + d)%Z true
      | None => None
      end
  end.

(** What follows [e] or [E]: an optional sign, then digits. *)
Definition exp_part (s : string) : option Z :=
  match s with
  | String c s' =>
      if Nat.eqb (nat_of_ascii c) 45 then option_map Z.opp (exp_digits s' 0 false)
      else if Nat.eqb (nat_of_ascii c) 43 then exp_digits s' 0 false
      else exp_digits s 0 false
  | EmptyString => None
  end.

(** Reads digits, then an optional fraction and exponent.  [m] is the
    mantissa so far, [e] the number of fraction digits, [frac] whether
    the dot was seen and [nd] whether some digit was seen; the result
    is the mantissa, the fraction length and the exponent. *)
Fixpoint dec_aux (s : string) (m : Z) (e : nat) (frac nd : bool)
  : option (Z * nat * Z) :=
  match s with
  | EmptyString => if nd then Some (m, e, 0%Z) else None
  | String c s' =>
      match digit_val c with
      | Some d => dec_aux s' (10 * m + d)%Z (if frac then S e else e) frac true
      | None =>
          if Nat.eqb (nat_of_ascii c) 46 && negb frac
          then dec_aux s' m e true nd
          else if (Nat.eqb (nat_of_ascii c) 101 || Nat.eqb (nat_of_ascii c) 69) && nd
          then match exp_part s' with
               | Some k => Some (m, e, k)
               | None => None
               end
          else None
      end
  end.

Definition py_float (s : string) : PyResult R :=
  match drop_underscores Ascii.zero (strip s) with
  | None => Raise ValueError
  | Some t =>
      let '(sign, body) :=
        match t with
        | String c s' =>
            if Nat.eqb (nat_of_ascii c) 45 then ((-1)%Z, s')
            else if Nat.eqb (nat_of_ascii c) 43 then (1%Z, s')
            else (1%Z, t)
        | EmptyString => (1%Z, t)
        end in
      match dec_aux body 0 0 false false with
      | Some (m, e, k) =>
          Ok (IZR (sign * m * 10 ^ Z.max 0 k)
              / IZR (10 ^ (Z.of_nat e + Z.max 0 (- k))))%R
      | None => Raise ValueError
      end
  end.

(** [[float(v) for v in vs]] *)
Fixpoint floats (vs : list string) : PyResult (list R) :=
  match vs with
  | [] => Ok []
  | v :: vs' => x <- py_float v ;; xs <- floats vs' ;; Ok (x :: xs)
  end.

(** [[f(x) for x in xs]] when [f] may raise. *)
Fixpoint mapM {A B} (f : A -> PyResult B) (xs : list A) : PyResult (list B) :=
  match xs with
  | [] => Ok []
  | x :: xs' => y <- f x ;; ys <- mapM f xs' ;; Ok (y :: ys)
  end.

(* ------------------------------------------------------------------ *)
(** ** 4x4 and 3x3 matrices (numpy arrays) *)

Open Scope R_scope.

Definition Mat := nat -> nat -> R.

(** [np.array([[...], ...])] *)
Definition mat_of_rows (rows : list (list R)) : Mat :=
  fun i j => nth j (nth i rows []) 0.

(** [np.eye(4)] *)
Definition eye : Mat := fun i j => if Nat.eqb i j then 1 else 0.

(** [A @ B] for 3x3 and 4x4 matrices. *)
Definition mmul3 (A B : Mat) : Mat :=
  fun i j => A i 0%nat * B 0%nat j + A i 1%nat * B 1%nat j + A i 2%nat * B 2%nat j.

Definition mmul4 (A B : Mat) : Mat :=
  fun i j => A i 0%nat * B 0%nat j + A i 1%nat * B 1%nat j
           + A i 2%nat * B 2%nat j + A i 3%nat * B 3%nat j.

(** [M @ v] for a 4x4 matrix and a vector; numpy raises [ValueError] when
    the vector does not have length 4. *)
Definition matvec4 (M : Mat) (v : list R) : PyResult (list R) :=
  match v with
  | [a; b; c; d] =>
      Ok (map (fun i => M i 0%nat * a + M i 1%nat * b + M i 2%nat * c + M i 3%nat * d)
              [0; 1; 2; 3]%nat)
  | _ => Raise ValueError
  end.

(** [np.radians] *)
Definition radians (x : R) : R := x * PI / 180.

(** [Skeleton.rotation_matrix_yxz] *)
Definition rotation_matrix_yxz (theta_y theta_x theta_z : R) : Mat :=
  let theta_y := radians theta_y in
  let theta_x := radians theta_x in
  let theta_z := radians theta_z in
  let R_y := mat_of_rows
    [[cos theta_y; 0; sin theta_y];
     [0; 1; 0];
     [- sin theta_y; 0; cos theta_y]] in
  let R_x := mat_of_rows
    [[1; 0; 0];
     [0; cos theta_x; - sin theta_x];
     [0; sin theta_x; cos theta_x]] in
  let R_z := mat_of_rows
    [[cos theta_z; - sin theta_z; 0];
     [sin theta_z; cos theta_z; 0];
     [0; 0; 1]] in
  mmul3 (mmul3 R_y R_x) R_z.

(** [Skeleton.transformation_matrix_yxz]: the identity with the rotation
    written into [T[:3, :3]] and the translation into [T[:3, 3]]. *)
Definition transformation_matrix_yxz (theta_y theta_x theta_z : R)
    (translation : list R) : Mat :=
  let Rm := rotation_matrix_yxz theta_y theta_x theta_z in
  fun i j =>
    if Nat.ltb i 3 && Nat.ltb j 3 then Rm i j
    else if Nat.ltb i 3 && Nat.eqb j 3 then nth i translation 0
    else eye i j.

Close Scope R_scope.

(* ------------------------------------------------------------------ *)
(** ** Skeleton data *)

(** A hierarchy entry [{"name", "parent", "offset"}]; the parser leaves
    the offset [None] until an [OFFSET] line fills it. *)
Record joint : Type := mkJoint {
  name : string;
  parent : option string;
  offset : option (list R)
}.

(** The [world_motion] lists attached to a joint by
    [_update_hierarchy_with_motion]. *)
Record world_motion : Type := mkWM {
  wX : list R; wY : list R; wZ : list R;
  wRy : list R; wRx : list R; wRz : list R
}.

Definition empty_wm : world_motion := mkWM [] [] [] [] [] [].

(** The [hdf5_data] dict given to the constructor (and returned by the
    parser). *)
Record bvh_data : Type := mkData {
  d_hierarchy : list joint;
  d_motion : list (list R);
  d_channels : list string;
  d_order : list string
}.

(** The attributes of a [Skeleton] instance.  [joint_wm] holds the
    [world_motion] entry of [joint_map[name]] for each joint name. *)
Record skeleton : Type := mkSkel {
  hierarchy : list joint;
  motion : list (list R);
  channels : list string;
  order : list string;
  root_joint : string;
  joint_channel_map : dict (dict nat);
  joint_wm : dict world_motion;
  sk_world_motion : list (list R)
}.

(** [self.joint_map = {joint['name']: joint for joint in self.hierarchy}]:
    the keys in first-appearance order, the value of a key being the last
    joint with that name.  The dict shares the joint objects of the
    hierarchy, so a lookup always sees the current hierarchy entries. *)
Definition joint_map_names (hier : list joint) : list string :=
  fold_left (fun acc j =>
    if existsb (String.eqb (name j)) acc then acc else app acc [name j])
    hier [].

Definition joint_map_get (n : string) (hier : list joint) : option joint :=
  find (fun j => String.eqb (name j) n) (rev hier).

Definition joint_map_getitem (n : string) (hier : list joint) : PyResult joint :=
  match joint_map_get n hier with Some j => Ok j | None => Raise KeyError end.

(* ------------------------------------------------------------------ *)
(** ** [Skeleton._build_joint_channel_map] *)

(** The channel-kind list the builder walks for every joint. *)
Definition channel_kinds : list string :=
  ["Xposition"; "Yposition"; "Zposition"; "Yrotation"; "Xrotation"; "Zrotation"].

(** The inner [for channel in [...]] loop with the running cursor. *)
Fixpoint match_channels (chans : list string) (kinds : list string)
    (current_index : nat) (sub : dict nat) : dict nat * nat :=
  match kinds with
  | [] => (sub, current_index)
  | channel :: kinds' =>
      if Nat.ltb current_index (length chans)
         && String.eqb (nth current_index chans "") channel
      then match_channels chans kinds' (S current_index)
             (dict_set channel current_index sub)
      else match_channels chans kinds' current_index sub
  end.

(** The outer [for joint in self.order] loop. *)
Fixpoint build_loop (chans : list string) (ord : list string)
    (current_index : nat) (m : dict (dict nat)) : dict (dict nat) :=
  match ord with
  | [] => m
  | joint_name :: ord' =>
      if contains "_End" joint_name then build_loop chans ord' current_index m
      else
        let '(sub, current_index') :=
          match_channels chans channel_kinds current_index [] in
        build_loop chans ord' current_index' (dict_set joint_name sub m)
  end.

Definition build_joint_channel_map (chans ord : list string) : dict (dict nat) :=
  build_loop chans ord 0 [].

(* ------------------------------------------------------------------ *)
(** ** [Skeleton._update_hierarchy_with_motion] *)

(** The six reads of one frame: the index lookups (KeyError) and
    [self.motion[frame][index]] (IndexError). *)
Definition frame_values (sub : dict nat) (row : list R)
  : PyResult (R * R * R * R * R * R) :=
  XIndex <- dict_getitem "Xposition" sub ;;
  YIndex <- dict_getitem "Yposition" sub ;;
  ZIndex <- dict_getitem "Zposition" sub ;;
  RXIndex <- dict_getitem "Xrotation" sub ;;
  RYIndex <- dict_getitem "Yrotation" sub ;;
  RZIndex <- dict_getitem "Zrotation" sub ;;
  x <- list_getitem row XIndex ;;
  y <- list_getitem row YIndex ;;
  z <- list_getitem row ZIndex ;;
  rx <- list_getitem row RXIndex ;;
  ry <- list_getitem row RYIndex ;;
  rz <- list_getitem row RZIndex ;;
  Ok (x, y, z, rx, ry, rz).

Definition wm_append (wm : world_motion) (v : R * R * R * R * R * R)
  : world_motion :=
  let '(x, y, z, rx, ry, rz) := v in
  mkWM (wX wm ++ [x]) (wY wm ++ [y]) (wZ wm ++ [z])
       (wRy wm ++ [ry]) (wRx wm ++ [rx]) (wRz wm ++ [rz]).

(** [for frame in range(len(self.motion))] for one joint. *)
Fixpoint wm_frames (cmap : dict (dict nat)) (jn : string)
    (rows : list (list R)) (wm : world_motion) : PyResult world_motion :=
  match rows with
  | [] => Ok wm
  | row :: rows' =>
      if contains "_End" jn then wm_frames cmap jn rows' wm
      else
        sub <- dict_getitem jn cmap ;;
        v <- frame_values sub row ;;
        wm_frames cmap jn rows' (wm_append wm v)
  end.

(** [for joint in self.joint_map]: returns the [world_motion] entry of
    every joint. *)
Definition update_hierarchy_with_motion (cmap : dict (dict nat))
    (rows : list (list R)) (names : list string) : PyResult (dict world_motion) :=
  fold_left (fun acc jn =>
    d <- acc ;;
    wm <- wm_frames cmap jn rows empty_wm ;;
    Ok (dict_set jn wm d))
    names (Ok []).

(* ------------------------------------------------------------------ *)
(** ** [Skeleton.compute_world_skeleton_for_frames] *)

(** Python's recursion limit bounds the parent-chain recursion; a cyclic
    parent chain ends in [RecursionError]. *)
Definition recursion_limit : nat := 1000.

(** The nested [compute_world_position(joint_name, joint_map, frame)]. *)
Fixpoint compute_world_position (fuel : nat) (s : skeleton)
    (joint_name : string) (frame : nat) : PyResult Mat :=
  match fuel with
  | 0 => Raise RecursionError
  | S fuel' =>
      j <- joint_map_getitem joint_name (hierarchy s) ;;
      wm <- dict_getitem joint_name (joint_wm s) ;;
      translationX <- list_getitem (wX wm) frame ;;
      translationY <- list_getitem (wY wm) frame ;;
      translationZ <- list_getitem (wZ wm) frame ;;
      rotationY <- list_getitem (wRy wm) frame ;;
      rotationX <- list_getitem (wRx wm) frame ;;
      rotationZ <- list_getitem (wRz wm) frame ;;
      let local_transform :=
        transformation_matrix_yxz rotationY rotationX rotationZ
          [translationX; translationY; translationZ] in
      match parent j with
      | None => Ok local_transform
      | Some parent_name =>
          pw <- compute_world_position fuel' s parent_name frame ;;
          Ok (mmul4 pw local_transform)
      end
  end.

(** The body of [for joint in self.hierarchy] for a non-end-site joint:
    the first three entries of [new_world_transform @ v]. *)
Definition fk_joint_position (fuel : nat) (s : skeleton) (frame : nat)
    (j : joint) : PyResult (list R) :=
  new_world_transform <- compute_world_position fuel s (name j) frame ;;
  offset_homog <- match offset j with
                  | Some o => Ok (o ++ [1%R])
                  | None => Raise TypeError
                  end ;;
  new_positions <-
    (if String.eqb (name j) (root_joint s)
     then matvec4 new_world_transform [0; 0; 0; 1]%R
     else matvec4 new_world_transform offset_homog) ;;
  Ok (firstn 3 new_positions).

(** The [positions] dict of one frame. *)
Fixpoint frame_positions (fuel : nat) (s : skeleton) (frame : nat)
    (hier : list joint) (positions : dict (list R)) : PyResult (dict (list R)) :=
  match hier with
  | [] => Ok positions
  | j :: hier' =>
      if contains "_End" (name j) then frame_positions fuel s frame hier' positions
      else
        p <- fk_joint_position fuel s frame j ;;
        frame_positions fuel s frame hier' (dict_set (name j) p positions)
  end.

(** [position_list]: the positions concatenated in [self.order] order. *)
Fixpoint flatten_positions (positions : dict (list R)) (ord : list string)
  : PyResult (list R) :=
  match ord with
  | [] => Ok []
  | jn :: ord' =>
      p <- dict_getitem jn positions ;;
      rest <- flatten_positions positions ord' ;;
      Ok (p ++ rest)
  end.

Definition compute_world_skeleton_for_frames (fuel : nat) (s : skeleton)
  : PyResult (list (list R)) :=
  mapM (fun frame =>
          positions <- frame_positions fuel s frame (hierarchy s) [] ;;
          flatten_positions positions (order s))
       (seq 0 (length (motion s))).

(* ------------------------------------------------------------------ *)
(** ** [Skeleton.__init__] *)

Definition init (d : bvh_data) : PyResult skeleton :=
  root <- match d_hierarchy d with
          | j :: _ => Ok (name j)
          | [] => Raise IndexError
          end ;;
  let cmap := build_joint_channel_map (d_channels d) (d_order d) in
  wmd <- update_hierarchy_with_motion cmap (d_motion d)
           (joint_map_names (d_hierarchy d)) ;;
  let s0 := mkSkel (d_hierarchy d) (d_motion d) (d_channels d) (d_order d)
              root cmap wmd [] in
  wm <- compute_world_skeleton_for_frames recursion_limit s0 ;;
  Ok (mkSkel (d_hierarchy d) (d_motion d) (d_channels d) (d_order d)
         root cmap wmd wm).

(* ------------------------------------------------------------------ *)
(** ** Methods: explicit state passing over the instance attributes *)

Definition method (A : Type) := skeleton -> PyResult (A * skeleton).

(** [self.motion[frame, idx] -= v] on one row. *)
Definition sub_axis (chans : dict nat) (axis : string) (v : R) (row : list R)
  : PyResult (list R) :=
  idx <- dict_getitem axis chans ;;
  x <- list_getitem row idx ;;
  list_setitem row idx (x - v)%R.

Definition sub_joint (chans : dict nat) (p : R * R * R) (row : list R)
  : PyResult (list R) :=
  let '(px, py, pz) := p in
  row <- sub_axis chans "Xposition" px row ;;
  row <- sub_axis chans "Yposition" py row ;;
  sub_axis chans "Zposition" pz row.

(** [for joint_name, channels in self.joint_channel_map.items()] *)
Fixpoint sub_all (cmap : dict (dict nat)) (p : R * R * R) (row : list R)
  : PyResult (list R) :=
  match cmap with
  | [] => Ok row
  | (_, chans) :: cmap' => row' <- sub_joint chans p row ;; sub_all cmap' p row'
  end.

(** One iteration of [for frame in range(len(self.motion))]: the row of
    that frame, with the new root's position read before the updates. *)
Definition shift_frame (cmap : dict (dict nat)) (new_root_channels : dict nat)
    (row : list R) : PyResult (list R) :=
  xi <- dict_getitem "Xposition" new_root_channels ;;
  x <- list_getitem row xi ;;
  yi <- dict_getitem "Yposition" new_root_channels ;;
  y <- list_getitem row yi ;;
  zi <- dict_getitem "Zposition" new_root_channels ;;
  z <- list_getitem row zi ;;
  sub_all cmap (x, y, z) row.

Definition reparent (old_root_name new_root : string) (j : joint) : joint :=
  if String.eqb (name j) old_root_name then mkJoint (name j) (Some new_root) (offset j)
  else if String.eqb (name j) new_root then mkJoint (name j) None (offset j)
  else j.

(** [Skeleton.set_new_root].  The joint dicts of [self.hierarchy] are the
    values of [self.joint_map], so the re-parenting is seen through both. *)
Definition set_new_root (new_root : string) : method unit := fun s =>
  if String.eqb new_root (root_joint s) then Ok (tt, s)
  else
    match find (fun j => String.eqb (name j) new_root) (hierarchy s) with
    | None => Raise ValueError
    | Some _ =>
        root_channels <- dict_getitem (root_joint s) (joint_channel_map s) ;;
        new_root_channels <- dict_getitem new_root (joint_channel_map s) ;;
        motion' <- mapM (shift_frame (joint_channel_map s) new_root_channels)
                     (motion s) ;;
        let old_root_name := root_joint s in
        Ok (tt, mkSkel (map (reparent old_root_name new_root) (hierarchy s))
                       motion' (channels s) (order s) new_root
                       (joint_channel_map s) (joint_wm s) (sk_world_motion s))
    end.

(** [channels.get(kind, -1)] *)
Definition get_index (kind : string) (chans : dict nat) : Z :=
  match dict_get kind chans with Some i => Z.of_nat i | None => (-1)%Z end.

(** [arr[frame, idx]] on a 2-D numpy array, [frame] already checked to be
    in range; a negative [idx] counts from the end of the row. *)
Definition np_getitem2 (rows : list (list R)) (frame : nat) (idx : Z)
  : PyResult R :=
  row <- list_getitem rows frame ;;
  let i := if (idx <? 0)%Z then (idx + Z.of_nat (length row))%Z else idx in
  if (i <? 0)%Z then Raise IndexError else list_getitem row (Z.to_nat i).

(** [Skeleton.get_joint_position].  [self.world_motion] is the Python list
    returned by [compute_world_skeleton_for_frames]: indexing it with the
    tuple [frame, idx] raises [TypeError]. *)
Definition get_joint_position (joint_name : string) (frame : Z)
  : method (option (list R)) := fun s =>
  match dict_get joint_name (joint_channel_map s) with
  | None => Ok (None, s)
  | Some _ =>
      if (frame <? 0)%Z || (Z.of_nat (length (sk_world_motion s)) <=? frame)%Z
      then Ok (None, s)
      else Raise TypeError
  end.

(** [Skeleton.get_joint_rotation] *)
Definition get_joint_rotation (joint_name : string) (frame : Z)
  : method (option (list R)) := fun s =>
  match dict_get joint_name (joint_channel_map s) with
  | None => Ok (None, s)
  | Some chans =>
      if (frame <? 0)%Z || (Z.of_nat (length (motion s)) <=? frame)%Z
      then Ok (None, s)
      else
        let f := Z.to_nat frame in
        rx <- np_getitem2 (motion s) f (get_index "Xrotation" chans) ;;
        ry <- np_getitem2 (motion s) f (get_index "Yrotation" chans) ;;
        rz <- np_getitem2 (motion s) f (get_index "Zrotation" chans) ;;
        Ok (Some [rx; ry; rz], s)
  end.

(* ------------------------------------------------------------------ *)
(** ** [bvh_to_h5.process_bvh_lines] *)

(** The local variables of the line loop; [joint_stack] is a Python list
    whose top is its last element. *)
Record parse_state : Type := mkPS {
  p_hierarchy : list joint;
  p_motion : list (list R);
  p_channels : list string;
  p_stack : list string;
  p_in_motion : bool;
  p_order : list string
}.

Definition init_state : parse_state := mkPS [] [] [] [] false [].

(** [hierarchy[-1]["offset"] = offset_values] *)
Definition set_last_offset (hier : list joint) (vals : list R)
  : PyResult (list joint) :=
  match rev hier with
  | [] => Raise IndexError
  | j :: rest => Ok (rev rest ++ [mkJoint (name j) (parent j) (Some vals)])
  end.

(** [lst[-1]] *)
Definition list_last {A} (l : list A) : PyResult A :=
  match rev l with [] => Raise IndexError | a :: _ => Ok a end.

(** One iteration of [for line in lines]. *)
Definition process_line (st : parse_state) (line : string) : PyResult parse_state :=
  if String.eqb line "" then Ok st
  else
    let line := strip line in
    if negb (p_in_motion st) then
      if startswith line "ROOT" || startswith line "JOINT" then
        joint_name <- list_getitem (split line) 1 ;;
        let par := match rev (p_stack st) with [] => None | t :: _ => Some t end in
        Ok (mkPS (p_hierarchy st ++ [mkJoint joint_name par None]) (p_motion st)
                 (p_channels st) (p_stack st ++ [joint_name]) false
                 (p_order st ++ [joint_name]))
      else if startswith line "End Site" then
        top <- list_last (p_stack st) ;;
        let joint_name := String.append top "_End" in
        Ok (mkPS (p_hierarchy st ++ [mkJoint joint_name (Some top) None])
                 (p_motion st) (p_channels st) (p_stack st ++ [joint_name]) false
                 (p_order st))
      else if startswith line "OFFSET" then
        offset_values <- floats (tl (split line)) ;;
        hier <- set_last_offset (p_hierarchy st) offset_values ;;
        Ok (mkPS hier (p_motion st) (p_channels st) (p_stack st) false (p_order st))
      else if startswith line "CHANNELS" then
        Ok (mkPS (p_hierarchy st) (p_motion st)
                 (p_channels st ++ skipn 2 (split line)) (p_stack st) false
                 (p_order st))
      else if startswith line "}" then
        match p_stack st with
        | [] => Ok st
        | _ :: _ =>
            Ok (mkPS (p_hierarchy st) (p_motion st) (p_channels st)
                     (removelast (p_stack st)) false (p_order st))
        end
      else if startswith line "MOTION" then
        Ok (mkPS (p_hierarchy st) (p_motion st) (p_channels st) (p_stack st)
                 true (p_order st))
      else Ok st
    else if startswith line "Frames:" || startswith line "Frame Time:" then Ok st
    else
      frame_values <- floats (split line) ;;
      Ok (mkPS (p_hierarchy st) (p_motion st ++ [frame_values]) (p_channels st)
               (p_stack st) true (p_order st)).

Fixpoint run_lines (st : parse_state) (lines : list string) : PyResult parse_state :=
  match lines with
  | [] => Ok st
  | line :: lines' => st' <- process_line st line ;; run_lines st' lines'
  end.

(** [len(set(frame_lengths)) > 1] is false. *)
Definition same_lengths (rows : list (list R)) : bool :=
  match rows with
  | [] => true
  | r :: rs => forallb (fun r' => Nat.eqb (length r') (length r)) rs
  end.

Definition process_bvh_lines (lines : list string) : PyResult bvh_data :=
  st <- run_lines init_state lines ;;
  if same_lengths (p_motion st)
  then Ok (mkData (p_hierarchy st) (p_motion st) (p_channels st) (p_order st))
  else Raise ValueError.

(** [SAMPLE_BVH_CONTENT.splitlines()] of [Test/test_bvh_to_h5.py]. *)
Definition sample_bvh_lines : list string :=
  [ "ROOT Hips";
    "{";
    "    OFFSET 0.00 0.00 0.00";
    "    CHANNELS 6 Xposition Yposition Zposition Zrotation Xrotation Yrotation";
    "    JOINT Spine";
    "    {";
    "        OFFSET 0.00 10.00 0.00";
    "        CHANNELS 3 Xposition Yposition Zposition Zrotation Xrotation Yrotation";
    "        End Site";
    "        {";
    "            OFFSET 0.00 5.00 0.00";
    "        }";
    "    }";
    "}";
    "MOTION";
    "Frames: 2";
    "Frame Time: 0.033";
    "0.0 0.0 0.0 0.0 0.0 0.0";
    "10.0 20.0 30.0 5.0 15.0 25.0";
    "" ].

(* ------------------------------------------------------------------ *)
(** ** Forward kinematics as the spec words it (section 4.3)

    A second, separately written composition, to be compared with
    [compute_world_position]: the local transform is the product
    translation * rotationY * rotationX * rotationZ of homogeneous 4x4
    matrices, the world transform is the parent's world transform times
    the local one, and the reported position applies it to the offset
    (the origin for the root). *)

Open Scope R_scope.

Definition translation_mat (t : list R) : Mat :=
  mat_of_rows
    [[1; 0; 0; nth 0 t 0];
     [0; 1; 0; nth 1 t 0];
     [0; 0; 1; nth 2 t 0];
     [0; 0; 0; 1]].

Definition rotY_mat (a : R) : Mat :=
  mat_of_rows
    [[cos a; 0; sin a; 0];
     [0; 1; 0; 0];
     [- sin a; 0; cos a; 0];
     [0; 0; 0; 1]].

Definition rotX_mat (a : R) : Mat :=
  mat_of_rows
    [[1; 0; 0; 0];
     [0; cos a; - sin a; 0];
     [0; sin a; cos a; 0];
     [0; 0; 0; 1]].

Definition rotZ_mat (a : R) : Mat :=
  mat_of_rows
    [[cos a; - sin a; 0; 0];
     [sin a; cos a; 0; 0];
     [0; 0; 1; 0];
     [0; 0; 0; 1]].

Definition spec_local_transform (ty tx tz : R) (t : list R) : Mat :=
  mmul4 (translation_mat t)
    (mmul4 (rotY_mat (radians ty))
       (mmul4 (rotX_mat (radians tx)) (rotZ_mat (radians tz)))).

Close Scope R_scope.

Fixpoint spec_world_transform (fuel : nat) (s : skeleton)
    (joint_name : string) (frame : nat) : PyResult Mat :=
  match fuel with
  | 0 => Raise RecursionError
  | S fuel' =>
      j <- joint_map_getitem joint_name (hierarchy s) ;;
      wm <- dict_getitem joint_name (joint_wm s) ;;
      x <- list_getitem (wX wm) frame ;;
      y <- list_getitem (wY wm) frame ;;
      z <- list_getitem (wZ wm) frame ;;
      ry <- list_getitem (wRy wm) frame ;;
      rx <- list_getitem (wRx wm) frame ;;
      rz <- list_getitem (wRz wm) frame ;;
      let local := spec_local_transform ry rx rz [x; y; z] in
      match parent j with
      | None => Ok local
      | Some p => pw <- spec_world_transform fuel' s p frame ;; Ok (mmul4 pw local)
      end
  end.

Definition spec_joint_position (fuel : nat) (s : skeleton) (frame : nat)
    (j : joint) : PyResult (list R) :=
  W <- spec_world_transform fuel s (name j) frame ;;
  v <- match offset j with
       | Some o => Ok (o ++ [1%R])
       | None => Raise TypeError
       end ;;
  p <- (if String.eqb (name j) (root_joint s)
        then matvec4 W [0; 0; 0; 1]%R
        else matvec4 W v) ;;
  Ok (firstn 3 p).

(** Equality of two matrices on their 4x4 block. *)
Definition meq (A B : Mat) : Prop :=
  forall i j, (i < 4)%nat -> (j < 4)%nat -> A i j = B i j.

Definition res_meq (a b : PyResult Mat) : Prop :=
  match a, b with
  | Ok A, Ok B => meq A B
  | Raise e, Raise e' => e = e'
  | _, _ => False
  end.

(* ------------------------------------------------------------------ *)
(** ** Checks and sample data used by the statements below *)

Definition position_kinds : list string := ["Xposition"; "Yposition"; "Zposition"].

(** Every entry of the channel map has its three position kinds, at
    columns inside every row. *)
Definition positions_mapped (cmap : dict (dict nat)) (rows : list (list R)) : bool :=
  forallb (fun e =>
    forallb (fun a =>
      match dict_get a (snd e) with
      | Some i => forallb (fun row => Nat.ltb i (length row)) rows
      | None => false
      end) position_kinds) cmap.

(** [xs] occurs in [ys] as a subsequence. *)
Inductive subseq {A : Type} : list A -> list A -> Prop :=
| subseq_nil l : subseq [] l
| subseq_take x l1 l2 : subseq l1 l2 -> subseq (x :: l1) (x :: l2)
| subseq_skip x l1 l2 : subseq l1 l2 -> subseq l1 (x :: l2).

(** The channel sequence of the test file: the same six names, in the
    declared order Z, X, Y for the rotations, for both joints. *)
Definition sample_channels : list string :=
  ["Xposition"; "Yposition"; "Zposition"; "Zrotation"; "Xrotation"; "Yrotation";
   "Xposition"; "Yposition"; "Zposition"; "Zrotation"; "Xrotation"; "Yrotation"].

Definition sample_hierarchy : list joint :=
  [mkJoint "Hips" None (Some [0; 0; 0]%R);
   mkJoint "Spine" (Some "Hips") (Some [0; 10; 0]%R);
   mkJoint "Spine_End" (Some "Spine") (Some [0; 5; 0]%R)].

(** A two-joint skeleton whose channels follow the builder's fixed order,
    with one frame of motion. *)
Definition canonical_data : bvh_data :=
  mkData sample_hierarchy
    [[1; 2; 3; 10; 20; 30; 4; 5; 6; 40; 50; 60]%R]
    (channel_kinds ++ channel_kinds) ["Hips"; "Spine"].

Definition canonical_skeleton : skeleton :=
  match init canonical_data with
  | Ok s => s
  | Raise _ => mkSkel [] [] [] [] "" [] [] []
  end.

(** A line the hierarchy phase recognises by its prefix. *)
Definition hierarchy_keyword (line : string) : bool :=
  startswith line "ROOT" || startswith line "JOINT" || startswith line "End Site"
  || startswith line "OFFSET" || startswith line "CHANNELS" || startswith line "}"
  || startswith line "MOTION".

(** Shape of one joint's sub-map built by [match_channels]. *)
Definition sub_shape (chans : list string) (sub : dict nat) : Prop :=
  subseq (map fst sub) channel_kinds /\
  (exists c, map snd sub = seq c (length sub)) /\
  Forall (fun e => nth_error chans (snd e) = Some (fst e)) sub.

(** Every column recorded in a channel map. *)
Definition all_indices (m : dict (dict nat)) : list nat :=
  flat_map (fun e => map snd (snd e)) m.

(** The component of a position 3-vector for a position kind. *)
Definition comp (p : R * R * R) (a : string) : R :=
  let '(x, y, z) := p in
  if String.eqb a "Xposition" then x
  else if String.eqb a "Yposition" then y
  else z.

(** What [sub_joint] subtracts from column [c]. *)
Definition axis_hit (sub : dict nat) (p : R * R * R) (c : nat) : R :=
  fold_right (fun a acc =>
    ((match dict_get a sub with
      | Some i => if Nat.eqb i c then comp p a else 0
      | None => 0
      end) + acc)%R) 0%R position_kinds.

(** What [sub_all] subtracts from column [c]. *)
Fixpoint hit (cmap : dict (dict nat)) (p : R * R * R) (c : nat) : R :=
  match cmap with
  | [] => 0%R
  | (_, sub) :: cmap' => (axis_hit sub p c + hit cmap' p c)%R
  end.

(* ------------------------------------------------------------------ *)
(** ** [bvh_to_h5.read_bvh_file] and [bvh_to_h5.parse_bvh] *)

(** [[line.strip() for line in bvh_file.readlines()]], given the lines
    [readlines] returns. *)
Definition read_bvh_file (raw_lines : list string) : list string :=
  map strip raw_lines.

Definition parse_bvh (raw_lines : list string) : PyResult bvh_data :=
  process_bvh_lines (read_bvh_file raw_lines).

(** The parent of every hierarchy entry is the name of an earlier entry. *)
Definition parents_earlier (hier : list joint) : Prop :=
  forall i j p, nth_error hier i = Some j -> parent j = Some p ->
    In p (map name (firstn i hier)).

(** Every entry whose name is not in the order sequence is an end site:
    it has a parent [p] and is named [p ++ "_End"]. *)
Definition end_sites_named (hier : list joint) (ord : list string) : Prop :=
  forall j, In j hier -> ~ In (name j) ord ->
    exists p, parent j = Some p /\ name j = String.append p "_End".

(** What the parser keeps true of its local variables. *)
Definition parse_inv (st : parse_state) : Prop :=
  parents_earlier (p_hierarchy st) /\
  Forall (fun n => In n (map name (p_hierarchy st))) (p_stack st) /\
  subseq (p_order st) (map name (p_hierarchy st)) /\
  end_sites_named (p_hierarchy st) (p_order st).

(* ------------------------------------------------------------------ *)
(** ** [bvh_to_h5.save_to_hdf5] and [read_h5.read_hdf5_file] *)

(** [f"{i}"] for a natural number: its decimal digits. *)
Definition digit_char (n : nat) : ascii := ascii_of_nat (48 + n).

Fixpoint nat_digits (fuel n : nat) : string :=
  match fuel with
  | 0 => ""
  | S fuel' =>
      if Nat.ltb n 10 then String (digit_char n) ""
      else String.append (nat_digits fuel' (n / 10)) (String (digit_char (n mod 10)) "")
  end.

Definition str_of_nat (n : nat) : string := nat_digits (S n) n.

(** The name [f"joint_{i}"] of the [i]-th joint group. *)
Definition joint_key (i : nat) : string := String.append "joint_" (str_of_nat i).

(** The attributes of one joint group. *)
Record h5_joint : Type := mkH5J {
  h5_name : string;
  h5_parent : string;
  h5_offset : list R
}.

(** A dataset of byte strings as [create_dataset] stores it: a scalar
    dataset for a scalar [bytes] value, a one-dimensional array of
    fixed-width items otherwise. *)
Inductive h5_bytes : Type :=
| H5Scalar (s : string)
| H5Array (items : list string).

(** The content of the file written by [save_to_hdf5]: the members of the
    [hierarchy] group with their names, and the three datasets. *)
Record h5_file : Type := mkH5 {
  h5_hierarchy : dict h5_joint;
  h5_motion : list (list R);
  h5_channels : h5_bytes;
  h5_order : h5_bytes
}.

Definition has_nul (s : string) : bool :=
  existsb (fun c => Ascii.eqb c Ascii.zero) (list_ascii_of_string s).

Definition is_ascii_str (s : string) : bool :=
  forallb (fun c => Nat.ltb (nat_of_ascii c) 128) (list_ascii_of_string s).

(** [attrs[key] = s] for a Python [str]: h5py stores a variable-length
    string, which cannot hold a NUL character ([ValueError]). *)
Definition h5_str_attr (s : string) : PyResult string :=
  if has_nul s then Raise ValueError else Ok s.

(** [np.bytes_(names)]: [np.bytes_] first tries the [bytes]
    constructor, which takes the empty list to the scalar [b''] (an
    empty [bytes] object); any other list of [str] becomes an array of
    byte strings, and encoding a non-ASCII name raises
    [UnicodeEncodeError], a subclass of [ValueError]. *)
Definition np_bytes_ (names : list string) : PyResult h5_bytes :=
  if forallb is_ascii_str names then
    match names with
    | [] => Ok (H5Scalar "")
    | _ :: _ => Ok (H5Array names)
    end
  else Raise ValueError.

(** [joint["parent"] if joint["parent"] else "None"]: [None] and the
    empty string are false. *)
Definition h5_parent_attr (p : option string) : string :=
  match p with
  | Some s => if String.eqb s "" then "None" else s
  | None => "None"
  end.

(** [joint["offset"] if joint["offset"] else [0.0, 0.0, 0.0]]: [None] and
    the empty list are false. *)
Definition h5_offset_attr (o : option (list R)) : list R :=
  match o with
  | Some (x :: l) => x :: l
  | _ => [0; 0; 0]%R
  end.

(** [for i, joint in enumerate(parsed_data["hierarchy"])]: one group
    [joint_{i}] per joint, with its three attributes. *)
Fixpoint save_joints (i : nat) (hier : list joint) : PyResult (dict h5_joint) :=
  match hier with
  | [] => Ok []
  | j :: hier' =>
      n <- h5_str_attr (name j) ;;
      p <- h5_str_attr (h5_parent_attr (parent j)) ;;
      rest <- save_joints (S i) hier' ;;
      Ok ((joint_key i, mkH5J n p (h5_offset_attr (offset j))) :: rest)
  end.

Definition save_to_hdf5 (d : bvh_data) : PyResult h5_file :=
  group <- save_joints 0 (d_hierarchy d) ;;
  chans <- np_bytes_ (d_channels d) ;;
  ord <- np_bytes_ (d_order d) ;;
  Ok (mkH5 group (d_motion d) chans ord).

(** HDF5 lists the members of a group in ascending byte order of their
    names (h5py's default when creation order is not tracked); names are
    compared as C strings, which [String.leb] does. *)
Fixpoint insert_name (x : string) (l : list string) : list string :=
  match l with
  | [] => [x]
  | y :: l' => if String.leb x y then x :: l else y :: insert_name x l'
  end.

Definition sort_names (l : list string) : list string := fold_right insert_name [] l.

Definition h5_member_names (g : dict h5_joint) : list string := sort_names (map fst g).

(** Items of a fixed-width bytes dataset lose their trailing NUL bytes. *)
Fixpoint drop_nuls (l : list ascii) : list ascii :=
  match l with
  | c :: l' => if Ascii.eqb c Ascii.zero then drop_nuls l' else l
  | [] => []
  end.

Definition rstrip_nul (s : string) : string :=
  string_of_list_ascii (rev (drop_nuls (rev (list_ascii_of_string s)))).

(** [[ch.decode("utf-8") for ch in ds[:]]]: slicing a scalar dataset
    raises [ValueError]; the items of a fixed-width array come back
    without their trailing NUL bytes. *)
Definition read_names (ds : h5_bytes) : PyResult (list string) :=
  match ds with
  | H5Scalar _ => Raise ValueError
  | H5Array items => Ok (map rstrip_nul items)
  end.

(** The dict returned by [read_hdf5_file]. *)
Record h5_read : Type := mkH5Read {
  r_hierarchy : list joint;
  r_motion : list (list R);
  r_channels : list string;
  r_order : list string;
  r_world_motion : list (list R)
}.

(** One iteration of [for joint_name in hierarchy_group]. *)
Definition read_joint (a : h5_joint) : joint :=
  mkJoint (h5_name a)
    (if String.eqb (h5_parent a) "None" then None else Some (h5_parent a))
    (Some (h5_offset a)).

Definition read_hdf5_file (h : h5_file) : PyResult h5_read :=
  hier <- mapM (fun k => a <- dict_getitem k (h5_hierarchy h) ;; Ok (read_joint a))
            (h5_member_names (h5_hierarchy h)) ;;
  chans <- read_names (h5_channels h) ;;
  ord <- read_names (h5_order h) ;;
  Ok (mkH5Read hier (h5_motion h) chans ord (h5_motion h)).

(* ------------------------------------------------------------------ *)
(** ** The channel index builder as the spec words it (C2)

    A relational reading of the builder, written from the spec: one
    running cursor walks the order sequence from column 0; each name
    without "_End" gets an entry, for which the six kinds are tried in
    the fixed order Xposition, Yposition, Zposition, Yrotation,
    Xrotation, Zrotation; a kind is recorded at the cursor, and the
    cursor advanced, exactly when the channel name at the cursor is that
    kind, and is left absent otherwise. *)

(** [spec_kinds_walk chans kinds cur sub cur']: trying [kinds] from
    cursor [cur] records [sub] and leaves the cursor at [cur']. *)
Inductive spec_kinds_walk (chans : list string)
  : list string -> nat -> dict nat -> nat -> Prop :=
| skw_nil cur : spec_kinds_walk chans [] cur [] cur
| skw_hit k ks cur sub cur' :
    nth_error chans cur = Some k ->
    spec_kinds_walk chans ks (S cur) sub cur' ->
    spec_kinds_walk chans (k :: ks) cur ((k, cur) :: sub) cur'
| skw_miss k ks cur sub cur' :
    nth_error chans cur <> Some k ->
    spec_kinds_walk chans ks cur sub cur' ->
    spec_kinds_walk chans (k :: ks) cur sub cur'.

(** [spec_map_walk chans ord cur m m']: walking [ord] from cursor [cur]
    turns the map [m] into [m']; an entry is written with [d[k] = v]. *)
Inductive spec_map_walk (chans : list string)
  : list string -> nat -> dict (dict nat) -> dict (dict nat) -> Prop :=
| smw_nil cur m : spec_map_walk chans [] cur m m
| smw_end jn ord cur m m' :
    contains "_End" jn = true ->
    spec_map_walk chans ord cur m m' ->
    spec_map_walk chans (jn :: ord) cur m m'
| smw_joint jn ord cur cur' sub m m' :
    contains "_End" jn = false ->
    spec_kinds_walk chans channel_kinds cur sub cur' ->
    spec_map_walk chans ord cur' (dict_set jn sub m) m' ->
    spec_map_walk chans (jn :: ord) cur m m'.

(* ------------------------------------------------------------------ *)
(** ** Characters of a float literal *)

(** [any(f(c) for c in s)] *)
Fixpoint str_exists (f : ascii -> bool) (s : string) : bool :=
  match s with
  | EmptyString => false
  | String c s' => f c || str_exists f s'
  end.

(** A character that can occur in a string [float()] accepts once its
    surrounding whitespace is stripped: a digit, a letter (the exponent
    marker, [inf], [nan]), a sign, the dot or an underscore. *)
Definition float_char (c : ascii) : bool :=
  let n := nat_of_ascii c in
  (Nat.leb 48 n && Nat.leb n 57) || (Nat.leb 65 n && Nat.leb n 90)
  || (Nat.leb 97 n && Nat.leb n 122)
  || Nat.eqb n 43 || Nat.eqb n 45 || Nat.eqb n 46 || Nat.eqb n 95.

(** A character that is neither whitespace nor a [float_char]. *)
Definition foreign_char (c : ascii) : bool :=
  negb (float_char c) && negb (is_space c).

(* ================================================================== *)
(** * Proofs *)

Ltac split_binds :=
  repeat match goal with
  | |- context [bind ?m _] =>
      let E := fresh "E" in destruct m eqn:E; cbn [bind]
  end.

Ltac idx4 i :=
  let H := fresh in
  assert (H : i = 0%nat \/ i = 1%nat \/ i = 2%nat \/ i = 3%nat) by lia;
  destruct H as [ -> | [ -> | [ -> | -> ]]].

(** The block matrix built by the code is the product of the spec. *)
Lemma transformation_matrix_yxz_meq (ty tx tz x y z : R) :
  meq (transformation_matrix_yxz ty tx tz [x; y; z])
      (spec_local_transform ty tx tz [x; y; z]).
Proof.
  intros i j Hi Hj. idx4 i; idx4 j;
  cbv [transformation_matrix_yxz spec_local_transform rotation_matrix_yxz
       mmul3 mmul4 translation_mat rotY_mat rotX_mat rotZ_mat mat_of_rows eye];
  simpl; ring.
Qed.

Lemma mmul4_meq (A A' B B' : Mat) :
  meq A A' -> meq B B' -> meq (mmul4 A B) (mmul4 A' B').
Proof.
  intros HA HB i j Hi Hj. unfold mmul4.
  rewrite !HA, !HB by lia. reflexivity.
Qed.

Lemma matvec4_meq (A B : Mat) (v : list R) :
  meq A B -> matvec4 A v = matvec4 B v.
Proof.
  intros H. unfold matvec4.
  destruct v as [|a [|b [|c [|d [|]]]]]; try reflexivity.
  simpl. rewrite !H by lia. reflexivity.
Qed.

Lemma world_transform_refines (fuel : nat) (s : skeleton) (n : string) (f : nat) :
  res_meq (compute_world_position fuel s n f) (spec_world_transform fuel s n f).
Proof.
  revert n. induction fuel as [|fuel IH]; intros n; simpl; [reflexivity|].
  split_binds; simpl; try reflexivity.
  destruct (parent _) as [p|]; [|apply transformation_matrix_yxz_meq].
  specialize (IH p).
  destruct (compute_world_position fuel s p f) as [A|e];
  destruct (spec_world_transform fuel s p f) as [B|e']; simpl in *;
  try contradiction; auto.
  apply mmul4_meq; [assumption | apply transformation_matrix_yxz_meq].
Qed.

(** C1: for every skeleton, joint and frame, the code's local transform is
    translation(x, y, z) * rotY(ry) * rotX(rx) * rotZ(rz) with the angles
    converted from degrees to radians; the world transform is the parent's
    world transform times the local one (the parentless joint's is its
    local transform); and the reported position is that transform applied
    to the homogeneous offset, or to the origin for the root. *)
Theorem fk_matches_spec :
  (forall ty tx tz x y z,
      meq (transformation_matrix_yxz ty tx tz [x; y; z])
          (spec_local_transform ty tx tz [x; y; z])) /\
  (forall fuel s n f,
      res_meq (compute_world_position fuel s n f)
              (spec_world_transform fuel s n f)) /\
  (forall fuel s f j,
      fk_joint_position fuel s f j = spec_joint_position fuel s f j).
Proof.
  split; [exact transformation_matrix_yxz_meq|].
  split; [exact world_transform_refines|].
  intros fuel s f j. unfold fk_joint_position, spec_joint_position.
  pose proof (world_transform_refines fuel s (name j) f) as H.
  destruct (compute_world_position fuel s (name j) f) as [A|e];
  destruct (spec_world_transform fuel s (name j) f) as [B|e'];
  simpl in H; try contradiction; cbn [bind]; [|subst; reflexivity].
  destruct (offset j); cbn [bind]; [|reflexivity].
  destruct (String.eqb _ _); rewrite (matvec4_meq A B _ H); reflexivity.
Qed.

(* ------------------------------------------------------------------ *)
(** ** Root reassignment onto the current root *)

(** C10: [set_new_root] with the current root's name returns at once:
    hierarchy, motion table, root and every other attribute unchanged. *)
Theorem set_new_root_current_root_noop (s : skeleton) :
  set_new_root (root_joint s) s = Ok (tt, s).
Proof.
  unfold set_new_root. rewrite String.eqb_refl. reflexivity.
Qed.

(* ------------------------------------------------------------------ *)
(** ** Parser lemmas *)

Lemma prefix_app (p s : string) :
  String.prefix p s = true -> exists r, s = String.append p r.
Proof.
  revert s. induction p as [|c p IH]; intros s H.
  - exists s. reflexivity.
  - destruct s as [|c' s]; simpl in H; [discriminate|].
    destruct (ascii_dec c c') as [->|]; [|discriminate].
    destruct (IH s H) as [r ->]. exists r. reflexivity.
Qed.

Lemma run_lines_app (st : parse_state) (l1 l2 : list string) :
  run_lines st (l1 ++ l2) = bind (run_lines st l1) (fun st' => run_lines st' l2).
Proof.
  revert st. induction l1 as [|l l1 IH]; intros st; simpl; [reflexivity|].
  destruct (process_line st l); simpl; [apply IH|reflexivity].
Qed.

Lemma strip_empty : strip "" = "".
Proof. reflexivity. Qed.

(** A line whose stripped form starts with [kw] is not the empty line. *)
Lemma line_nonempty (line kw : string) :
  kw <> "" -> startswith (strip line) kw = true -> String.eqb line "" = false.
Proof.
  intros Hkw H. destruct (String.eqb_spec line "") as [->|]; [|reflexivity].
  rewrite strip_empty in H. destruct kw; [congruence|discriminate].
Qed.

(** C9: a [CHANNELS n <names...>] line of the hierarchy phase appends every
    token after the keyword and the count to the channel sequence, whatever
    [n] says. *)
Theorem channels_line_appends_all_names (st : parse_state) (line : string) :
  p_in_motion st = false ->
  startswith (strip line) "CHANNELS" = true ->
  process_line st line =
    Ok (mkPS (p_hierarchy st) (p_motion st)
             (p_channels st ++ skipn 2 (split (strip line)))
             (p_stack st) false (p_order st)).
Proof.
  intros Hm Hs.
  unfold process_line.
  rewrite (line_nonempty line "CHANNELS") by (discriminate || assumption).
  rewrite Hm. simpl negb. cbv iota beta.
  destruct (prefix_app _ _ Hs) as [r Hr].
  rewrite Hs.
  replace (startswith (strip line) "ROOT") with false by (rewrite Hr; reflexivity).
  replace (startswith (strip line) "JOINT") with false by (rewrite Hr; reflexivity).
  replace (startswith (strip line) "End Site") with false by (rewrite Hr; reflexivity).
  replace (startswith (strip line) "OFFSET") with false by (rewrite Hr; reflexivity).
  reflexivity.
Qed.

Lemma channels_line_appends_all_names_witness :
  p_in_motion init_state = false /\
  startswith (strip "CHANNELS 3 Xposition Yposition Zposition") "CHANNELS" = true /\
  process_line init_state "CHANNELS 3 Xposition Yposition Zposition" =
    Ok (mkPS [] [] (skipn 2 (split (strip "CHANNELS 3 Xposition Yposition Zposition")))
             [] false []).
Proof.
  split; [reflexivity|]. split; [reflexivity|].
  apply (channels_line_appends_all_names init_state
           "CHANNELS 3 Xposition Yposition Zposition"); reflexivity.
Defined.

(** The Spine line of the test file declares 3 channels and lists six
    names: all six are appended, so the line adds 6 names, not 3. *)
Lemma channels_line_count_ignored :
  match process_line init_state
          "        CHANNELS 3 Xposition Yposition Zposition Zrotation Xrotation Yrotation"
  with
  | Ok st => length (p_channels st) = 6%nat
  | Raise _ => False
  end.
Proof. vm_compute. reflexivity. Qed.

Lemma process_bvh_lines_skip (pre rest : list string) (line : string)
    (st : parse_state) :
  run_lines init_state pre = Ok st ->
  process_line st line = Ok st ->
  process_bvh_lines (pre ++ line :: rest) = process_bvh_lines (pre ++ rest).
Proof.
  intros Hpre Hl. unfold process_bvh_lines.
  rewrite !run_lines_app, Hpre. simpl. rewrite Hl. reflexivity.
Qed.

Lemma process_bvh_lines_fail (pre rest : list string) (line : string)
    (st : parse_state) (e : exc) :
  run_lines init_state pre = Ok st ->
  process_line st line = Raise e ->
  process_bvh_lines (pre ++ line :: rest) = Raise e.
Proof.
  intros Hpre Hl. unfold process_bvh_lines.
  rewrite run_lines_app, Hpre. simpl. rewrite Hl. reflexivity.
Qed.

(** C5: in the hierarchy phase, an [OFFSET] line read while no joint has
    been appended makes the whole parse fail; a closing-scope line read
    with an empty scope stack, and a line with no recognised keyword, are
    skipped: the parse goes on as if the line were absent. *)
Theorem parse_offset_fails_and_skips (pre : list string) (line : string)
    (rest : list string) (st : parse_state) :
  run_lines init_state pre = Ok st ->
  p_in_motion st = false ->
  (p_hierarchy st = [] -> startswith (strip line) "OFFSET" = true ->
     is_raise (process_bvh_lines (pre ++ line :: rest)) = true) /\
  (p_stack st = [] -> startswith (strip line) "}" = true ->
     process_bvh_lines (pre ++ line :: rest) = process_bvh_lines (pre ++ rest)) /\
  (hierarchy_keyword (strip line) = false ->
     process_bvh_lines (pre ++ line :: rest) = process_bvh_lines (pre ++ rest)).
Proof.
  intros Hpre Hm. split; [|split].
  - intros Hh Hs.
    assert (Hl : is_raise (process_line st line) = true).
    { unfold process_line.
      rewrite (line_nonempty line "OFFSET") by (discriminate || assumption).
      rewrite Hm. simpl negb. cbv iota beta.
      destruct (prefix_app _ _ Hs) as [r Hr].
      rewrite Hs.
      replace (startswith (strip line) "ROOT") with false by (rewrite Hr; reflexivity).
      replace (startswith (strip line) "JOINT") with false by (rewrite Hr; reflexivity).
      replace (startswith (strip line) "End Site") with false by (rewrite Hr; reflexivity).
      simpl. destruct (floats _); simpl; [|reflexivity].
      rewrite Hh. reflexivity. }
    destruct (process_line st line) as [st'|e] eqn:E; [discriminate|].
    rewrite (process_bvh_lines_fail pre rest line st e Hpre E). reflexivity.
  - intros Hst Hs. apply (process_bvh_lines_skip pre rest line st Hpre).
    unfold process_line.
    rewrite (line_nonempty line "}") by (discriminate || assumption).
    rewrite Hm. simpl negb. cbv iota beta.
    destruct (prefix_app _ _ Hs) as [r Hr].
    rewrite Hs.
    replace (startswith (strip line) "ROOT") with false by (rewrite Hr; reflexivity).
    replace (startswith (strip line) "JOINT") with false by (rewrite Hr; reflexivity).
    replace (startswith (strip line) "End Site") with false by (rewrite Hr; reflexivity).
    replace (startswith (strip line) "OFFSET") with false by (rewrite Hr; reflexivity).
    replace (startswith (strip line) "CHANNELS") with false by (rewrite Hr; reflexivity).
    simpl. rewrite Hst. reflexivity.
  - intros Hk. apply (process_bvh_lines_skip pre rest line st Hpre).
    unfold process_line.
    destruct (String.eqb line ""); [reflexivity|].
    rewrite Hm. simpl negb. cbv iota beta.
    unfold hierarchy_keyword in Hk.
    repeat rewrite orb_false_iff in Hk.
    destruct Hk as [[[[[[-> ->] ->] ->] ->] ->] ->].
    reflexivity.
Qed.

Lemma parse_offset_fails_and_skips_witness :
  run_lines init_state [] = Ok init_state /\
  p_in_motion init_state = false /\
  is_raise (process_bvh_lines ([] ++ ["OFFSET 0.0 1.0 2.0"] ++ [])) = true.
Proof.
  split; [reflexivity|]. split; [reflexivity|].
  apply (proj1 (parse_offset_fails_and_skips [] "OFFSET 0.0 1.0 2.0" []
                  init_state eq_refl eq_refl)); reflexivity.
Defined.

(** A closing-scope line with nothing open, and an unknown keyword, do not
    make the parse fail. *)
Lemma parse_unbalanced_close_accepted :
  process_bvh_lines ["}"] = Ok (mkData [] [] [] []) /\
  process_bvh_lines ["HIERARCHY"; "ROOT Hips"; "}"; "}"] =
    Ok (mkData [mkJoint "Hips" None None] [] [] ["Hips"]).
Proof. split; vm_compute; reflexivity. Qed.

(* ------------------------------------------------------------------ *)
(** ** Frame lengths *)

Lemma same_lengths_spec (rows : list (list R)) :
  same_lengths rows = true ->
  forall r1 r2, In r1 rows -> In r2 rows -> length r1 = length r2.
Proof.
  destruct rows as [|r rs]; simpl; [tauto|].
  rewrite forallb_forall. intros H r1 r2 H1 H2.
  assert (Hr : forall x, r = x \/ In x rs -> length x = length r).
  { intros x [<-|Hx]; [reflexivity|]. apply Nat.eqb_eq, H, Hx. }
  rewrite (Hr r1 H1), (Hr r2 H2). reflexivity.
Qed.

(** C6: every successful parse returns frames of one common length; when
    the scanned rows have different lengths the parse fails with
    [ValueError] once all lines are read. *)
Theorem parse_frames_same_length :
  (forall lines d, process_bvh_lines lines = Ok d ->
     forall r1 r2, In r1 (d_motion d) -> In r2 (d_motion d) ->
     length r1 = length r2) /\
  (forall lines st, run_lines init_state lines = Ok st ->
     same_lengths (p_motion st) = false ->
     process_bvh_lines lines = Raise ValueError).
Proof.
  split.
  - intros lines d H. unfold process_bvh_lines in H.
    destruct (run_lines init_state lines) as [st|e]; simpl in H; [|discriminate].
    destruct (same_lengths (p_motion st)) eqn:E; [|discriminate].
    injection H as <-. simpl. apply same_lengths_spec, E.
  - intros lines st H E. unfold process_bvh_lines. rewrite H. simpl.
    rewrite E. reflexivity.
Qed.

Lemma parse_frames_same_length_witness :
  process_bvh_lines ["MOTION"; "1.0 2.0"; "3.0"] = Raise ValueError.
Proof.
  apply (proj2 parse_frames_same_length ["MOTION"; "1.0 2.0"; "3.0"]
           (match run_lines init_state ["MOTION"; "1.0 2.0"; "3.0"] with
            | Ok st => st
            | Raise _ => init_state
            end)); vm_compute; reflexivity.
Defined.

(** The test file parses, yet its rows have 6 values while its channel
    sequence has 12 names: the frame length is not compared with it. *)
Lemma sample_frames_shorter_than_channels :
  match process_bvh_lines sample_bvh_lines with
  | Ok d => length (d_channels d) = 12%nat /\
            Forall (fun r => length r = 6%nat) (d_motion d) /\ d_motion d <> []
  | Raise _ => False
  end.
Proof.
  vm_compute. split; [reflexivity|]. split; [repeat constructor|discriminate].
Qed.

(* ------------------------------------------------------------------ *)
(** ** The test file *)

(** C8: parsing the two-joint test file (root Hips, joint Spine, an end
    site, two motion rows) gives the hierarchy
    [{Hips, None, [0,0,0]}, {Spine, Hips, [0,10,0]}, {Spine_End, Spine, [0,5,0]}],
    the channel sequence [Xposition, Yposition, Zposition, Zrotation,
    Xrotation, Yrotation] twice, and the motion table
    [[0,0,0,0,0,0], [10,20,30,5,15,25]]. *)
Theorem sample_bvh_parse :
  match process_bvh_lines sample_bvh_lines with
  | Ok d =>
      d_hierarchy d =
        [mkJoint "Hips" None (Some [0; 0; 0]%R);
         mkJoint "Spine" (Some "Hips") (Some [0; 10; 0]%R);
         mkJoint "Spine_End" (Some "Spine") (Some [0; 5; 0]%R)] /\
      d_channels d =
        ["Xposition"; "Yposition"; "Zposition"; "Zrotation"; "Xrotation"; "Yrotation";
         "Xposition"; "Yposition"; "Zposition"; "Zrotation"; "Xrotation"; "Yrotation"] /\
      d_motion d = [[0; 0; 0; 0; 0; 0]; [10; 20; 30; 5; 15; 25]]%R
  | Raise _ => False
  end.
Proof.
  cbv -[IZR Rdiv].
  split; [|split; [reflexivity|]]; repeat f_equal; field.
Qed.

(* ------------------------------------------------------------------ *)
(** ** Dict lemmas *)

Lemma dict_get_set {V} (k k' : string) (v : V) (d : dict V) :
  dict_get k (dict_set k' v d) = if String.eqb k k' then Some v else dict_get k d.
Proof.
  induction d as [|[k0 v0] d IH]; simpl.
  - destruct (String.eqb k k'); reflexivity.
  - destruct (String.eqb_spec k' k0) as [->|Hne]; simpl.
    + destruct (String.eqb k k0); reflexivity.
    + rewrite IH. destruct (String.eqb_spec k k0) as [->|]; [|reflexivity].
      destruct (String.eqb_spec k0 k') as [->|]; [congruence|reflexivity].
Qed.

Lemma dict_get_in {V} (k : string) (v : V) (d : dict V) :
  dict_get k d = Some v -> In (k, v) d.
Proof.
  induction d as [|[k0 v0] d IH]; simpl; [discriminate|].
  destruct (String.eqb_spec k k0) as [->|]; [injection 1 as ->; auto|auto].
Qed.

Lemma dict_set_in {V} (k : string) (v : V) (d : dict V) e :
  In e (dict_set k v d) -> In e d \/ e = (k, v).
Proof.
  induction d as [|[k0 v0] d IH]; simpl.
  - intuition.
  - destruct (String.eqb_spec k k0) as [->|]; simpl.
    + intuition.
    + intros [H|H]; [auto|]. destruct (IH H); auto.
Qed.

Lemma dict_get_app_none {V} (k : string) (d1 d2 : dict V) :
  dict_get k d1 = None -> dict_get k (d1 ++ d2) = dict_get k d2.
Proof.
  induction d1 as [|[k0 v0] d1 IH]; simpl; [reflexivity|].
  destruct (String.eqb k k0); [discriminate|exact IH].
Qed.

Lemma dict_set_fresh {V} (k : string) (v : V) (d : dict V) :
  dict_get k d = None -> dict_set k v d = d ++ [(k, v)].
Proof.
  induction d as [|[k0 v0] d IH]; simpl; [reflexivity|].
  destruct (String.eqb_spec k k0) as [->|]; [discriminate|].
  intros H. rewrite (IH H). reflexivity.
Qed.

(* ------------------------------------------------------------------ *)
(** ** The channel map builder *)

(** One joint's sub-map: kinds in the fixed order, at consecutive
    columns, each column declared with the kind it is recorded for. *)
Lemma match_channels_shape (chans kinds : list string) (cur : nat)
    (sub : dict nat) :
  (forall k, In k kinds -> dict_get k sub = None) -> NoDup kinds ->
  exists new,
    match_channels chans kinds cur sub = (sub ++ new, cur + length new)%nat /\
    subseq (map fst new) kinds /\
    map snd new = seq cur (length new) /\
    Forall (fun e => nth_error chans (snd e) = Some (fst e)) new.
Proof.
  revert cur sub. induction kinds as [|k ks IH]; intros cur sub Hfresh Hnd.
  - exists []. rewrite app_nil_r, Nat.add_0_r.
    repeat split; constructor.
  - inversion Hnd as [|? ? Hk Hnd']; subst. simpl.
    destruct (Nat.ltb cur (length chans) && String.eqb (nth cur chans "") k) eqn:Hc.
    + apply andb_true_iff in Hc as [Hlt Heq].
      apply Nat.ltb_lt in Hlt. apply String.eqb_eq in Heq.
      rewrite (dict_set_fresh k cur sub) by (apply Hfresh; left; reflexivity).
      destruct (IH (S cur) (sub ++ [(k, cur)])) as (new & Hm & Hs & Hseq & Hf).
      { intros k' Hk'. rewrite dict_get_app_none by (apply Hfresh; right; exact Hk').
        simpl. destruct (String.eqb_spec k' k) as [->|]; [contradiction|reflexivity]. }
      { exact Hnd'. }
      exists ((k, cur) :: new). rewrite Hm, <- app_assoc. simpl.
      repeat split.
      * f_equal. lia.
      * constructor. exact Hs.
      * rewrite Hseq. reflexivity.
      * constructor; [|exact Hf]. simpl. rewrite <- Heq.
        apply nth_error_nth'. exact Hlt.
    + destruct (IH cur sub) as (new & Hm & Hs & Hseq & Hf).
      { intros k' Hk'. apply Hfresh. right. exact Hk'. }
      { exact Hnd'. }
      exists new. repeat split; auto. constructor. exact Hs.
Qed.

Lemma channel_kinds_nodup : NoDup channel_kinds.
Proof.
  unfold channel_kinds.
  repeat constructor; simpl; intuition discriminate.
Qed.

Lemma build_loop_shape (chans ord : list string) (cur : nat) (m : dict (dict nat)) :
  (forall k sub, In (k, sub) m -> sub_shape chans sub) ->
  forall k sub, In (k, sub) (build_loop chans ord cur m) -> sub_shape chans sub.
Proof.
  revert cur m. induction ord as [|jn ord IH]; intros cur m Hm; cbn [build_loop];
    [exact Hm|].
  destruct (contains "_End" jn); [apply IH, Hm|].
  destruct (match_channels_shape chans channel_kinds cur [])
    as (new & Hmc & Hs & Hseq & Hf); [reflexivity|apply channel_kinds_nodup|].
  rewrite Hmc. apply IH.
  intros k sub Hin. destruct (dict_set_in _ _ _ _ Hin) as [H|H]; [eapply Hm, H|].
  injection H as -> ->. split; [exact Hs|]. split; [|exact Hf].
  exists cur. exact Hseq.
Qed.

Lemma build_loop_keys (chans ord : list string) (cur : nat) (m : dict (dict nat))
    (jn : string) :
  dict_get jn (build_loop chans ord cur m) <> None <->
  dict_get jn m <> None \/ (In jn ord /\ contains "_End" jn = false).
Proof.
  revert cur m. induction ord as [|x ord IH]; intros cur m; cbn [build_loop In].
  - intuition.
  - destruct (contains "_End" x) eqn:Ex.
    + rewrite IH. split; [intuition|].
      intros [H|[[->|H] He]]; auto; congruence.
    + destruct (match_channels chans channel_kinds cur []) as [sub c'].
      rewrite IH, dict_get_set.
      destruct (String.eqb_spec jn x) as [->|Hne]; split; intuition congruence.
Qed.

(** The test of the inner loop is [chans[cur] == k]. *)
Lemma cursor_matches (chans : list string) (cur : nat) (k : string) :
  Nat.ltb cur (length chans) && String.eqb (nth cur chans "") k = true <->
  nth_error chans cur = Some k.
Proof.
  rewrite andb_true_iff, Nat.ltb_lt, String.eqb_eq. split.
  - intros [Hlt <-]. apply nth_error_nth'. exact Hlt.
  - intros H. split.
    + apply nth_error_Some. rewrite H. discriminate.
    + apply nth_error_nth. exact H.
Qed.

Lemma match_channels_walk (chans kinds : list string) (cur : nat) (acc : dict nat) :
  (forall k, In k kinds -> dict_get k acc = None) -> NoDup kinds ->
  exists new cur',
    match_channels chans kinds cur acc = (acc ++ new, cur') /\
    spec_kinds_walk chans kinds cur new cur'.
Proof.
  revert cur acc. induction kinds as [|k ks IH]; intros cur acc Hfresh Hnd.
  - exists [], cur. rewrite app_nil_r. split; [reflexivity|constructor].
  - inversion Hnd as [|? ? Hk Hnd']; subst. cbn [match_channels].
    destruct (Nat.ltb cur (length chans) && String.eqb (nth cur chans "") k) eqn:Hc.
    + rewrite (dict_set_fresh k cur acc) by (apply Hfresh; left; reflexivity).
      destruct (IH (S cur) (acc ++ [(k, cur)])) as (new & cur' & Hm & Hw).
      { intros k' Hk'. rewrite dict_get_app_none by (apply Hfresh; right; exact Hk').
        simpl. destruct (String.eqb_spec k' k) as [->|]; [contradiction|reflexivity]. }
      { exact Hnd'. }
      exists ((k, cur) :: new), cur'. rewrite Hm, <- app_assoc. split; [reflexivity|].
      apply skw_hit; [apply cursor_matches; exact Hc|exact Hw].
    + destruct (IH cur acc) as (new & cur' & Hm & Hw).
      { intros k' Hk'. apply Hfresh. right. exact Hk'. }
      { exact Hnd'. }
      exists new, cur'. split; [exact Hm|].
      apply skw_miss; [|exact Hw].
      intros H. apply cursor_matches in H. congruence.
Qed.

Lemma spec_kinds_walk_det (chans ks : list string) (cur : nat) s1 c1 s2 c2 :
  spec_kinds_walk chans ks cur s1 c1 -> spec_kinds_walk chans ks cur s2 c2 ->
  s1 = s2 /\ c1 = c2.
Proof.
  intros H1. revert s2 c2. induction H1 as [cur|k ks cur sub cur' Hn H1 IH
    |k ks cur sub cur' Hn H1 IH]; intros s2 c2 H2; inversion H2; subst.
  - split; reflexivity.
  - destruct (IH _ _ H7) as [-> ->]. split; reflexivity.
  - contradiction.
  - contradiction.
  - exact (IH _ _ H7).
Qed.

Lemma build_loop_walk (chans ord : list string) (cur : nat) (m : dict (dict nat)) :
  spec_map_walk chans ord cur m (build_loop chans ord cur m).
Proof.
  revert cur m. induction ord as [|jn ord IH]; intros cur m; cbn [build_loop].
  - constructor.
  - destruct (contains "_End" jn) eqn:He.
    + apply smw_end; [exact He|apply IH].
    + destruct (match_channels_walk chans channel_kinds cur [])
        as (new & cur' & Hm & Hw); [reflexivity|apply channel_kinds_nodup|].
      rewrite Hm. cbn [app]. apply (smw_joint _ _ _ _ cur' new); [exact He|exact Hw|apply IH].
Qed.

Lemma spec_map_walk_det (chans ord : list string) (cur : nat) m m1 m2 :
  spec_map_walk chans ord cur m m1 -> spec_map_walk chans ord cur m m2 -> m1 = m2.
Proof.
  intros H1. revert m2. induction H1 as [cur m|jn ord cur m m' He H1 IH
    |jn ord cur cur' sub m m' He Hw H1 IH]; intros m2 H2; inversion H2; subst.
  - reflexivity.
  - exact (IH _ H7).
  - congruence.
  - congruence.
  - destruct (spec_kinds_walk_det _ _ _ _ _ _ _ Hw H4) as [-> ->].
    exact (IH _ H8).
Qed.

(** C2 (as the code does it): the builder creates an entry for exactly the
    names of the order sequence that do not contain "_End", and matches
    each joint's channels against the fixed kind order Xposition,
    Yposition, Zposition, Yrotation, Xrotation, Zrotation with one running
    cursor: a joint's recorded kinds come in that order, at consecutive
    columns, and each recorded column's declared name is its kind.  The
    map built is the one, and the only one, that [spec_map_walk] relates
    to the cursor 0 and the empty map: the cursor starts at 0 and carries
    from joint to joint, and a kind is recorded (and the cursor advanced)
    exactly when the channel name at the cursor is that kind. *)
Theorem build_joint_channel_map_fixed_order (chans ord : list string) :
  (forall jn, dict_get jn (build_joint_channel_map chans ord) <> None <->
              In jn ord /\ contains "_End" jn = false) /\
  (forall jn sub, dict_get jn (build_joint_channel_map chans ord) = Some sub ->
     subseq (map fst sub) channel_kinds /\
     (exists c, map snd sub = seq c (length sub)) /\
     (forall k i, dict_get k sub = Some i -> nth_error chans i = Some k)) /\
  spec_map_walk chans ord 0 [] (build_joint_channel_map chans ord) /\
  (forall m, spec_map_walk chans ord 0 [] m -> m = build_joint_channel_map chans ord).
Proof.
  split; [|split; [|split]].
  3: apply build_loop_walk.
  3: intros m Hm; exact (spec_map_walk_det _ _ _ _ _ _ Hm (build_loop_walk chans ord 0 [])).
  - intros jn. unfold build_joint_channel_map. rewrite build_loop_keys.
    simpl. intuition.
  - intros jn sub H.
    destruct (build_loop_shape chans ord 0 [] ltac:(contradiction) jn sub
                (dict_get_in _ _ _ H)) as (Hs & Hc & Hf).
    split; [exact Hs|]. split; [exact Hc|].
    intros k i Hk. rewrite Forall_forall in Hf.
    exact (Hf (k, i) (dict_get_in _ _ _ Hk)).
Qed.

(** On the test file's channels (rotations declared Z, X, Y), Hips's six
    declared channels are columns 0-5, yet the builder, walking its fixed
    order, maps only four kinds for Hips and one for Spine. *)
Lemma build_joint_channel_map_declared_order_ignored :
  build_joint_channel_map sample_channels ["Hips"; "Spine"] =
    [("Hips", [("Xposition", 0); ("Yposition", 1); ("Zposition", 2);
               ("Zrotation", 3)]);
     ("Spine", [("Xrotation", 4)])]%nat /\
  firstn 6 sample_channels =
    ["Xposition"; "Yposition"; "Zposition"; "Zrotation"; "Xrotation"; "Yrotation"].
Proof. split; vm_compute; reflexivity. Qed.

(* ------------------------------------------------------------------ *)
(** ** Construction *)

Lemma joint_map_names_in (hier : list joint) (j : joint) :
  In j hier -> In (name j) (joint_map_names hier).
Proof.
  unfold joint_map_names.
  assert (G : forall h acc n, In n acc \/ In n (map name h) ->
    In n (fold_left (fun acc j =>
       if existsb (String.eqb (name j)) acc then acc else app acc [name j]) h acc)).
  { induction h as [|x h IH]; intros acc n Hn; simpl in *; [intuition|].
    apply IH. destruct Hn as [Hn|[Hn|Hn]]; auto.
    - destruct (existsb _ acc); [auto|left; apply in_or_app; auto].
    - subst n. destruct (existsb (String.eqb (name x)) acc) eqn:E.
      + left. apply existsb_exists in E as (y & Hy & Hq).
        apply String.eqb_eq in Hq. subst. exact Hy.
      + left. apply in_or_app. right. left. reflexivity. }
  intros H. apply G. right. apply in_map, H.
Qed.

Lemma update_fold_raise (cmap : dict (dict nat)) (rows : list (list R))
    (names : list string) (e : exc) :
  fold_left (fun acc jn =>
    d <- acc ;; wm <- wm_frames cmap jn rows empty_wm ;; Ok (dict_set jn wm d))
    names (Raise e) = Raise e.
Proof. induction names; simpl; auto. Qed.

Lemma update_ok_each (cmap : dict (dict nat)) (rows : list (list R))
    (names : list string) (acc : PyResult (dict world_motion)) wmd :
  fold_left (fun acc jn =>
    d <- acc ;; wm <- wm_frames cmap jn rows empty_wm ;; Ok (dict_set jn wm d))
    names acc = Ok wmd ->
  forall n, In n names -> exists wm, wm_frames cmap n rows empty_wm = Ok wm.
Proof.
  revert acc. induction names as [|x names IH]; intros acc H n Hn; [contradiction|].
  simpl in H. destruct Hn as [<-|Hn]; [|eapply IH; eauto].
  destruct acc as [d|e]; simpl in H; [|rewrite update_fold_raise in H; discriminate].
  destruct (wm_frames cmap x rows empty_wm) as [wm|e] eqn:E; [eauto|].
  simpl in H. rewrite update_fold_raise in H. discriminate.
Qed.

Lemma wm_frames_first_row (cmap : dict (dict nat)) (jn : string) row rows wm wm' :
  wm_frames cmap jn (row :: rows) wm = Ok wm' ->
  contains "_End" jn = false ->
  exists sub, dict_get jn cmap = Some sub /\
    forall k, In k channel_kinds -> exists i, dict_get k sub = Some i.
Proof.
  simpl. intros H He. rewrite He in H. unfold dict_getitem in H at 1.
  destruct (dict_get jn cmap) as [sub|]; simpl in H; [|discriminate].
  exists sub. split; [reflexivity|].
  unfold frame_values, dict_getitem in H.
  destruct (dict_get "Xposition" sub) eqn:E1; simpl in H; [|discriminate].
  destruct (dict_get "Yposition" sub) eqn:E2; simpl in H; [|discriminate].
  destruct (dict_get "Zposition" sub) eqn:E3; simpl in H; [|discriminate].
  destruct (dict_get "Xrotation" sub) eqn:E4; simpl in H; [|discriminate].
  destruct (dict_get "Yrotation" sub) eqn:E5; simpl in H; [|discriminate].
  destruct (dict_get "Zrotation" sub) eqn:E6; simpl in H; [|discriminate].
  intros k Hk. simpl in Hk.
  destruct Hk as [<-|[<-|[<-|[<-|[<-|[<-|[]]]]]]]; eauto.
Qed.

(** C3 (as the code does it): when the motion table has at least one
    frame, construction succeeds only if every hierarchy joint whose name
    does not contain "_End" has all six channel kinds mapped (otherwise the
    per-frame reads raise [KeyError]); so every skeleton constructed from a
    non-empty motion table has them. *)
Theorem init_maps_all_six_kinds (d : bvh_data) :
  d_motion d <> [] ->
  match init d with
  | Ok s =>
      forall j, In j (hierarchy s) -> contains "_End" (name j) = false ->
      exists sub, dict_get (name j) (joint_channel_map s) = Some sub /\
        forall k, In k channel_kinds -> exists i, dict_get k sub = Some i
  | Raise _ => True
  end.
Proof.
  intros Hne. unfold init.
  destruct (d_hierarchy d) as [|j0 hs] eqn:Eh; cbn [bind]; [exact I|].
  destruct (update_hierarchy_with_motion _ _ _) as [wmd|e] eqn:Eu;
    cbn [bind]; [|exact I].
  destruct (compute_world_skeleton_for_frames _ _); cbn [bind]; [|exact I].
  simpl. intros j Hj He.
  destruct (update_ok_each _ _ _ _ _ Eu (name j) (joint_map_names_in (j0 :: hs) _ Hj))
    as [wm Hwm].
  destruct (d_motion d) as [|row rows]; [contradiction|].
  exact (wm_frames_first_row _ _ _ _ _ _ Hwm He).
Qed.

Lemma init_maps_all_six_kinds_witness :
  d_motion canonical_data <> [] /\
  match init canonical_data with
  | Ok s =>
      forall j, In j (hierarchy s) -> contains "_End" (name j) = false ->
      exists sub, dict_get (name j) (joint_channel_map s) = Some sub /\
        forall k, In k channel_kinds -> exists i, dict_get k sub = Some i
  | Raise _ => True
  end.
Proof.
  split; [simpl; discriminate|].
  apply init_maps_all_six_kinds. simpl. discriminate.
Defined.

(** With no frame, the test file's skeleton is constructed although the
    builder left Hips without a Yrotation column. *)
Lemma init_empty_motion_incomplete_map :
  match init (mkData sample_hierarchy [] sample_channels ["Hips"; "Spine"]) with
  | Ok s => exists sub, dict_get "Hips" (joint_channel_map s) = Some sub /\
                        dict_get "Yrotation" sub = None
  | Raise _ => False
  end.
Proof. vm_compute. eexists. split; reflexivity. Qed.

(* ------------------------------------------------------------------ *)
(** ** Columns of the channel map are pairwise distinct *)

Lemma NoDup_app_disj {A} (l1 l2 : list A) (a : A) :
  NoDup (l1 ++ l2) -> In a l1 -> ~ In a l2.
Proof.
  induction l1 as [|x l1 IH]; simpl; [tauto|].
  intros Hnd [<-|Ha] Hin; inversion Hnd as [|? ? Hx Hnd']; subst.
  - apply Hx, in_or_app. right. exact Hin.
  - exact (IH Hnd' Ha Hin).
Qed.

Lemma all_indices_cons (k : string) (v : dict nat) (m : dict (dict nat)) :
  all_indices ((k, v) :: m) = map snd v ++ all_indices m.
Proof. reflexivity. Qed.

Lemma dict_set_indices (k : string) (v : dict nat) (m : dict (dict nat)) :
  NoDup (all_indices m) -> NoDup (map snd v) ->
  (forall i, In i (map snd v) -> ~ In i (all_indices m)) ->
  NoDup (all_indices (dict_set k v m)) /\
  (forall i, In i (all_indices (dict_set k v m)) ->
             In i (all_indices m) \/ In i (map snd v)).
Proof.
  induction m as [|[k0 v0] m IH]; intros Hm Hv Hd.
  - simpl. rewrite app_nil_r. split; [exact Hv|]. auto.
  - cbn [dict_set]. rewrite all_indices_cons in Hm.
    destruct (String.eqb k k0).
    + rewrite all_indices_cons. split.
      * apply NoDup_app; [exact Hv|apply (NoDup_app_remove_l _ _ Hm)|].
        intros a Ha Hin. apply (Hd a Ha). rewrite all_indices_cons.
        apply in_or_app. right. exact Hin.
      * intros i Hi. apply in_app_or in Hi as [Hi|Hi]; [auto|].
        left. rewrite all_indices_cons. apply in_or_app. auto.
    + rewrite all_indices_cons.
      destruct (IH (NoDup_app_remove_l _ _ Hm) Hv) as [Hn Hi].
      { intros i Hiv Hin. apply (Hd i Hiv). rewrite all_indices_cons.
        apply in_or_app. auto. }
      split.
      * apply NoDup_app; [apply (NoDup_app_remove_r _ _ Hm)|exact Hn|].
        intros a Ha Hin. destruct (Hi a Hin) as [H|H].
        -- exact (NoDup_app_disj _ _ _ Hm Ha H).
        -- apply (Hd a H). rewrite all_indices_cons. apply in_or_app. auto.
      * intros i Hin. rewrite all_indices_cons.
        apply in_app_or in Hin as [H|H].
        -- left. apply in_or_app. auto.
        -- destruct (Hi i H); [left; apply in_or_app|]; auto.
Qed.

Lemma build_loop_nodup (chans ord : list string) (cur : nat) (m : dict (dict nat)) :
  NoDup (all_indices m) -> (forall i, In i (all_indices m) -> i < cur) ->
  NoDup (all_indices (build_loop chans ord cur m)).
Proof.
  revert cur m. induction ord as [|jn ord IH]; intros cur m Hm Hlt;
    cbn [build_loop]; [exact Hm|].
  destruct (contains "_End" jn); [apply IH; assumption|].
  destruct (match_channels_shape chans channel_kinds cur [])
    as (new & Hmc & _ & Hseq & _); [reflexivity|apply channel_kinds_nodup|].
  rewrite Hmc. simpl app.
  assert (Hv : NoDup (map snd new)) by (rewrite Hseq; apply seq_NoDup).
  assert (Hd : forall i, In i (map snd new) -> ~ In i (all_indices m)).
  { intros i Hi Hin. rewrite Hseq, in_seq in Hi. specialize (Hlt i Hin). lia. }
  destruct (dict_set_indices jn new m Hm Hv Hd) as [Hn Hi].
  apply IH; [exact Hn|].
  intros i Hin. destruct (Hi i Hin) as [H|H].
  - specialize (Hlt i H). lia.
  - rewrite Hseq, in_seq in H. lia.
Qed.

Lemma build_joint_channel_map_nodup (chans ord : list string) :
  NoDup (all_indices (build_joint_channel_map chans ord)).
Proof.
  apply build_loop_nodup; [constructor|contradiction].
Qed.

(* ------------------------------------------------------------------ *)
(** ** Row updates of [set_new_root] *)

Lemma list_getitem_ok {A} (l : list A) (i : nat) (d : A) :
  i < length l -> list_getitem l i = Ok (nth i l d).
Proof.
  intros H. unfold list_getitem. rewrite (nth_error_nth' l d H). reflexivity.
Qed.

Lemma list_set_length {A} (l : list A) (i : nat) (x : A) :
  length (list_set l i x) = length l.
Proof.
  revert i. induction l as [|a l IH]; intros [|i]; simpl; auto.
Qed.

Lemma nth_list_set {A} (l : list A) (i c : nat) (x d : A) :
  i < length l -> nth c (list_set l i x) d = if Nat.eqb c i then x else nth c l d.
Proof.
  revert i c. induction l as [|a l IH]; intros i c Hi; simpl in Hi; [lia|].
  destruct i as [|i], c as [|c]; simpl; auto.
  apply IH. lia.
Qed.

Lemma sub_axis_ok (sub : dict nat) (a : string) (v : R) (row : list R) (i : nat) :
  dict_get a sub = Some i -> i < length row ->
  sub_axis sub a v row = Ok (list_set row i (nth i row 0 - v)%R).
Proof.
  intros Ha Hi. unfold sub_axis, dict_getitem. rewrite Ha. cbn [bind].
  rewrite (list_getitem_ok _ _ 0%R Hi). cbn [bind].
  unfold list_setitem. apply Nat.ltb_lt in Hi. rewrite Hi. reflexivity.
Qed.

Lemma sub_joint_ok (sub : dict nat) (p : R * R * R) (row : list R) :
  (forall a, In a position_kinds ->
     exists i, dict_get a sub = Some i /\ i < length row) ->
  exists row', sub_joint sub p row = Ok row' /\ length row' = length row /\
    forall c, nth c row' 0%R = (nth c row 0 - axis_hit sub p c)%R.
Proof.
  intros H.
  destruct (H "Xposition") as (ix & Hx & Hxl); [simpl; auto|].
  destruct (H "Yposition") as (iy & Hy & Hyl); [simpl; auto|].
  destruct (H "Zposition") as (iz & Hz & Hzl); [simpl; auto|].
  destruct p as [[x y] z]. unfold sub_joint.
  rewrite (sub_axis_ok _ _ _ _ ix Hx Hxl). cbn [bind].
  rewrite (sub_axis_ok _ _ _ _ iy Hy) by (rewrite list_set_length; exact Hyl).
  cbn [bind].
  rewrite (sub_axis_ok _ _ _ _ iz Hz) by (rewrite !list_set_length; exact Hzl).
  eexists. split; [reflexivity|]. split; [rewrite !list_set_length; reflexivity|].
  intros c. unfold axis_hit. simpl fold_right. rewrite Hx, Hy, Hz.
  unfold comp. simpl String.eqb. cbv iota.
  rewrite !nth_list_set by (rewrite ?list_set_length; assumption).
  repeat match goal with
         | |- context [Nat.eqb ?a ?b] => destruct (Nat.eqb_spec a b)
         end; subst; try congruence; lra.
Qed.

Lemma sub_all_ok (cmap : dict (dict nat)) (p : R * R * R) (row : list R) :
  (forall e a, In e cmap -> In a position_kinds ->
     exists i, dict_get a (snd e) = Some i /\ i < length row) ->
  exists row', sub_all cmap p row = Ok row' /\ length row' = length row /\
    forall c, nth c row' 0%R = (nth c row 0 - hit cmap p c)%R.
Proof.
  revert row. induction cmap as [|[k sub] cmap IH]; intros row H; simpl.
  - exists row. repeat split. intros c. lra.
  - destruct (sub_joint_ok sub p row) as (r1 & H1 & Hl1 & Hn1).
    { intros a Ha. exact (H (k, sub) a (or_introl eq_refl) Ha). }
    rewrite H1. cbn [bind].
    destruct (IH r1) as (r2 & H2 & Hl2 & Hn2).
    { intros e a He Ha. rewrite Hl1. exact (H e a (or_intror He) Ha). }
    exists r2. split; [exact H2|]. split; [congruence|].
    intros c. rewrite Hn2, Hn1. lra.
Qed.

Lemma dict_get_snd_in {V} (k : string) (v : V) (d : dict V) :
  dict_get k d = Some v -> In v (map snd d).
Proof.
  intros H. apply (in_map snd _ (k, v)), dict_get_in, H.
Qed.

Lemma dict_get_inj (d : dict nat) (a b : string) (c : nat) :
  NoDup (map snd d) -> dict_get a d = Some c -> dict_get b d = Some c -> a = b.
Proof.
  induction d as [|[k v] d IH]; simpl; [discriminate|].
  intros Hnd Ha Hb. inversion Hnd as [|? ? Hv Hnd']; subst.
  destruct (String.eqb_spec a k) as [->|Hak], (String.eqb_spec b k) as [->|Hbk];
    auto.
  - injection Ha as <-. exfalso. exact (Hv (dict_get_snd_in _ _ _ Hb)).
  - injection Hb as <-. exfalso. exact (Hv (dict_get_snd_in _ _ _ Ha)).
Qed.

Lemma axis_hit_zero (sub : dict nat) (p : R * R * R) (c : nat) :
  (forall a, In a position_kinds -> dict_get a sub <> Some c) ->
  axis_hit sub p c = 0%R.
Proof.
  intros H. unfold axis_hit. simpl fold_right.
  repeat match goal with
         | |- context [dict_get ?a sub] =>
             let E := fresh in let i := fresh "i" in
             destruct (dict_get a sub) as [i|] eqn:E;
             [destruct (Nat.eqb_spec i c); [subst; exfalso; apply (H a); simpl; auto|]|]
         end.
  all: lra.
Qed.

Lemma axis_hit_single (sub : dict nat) (p : R * R * R) (a : string) (c : nat) :
  NoDup (map snd sub) -> In a position_kinds -> dict_get a sub = Some c ->
  axis_hit sub p c = comp p a.
Proof.
  intros Hnd Ha Hc. unfold axis_hit. simpl fold_right.
  assert (Hb : forall b, dict_get b sub = Some c -> b = a)
    by (intros b Hb; exact (dict_get_inj sub b a c Hnd Hb Hc)).
  destruct p as [[x y] z].
  simpl in Ha. destruct Ha as [<-|[<-|[<-|[]]]]; rewrite Hc, Nat.eqb_refl;
  unfold comp; simpl String.eqb; cbv iota;
  repeat match goal with
         | |- context [dict_get ?b sub] =>
             let E := fresh in let i := fresh "i" in
             destruct (dict_get b sub) as [i|] eqn:E;
             [destruct (Nat.eqb_spec i c);
              [subst; apply Hb in E; discriminate|]|]
         end; lra.
Qed.

Lemma hit_zero (cmap : dict (dict nat)) (p : R * R * R) (c : nat) :
  (forall e a, In e cmap -> In a position_kinds -> dict_get a (snd e) <> Some c) ->
  hit cmap p c = 0%R.
Proof.
  induction cmap as [|[k sub] cmap IH]; intros H; simpl; [reflexivity|].
  rewrite axis_hit_zero, IH.
  - lra.
  - intros e a He Ha. apply (H e a (or_intror He) Ha).
  - intros a Ha. apply (H (k, sub) a (or_introl eq_refl) Ha).
Qed.

Lemma hit_single (cmap : dict (dict nat)) (p : R * R * R) (jn : string)
    (sub : dict nat) (a : string) (c : nat) :
  NoDup (all_indices cmap) -> In (jn, sub) cmap -> In a position_kinds ->
  dict_get a sub = Some c -> hit cmap p c = comp p a.
Proof.
  induction cmap as [|[k sub'] cmap IH]; intros Hnd Hin Ha Hc; [contradiction|].
  rewrite all_indices_cons in Hnd. simpl.
  destruct Hin as [Heq|Hin].
  - injection Heq as -> ->.
    rewrite (axis_hit_single sub p a c (NoDup_app_remove_r _ _ Hnd) Ha Hc).
    rewrite hit_zero; [lra|].
    intros e b He Hb Hbc.
    apply (NoDup_app_disj _ _ c Hnd (dict_get_snd_in _ _ _ Hc)).
    unfold all_indices. apply in_flat_map. exists e.
    split; [exact He|exact (dict_get_snd_in _ _ _ Hbc)].
  - rewrite (IH (NoDup_app_remove_l _ _ Hnd) Hin Ha Hc).
    rewrite axis_hit_zero; [lra|].
    intros b Hb Hbc.
    apply (NoDup_app_disj _ _ c Hnd (dict_get_snd_in _ _ _ Hbc)).
    unfold all_indices. apply in_flat_map. exists (jn, sub).
    split; [exact Hin|exact (dict_get_snd_in _ _ _ Hc)].
Qed.

Lemma mapM_ok {A B} (f : A -> PyResult B) (xs : list A) :
  (forall x, In x xs -> exists y, f x = Ok y) ->
  exists ys, mapM f xs = Ok ys /\ Forall2 (fun x y => f x = Ok y) xs ys.
Proof.
  induction xs as [|x xs IH]; intros H; simpl.
  - exists []. split; [reflexivity|constructor].
  - destruct (H x (or_introl eq_refl)) as [y Hy]. rewrite Hy. cbn [bind].
    destruct IH as (ys & Hys & Hf); [intros x' Hx'; apply H; right; exact Hx'|].
    rewrite Hys. cbn [bind]. exists (y :: ys). split; [reflexivity|].
    constructor; assumption.
Qed.

Lemma Forall2_nth_error_both {A B} (P : A -> B -> Prop) l l' n a b :
  Forall2 P l l' -> nth_error l n = Some a -> nth_error l' n = Some b -> P a b.
Proof.
  intros H. revert n. induction H as [|x y l l' Hxy H IH]; intros [|n];
    simpl; try discriminate.
  - congruence.
  - apply IH.
Qed.

Lemma positions_mapped_spec (cmap : dict (dict nat)) (rows : list (list R)) e a :
  positions_mapped cmap rows = true -> In e cmap -> In a position_kinds ->
  exists i, dict_get a (snd e) = Some i /\ forall row, In row rows -> i < length row.
Proof.
  unfold positions_mapped. rewrite forallb_forall. intros H He Ha.
  specialize (H e He). rewrite forallb_forall in H. specialize (H a Ha).
  destruct (dict_get a (snd e)) as [i|]; [|discriminate].
  exists i. split; [reflexivity|]. intros row Hr.
  rewrite forallb_forall in H. apply Nat.ltb_lt, H, Hr.
Qed.

Lemma shift_frame_ok (cmap : dict (dict nat)) (subX : dict nat) (row : list R) :
  (forall e a, In e cmap -> In a position_kinds ->
     exists i, dict_get a (snd e) = Some i /\ i < length row) ->
  (forall a, In a position_kinds ->
     exists i, dict_get a subX = Some i /\ i < length row) ->
  exists ix iy iz row',
    dict_get "Xposition" subX = Some ix /\ dict_get "Yposition" subX = Some iy /\
    dict_get "Zposition" subX = Some iz /\
    shift_frame cmap subX row = Ok row' /\ length row' = length row /\
    forall c, nth c row' 0%R =
      (nth c row 0 - hit cmap (nth ix row 0, nth iy row 0, nth iz row 0) c)%R.
Proof.
  intros Hall HX.
  destruct (HX "Xposition") as (ix & Hx & Hxl); [simpl; auto|].
  destruct (HX "Yposition") as (iy & Hy & Hyl); [simpl; auto|].
  destruct (HX "Zposition") as (iz & Hz & Hzl); [simpl; auto|].
  destruct (sub_all_ok cmap (nth ix row 0%R, nth iy row 0%R, nth iz row 0%R) row Hall)
    as (row' & Hs & Hl & Hn).
  exists ix, iy, iz, row'. repeat split; auto.
  unfold shift_frame, dict_getitem. rewrite Hx, Hy, Hz. cbn [bind].
  rewrite (list_getitem_ok _ _ 0%R Hxl), (list_getitem_ok _ _ 0%R Hyl),
          (list_getitem_ok _ _ 0%R Hzl).
  exact Hs.
Qed.

Lemma build_entry_columns (chans ord : list string) e a c :
  In e (build_joint_channel_map chans ord) -> dict_get a (snd e) = Some c ->
  nth_error chans c = Some a.
Proof.
  intros He Hc. destruct e as [k sub].
  destruct (build_loop_shape chans ord 0 [] ltac:(contradiction) k sub He)
    as (_ & _ & Hf).
  rewrite Forall_forall in Hf. exact (Hf (a, c) (dict_get_in _ _ _ Hc)).
Qed.

Lemma comp_position (ix iy iz : nat) (row : list R) (subX : dict nat) a iA :
  dict_get "Xposition" subX = Some ix -> dict_get "Yposition" subX = Some iy ->
  dict_get "Zposition" subX = Some iz -> In a position_kinds ->
  dict_get a subX = Some iA ->
  comp (nth ix row 0, nth iy row 0, nth iz row 0)%R a = nth iA row 0%R.
Proof.
  intros Hx Hy Hz Ha HA. simpl in Ha.
  destruct Ha as [<-|[<-|[<-|[]]]]; unfold comp; simpl String.eqb; cbv iota;
  congruence.
Qed.

Lemma find_existsb {A} (f : A -> bool) (l : list A) :
  existsb f l = true -> exists x, find f l = Some x.
Proof.
  intros H. destruct (find f l) as [x|] eqn:E; [exists x; reflexivity|].
  apply existsb_exists in H as (x & Hx & Hf).
  rewrite (find_none f l E x Hx) in Hf. discriminate.
Qed.

(** C4: on a skeleton built by the constructor, re-rooting at a joint [X]
    of the hierarchy other than the current root raises [KeyError] when [X]
    has no entry in the channel map (an end site, for instance).  When [X]
    and the root have an entry (and every map entry has its three position
    channels inside every frame), re-rooting succeeds; [X] becomes the root, the old root gets [X] as parent and [X]
    loses its parent, names and offsets are kept, and in every frame each
    mapped position column of kind [a] is decreased by the frame's value of
    [X]'s [a] column (so [X]'s own position becomes zero), while a column
    whose declared channel is not a position kind is left unchanged. *)
Theorem set_new_root_shifts_positions (X : string) (s : skeleton) :
  String.eqb X (root_joint s) = false ->
  existsb (fun j => String.eqb (name j) X) (hierarchy s) = true ->
  joint_channel_map s = build_joint_channel_map (channels s) (order s) ->
  (dict_get X (joint_channel_map s) = None -> set_new_root X s = Raise KeyError) /\
  (dict_get (root_joint s) (joint_channel_map s) <> None ->
  dict_get X (joint_channel_map s) <> None ->
  positions_mapped (joint_channel_map s) (motion s) = true ->
  exists s', set_new_root X s = Ok (tt, s') /\
    root_joint s' = X /\
    map name (hierarchy s') = map name (hierarchy s) /\
    map offset (hierarchy s') = map offset (hierarchy s) /\
    map parent (hierarchy s') =
      map (fun j => if String.eqb (name j) (root_joint s) then Some X
                    else if String.eqb (name j) X then None else parent j)
          (hierarchy s) /\
    length (motion s') = length (motion s) /\
    forall f row row', nth_error (motion s) f = Some row ->
      nth_error (motion s') f = Some row' ->
      length row' = length row /\
      (forall subX a iX, dict_get X (joint_channel_map s) = Some subX ->
         In a position_kinds -> dict_get a subX = Some iX ->
         nth iX row' 0%R = 0%R) /\
      (forall jn sub a c subX iX, dict_get jn (joint_channel_map s) = Some sub ->
         In a position_kinds -> dict_get a sub = Some c ->
         dict_get X (joint_channel_map s) = Some subX -> dict_get a subX = Some iX ->
         nth c row' 0%R = (nth c row 0 - nth iX row 0)%R) /\
      (forall c, ~ In (nth_error (channels s) c) (map Some position_kinds) ->
         nth c row' 0%R = nth c row 0%R)).
Proof.
  intros Hne Hex Hb. split.
  { intros HX. destruct (find_existsb _ _ Hex) as [jX HjX].
    unfold set_new_root. rewrite Hne, HjX. unfold dict_getitem. rewrite HX.
    destruct (dict_get (root_joint s) (joint_channel_map s)); reflexivity. }
  intros Hroot HXk Hpm.
  destruct (dict_get (root_joint s) (joint_channel_map s)) as [subR|] eqn:ER;
    [|contradiction].
  destruct (dict_get X (joint_channel_map s)) as [subX|] eqn:EX; [|contradiction].
  destruct (find_existsb _ _ Hex) as [jX HjX].
  assert (Hall : forall row, In row (motion s) ->
    forall e a, In e (joint_channel_map s) -> In a position_kinds ->
      exists i, dict_get a (snd e) = Some i /\ i < length row).
  { intros row Hr e a He Ha.
    destruct (positions_mapped_spec _ _ e a Hpm He Ha) as (i & Hi & Hl).
    exists i. split; [exact Hi|apply Hl, Hr]. }
  assert (HallX : forall row, In row (motion s) ->
    forall a, In a position_kinds -> exists i, dict_get a subX = Some i /\ i < length row).
  { intros row Hr a Ha.
    exact (Hall row Hr (X, subX) a (dict_get_in _ _ _ EX) Ha). }
  destruct (mapM_ok (shift_frame (joint_channel_map s) subX) (motion s)) as (rows' & Hm & Hf2).
  { intros row Hr.
    destruct (shift_frame_ok (joint_channel_map s) subX row (Hall row Hr) (HallX row Hr))
      as (ix & iy & iz & row' & _ & _ & _ & Hs & _).
    exists row'. exact Hs. }
  unfold set_new_root. rewrite Hne, HjX. unfold dict_getitem.
  rewrite ER, EX. cbn [bind]. rewrite Hm. cbn [bind].
  eexists. split; [reflexivity|]. cbn [root_joint hierarchy motion channels joint_channel_map].
  split; [reflexivity|].
  split; [rewrite map_map; apply map_ext; intros j; unfold reparent;
          destruct (String.eqb (name j) (root_joint s)), (String.eqb (name j) X);
          reflexivity|].
  split; [rewrite map_map; apply map_ext; intros j; unfold reparent;
          destruct (String.eqb (name j) (root_joint s)), (String.eqb (name j) X);
          reflexivity|].
  split; [rewrite map_map; apply map_ext; intros j; unfold reparent;
          destruct (String.eqb (name j) (root_joint s)), (String.eqb (name j) X);
          reflexivity|].
  split; [symmetry; exact (Forall2_length Hf2)|].
  intros f row row' Hrow Hrow'.
  pose proof (Forall2_nth_error_both _ _ _ _ _ _ Hf2 Hrow Hrow') as Hs.
  assert (Hr : In row (motion s)) by (eapply nth_error_In; exact Hrow).
  destruct (shift_frame_ok (joint_channel_map s) subX row (Hall row Hr) (HallX row Hr))
    as (ix & iy & iz & row'' & Hx & Hy & Hz & Hs' & Hl & Hn).
  rewrite Hs in Hs'. injection Hs' as <-.
  assert (Hnd : NoDup (all_indices (joint_channel_map s))).
  { rewrite Hb. apply build_joint_channel_map_nodup. }
  assert (Hsub : forall jn sub a c iA, dict_get jn (joint_channel_map s) = Some sub ->
      In a position_kinds -> dict_get a sub = Some c -> dict_get a subX = Some iA ->
      nth c row' 0%R = (nth c row 0 - nth iA row 0)%R).
  { intros jn sub a c iA Hj Ha Hc HA. rewrite Hn.
    rewrite (hit_single _ _ jn sub a c Hnd (dict_get_in _ _ _ Hj) Ha Hc).
    rewrite (comp_position ix iy iz row subX a iA Hx Hy Hz Ha HA). reflexivity. }
  split; [exact Hl|].
  split.
  { intros subX' a iX HX' Ha HA. injection HX' as <-.
    rewrite (Hsub X subX a iX iX EX Ha HA HA). lra. }
  split.
  { intros jn sub a c subX' iX Hj Ha Hc HX' HA. injection HX' as <-.
    exact (Hsub jn sub a c iX Hj Ha Hc HA). }
  intros c Hc. rewrite Hn, hit_zero; [lra|].
  intros e a He Ha Hac. apply Hc.
  rewrite Hb in He.
  rewrite (build_entry_columns (channels s) (order s) e a c He Hac).
  apply in_map, Ha.
Qed.

Lemma set_new_root_shifts_positions_witness :
  (exists s', set_new_root "Spine" canonical_skeleton = Ok (tt, s') /\
    root_joint s' = "Spine" /\
    length (motion s') = length (motion canonical_skeleton)) /\
  set_new_root "Spine_End" canonical_skeleton = Raise KeyError.
Proof.
  split.
  - destruct (set_new_root_shifts_positions "Spine" canonical_skeleton)
      as [_ H]; [vm_compute; reflexivity|vm_compute; reflexivity|vm_compute; reflexivity|].
    destruct H as (s' & H1 & H2 & _ & _ & _ & H6 & _).
    + vm_compute. discriminate.
    + vm_compute. discriminate.
    + vm_compute. reflexivity.
    + exists s'. split; [exact H1|split; [exact H2|exact H6]].
  - apply (set_new_root_shifts_positions "Spine_End" canonical_skeleton);
      vm_compute; reflexivity.
Defined.

(** C4, counterexample: the end site [Spine_End] is a joint of the hierarchy
    and not the root, but it has no entry in the channel map, so re-rooting
    at it raises [KeyError] instead of shifting the frames. *)
Lemma set_new_root_end_site_key_error :
  existsb (fun j => String.eqb (name j) "Spine_End") (hierarchy canonical_skeleton) = true /\
  root_joint canonical_skeleton = "Hips" /\
  set_new_root "Spine_End" canonical_skeleton = Raise KeyError.
Proof.
  vm_compute. split; [reflexivity|split; reflexivity].
Qed.

Lemma np_getitem2_ok (rows : list (list R)) (f i : nat) (row : list R) :
  nth_error rows f = Some row -> i < length row ->
  np_getitem2 rows f (Z.of_nat i) = Ok (nth i row 0%R).
Proof.
  intros Hf Hi. unfold np_getitem2, list_getitem. rewrite Hf. cbn [bind].
  assert (E0 : (Z.of_nat i <? 0)%Z = false) by (apply Z.ltb_ge; lia).
  cbv zeta. rewrite E0. rewrite E0. rewrite Nat2Z.id.
  destruct (nth_error row i) as [x|] eqn:E.
  - rewrite (nth_error_nth _ _ _ E). reflexivity.
  - apply nth_error_None in E. lia.
Qed.

(** C7: the accessors [get_joint_position] and [get_joint_rotation] return
    [None] (they do not fail) for a joint name missing from the channel map
    or a frame outside the table; whenever they return, the skeleton is the
    one they were given; and [get_joint_rotation] on a mapped joint and an
    in-range frame whose three rotation columns lie in the row returns the
    row's values at those columns. *)
Theorem accessors_none_and_no_mutation (s : skeleton) (jn : string) (frame : Z) :
  (dict_get jn (joint_channel_map s) = None ->
     get_joint_position jn frame s = Ok (None, s) /\
     get_joint_rotation jn frame s = Ok (None, s)) /\
  ((frame < 0 \/ Z.of_nat (length (sk_world_motion s)) <= frame)%Z ->
     get_joint_position jn frame s = Ok (None, s)) /\
  ((frame < 0 \/ Z.of_nat (length (motion s)) <= frame)%Z ->
     get_joint_rotation jn frame s = Ok (None, s)) /\
  (forall r s', get_joint_position jn frame s = Ok (r, s') -> s' = s) /\
  (forall r s', get_joint_rotation jn frame s = Ok (r, s') -> s' = s) /\
  (forall chans row ix iy iz, dict_get jn (joint_channel_map s) = Some chans ->
     (0 <= frame)%Z -> nth_error (motion s) (Z.to_nat frame) = Some row ->
     dict_get "Xrotation" chans = Some ix -> dict_get "Yrotation" chans = Some iy ->
     dict_get "Zrotation" chans = Some iz ->
     ix < length row -> iy < length row -> iz < length row ->
     get_joint_rotation jn frame s =
       Ok (Some [nth ix row 0%R; nth iy row 0%R; nth iz row 0%R], s)).
Proof.
  unfold get_joint_position, get_joint_rotation.
  split; [intros H; rewrite H; split; reflexivity|].
  split.
  { intros Hf. destruct (dict_get jn (joint_channel_map s)); [|reflexivity].
    replace ((frame <? 0)%Z || (Z.of_nat (length (sk_world_motion s)) <=? frame)%Z)
      with true by (symmetry; apply orb_true_iff;
                    destruct Hf; [left; apply Z.ltb_lt | right; apply Z.leb_le]; lia).
    reflexivity. }
  split.
  { intros Hf. destruct (dict_get jn (joint_channel_map s)); [|reflexivity].
    replace ((frame <? 0)%Z || (Z.of_nat (length (motion s)) <=? frame)%Z)
      with true by (symmetry; apply orb_true_iff;
                    destruct Hf; [left; apply Z.ltb_lt | right; apply Z.leb_le]; lia).
    reflexivity. }
  split.
  { intros r s'. destruct (dict_get jn (joint_channel_map s)); [|congruence].
    destruct (_ || _)%bool; congruence. }
  split.
  { intros r s'. destruct (dict_get jn (joint_channel_map s)) as [chans|]; [|congruence].
    destruct (_ || _)%bool; [congruence|].
    destruct (np_getitem2 _ _ (get_index "Xrotation" chans)); cbn [bind]; [|discriminate].
    destruct (np_getitem2 _ _ (get_index "Yrotation" chans)); cbn [bind]; [|discriminate].
    destruct (np_getitem2 _ _ (get_index "Zrotation" chans)); cbn [bind]; [|discriminate].
    congruence. }
  intros chans row ix iy iz Hj H0 Hrow Hx Hy Hz Hix Hiy Hiz. rewrite Hj.
  assert (Hlt : Z.to_nat frame < length (motion s)).
  { apply nth_error_Some. rewrite Hrow. discriminate. }
  replace ((frame <? 0)%Z || (Z.of_nat (length (motion s)) <=? frame)%Z) with false
    by (symmetry; apply orb_false_iff; split; [apply Z.ltb_ge | apply Z.leb_gt]; lia).
  unfold get_index. rewrite Hx, Hy, Hz.
  rewrite (np_getitem2_ok _ _ _ _ Hrow Hix), (np_getitem2_ok _ _ _ _ Hrow Hiy),
          (np_getitem2_ok _ _ _ _ Hrow Hiz).
  reflexivity.
Qed.

Lemma accessors_none_and_no_mutation_witness :
  get_joint_rotation "Nope" 0 canonical_skeleton = Ok (None, canonical_skeleton) /\
  get_joint_position "Hips" 5 canonical_skeleton = Ok (None, canonical_skeleton) /\
  get_joint_rotation "Hips" (-1) canonical_skeleton = Ok (None, canonical_skeleton) /\
  get_joint_rotation "Spine" 0 canonical_skeleton =
    Ok (Some [50; 40; 60]%R, canonical_skeleton).
Proof.
  destruct (accessors_none_and_no_mutation canonical_skeleton "Nope" 0)
    as (Hn & _).
  destruct (accessors_none_and_no_mutation canonical_skeleton "Hips" 5)
    as (_ & Hp & _).
  destruct (accessors_none_and_no_mutation canonical_skeleton "Hips" (-1))
    as (_ & _ & Hr & _).
  destruct (accessors_none_and_no_mutation canonical_skeleton "Spine" 0)
    as (_ & _ & _ & _ & _ & Hv).
  split; [apply (proj2 (Hn ltac:(vm_compute; reflexivity)))|].
  split; [apply Hp; right; vm_compute; discriminate|].
  split; [apply Hr; left; vm_compute; reflexivity|].
  rewrite (Hv [("Xposition", 6); ("Yposition", 7); ("Zposition", 8);
               ("Yrotation", 9); ("Xrotation", 10); ("Zrotation", 11)]
              [1; 2; 3; 10; 20; 30; 4; 5; 6; 40; 50; 60]%R 10 9 11);
    [vm_compute; reflexivity|..].
  all: first [vm_compute; reflexivity | simpl; lia].
Defined.

(** C7, counterexample: on a skeleton with one frame, asking the position of
    the root at frame 0 (a known joint, an in-range frame) fails with
    [TypeError] (the per-frame world table is a list, indexed with a pair),
    while an unknown joint name gets [None] rather than an error. *)
Lemma get_joint_position_in_range_type_error :
  length (sk_world_motion canonical_skeleton) = 1 /\
  dict_get "Hips" (joint_channel_map canonical_skeleton) <> None /\
  get_joint_position "Hips" 0 canonical_skeleton = Raise TypeError /\
  get_joint_position "Nope" 0 canonical_skeleton = Ok (None, canonical_skeleton).
Proof.
  vm_compute. split; [reflexivity|]. split; [discriminate|]. split; reflexivity.
Qed.

Lemma build_joint_channel_map_fixed_order_witness :
  dict_get "Hips" (build_joint_channel_map sample_channels ["Hips"; "Spine"]) =
    Some [("Xposition", 0); ("Yposition", 1); ("Zposition", 2); ("Zrotation", 3)] /\
  subseq ["Xposition"; "Yposition"; "Zposition"; "Zrotation"] channel_kinds /\
  (forall k i, dict_get k [("Xposition", 0); ("Yposition", 1); ("Zposition", 2);
                          ("Zrotation", 3)] = Some i ->
     nth_error sample_channels i = Some k).
Proof.
  assert (H : dict_get "Hips" (build_joint_channel_map sample_channels ["Hips"; "Spine"]) =
    Some [("Xposition", 0); ("Yposition", 1); ("Zposition", 2); ("Zrotation", 3)])
    by (vm_compute; reflexivity).
  destruct (proj1 (proj2 (build_joint_channel_map_fixed_order sample_channels ["Hips"; "Spine"]))
              _ _ H) as (Hs & _ & Hf).
  split; [exact H|]. split; [exact Hs|exact Hf].
Defined.

(* ------------------------------------------------------------------ *)
(** ** Shape of the parsed hierarchy *)

Lemma subseq_snoc_r {A} (l1 l2 : list A) (x : A) :
  subseq l1 l2 -> subseq l1 (l2 ++ [x]).
Proof. induction 1; simpl; constructor; assumption. Qed.

Lemma subseq_snoc {A} (l1 l2 : list A) (x : A) :
  subseq l1 l2 -> subseq (l1 ++ [x]) (l2 ++ [x]).
Proof.
  induction 1 as [l|y l1 l2 _ IH|y l1 l2 _ IH]; simpl.
  - induction l as [|z l IHl]; simpl; constructor; [constructor|exact IHl].
  - constructor. exact IH.
  - constructor. exact IH.
Qed.

Lemma in_removelast {A} (l : list A) (x : A) : In x (removelast l) -> In x l.
Proof.
  induction l as [|a l IH]; simpl; [tauto|].
  destruct l as [|b l]; [contradiction|]. intros [->|H]; [left; reflexivity|].
  right. apply IH, H.
Qed.

Lemma list_last_in {A} (l : list A) (a : A) : list_last l = Ok a -> In a l.
Proof.
  unfold list_last. destruct (rev l) as [|b r] eqn:E; [discriminate|].
  injection 1 as <-. apply in_rev. rewrite E. left. reflexivity.
Qed.

Lemma set_last_offset_shape (hier hier' : list joint) (vals : list R) :
  set_last_offset hier vals = Ok hier' ->
  exists pre jl, hier = pre ++ [jl] /\
    hier' = pre ++ [mkJoint (name jl) (parent jl) (Some vals)].
Proof.
  unfold set_last_offset. destruct (rev hier) as [|jl rest] eqn:E; [discriminate|].
  injection 1 as <-. exists (rev rest), jl. split; [|reflexivity].
  rewrite <- (rev_involutive hier), E. reflexivity.
Qed.

Lemma parents_earlier_snoc (hier : list joint) (j : joint) :
  parents_earlier hier ->
  (forall p, parent j = Some p -> In p (map name hier)) ->
  parents_earlier (hier ++ [j]).
Proof.
  intros H Hj i j' p Hi Hp.
  destruct (Nat.lt_ge_cases i (length hier)) as [Hlt|Hge].
  - rewrite nth_error_app1 in Hi by exact Hlt.
    rewrite firstn_app, (proj2 (Nat.sub_0_le i (length hier))) by lia.
    rewrite app_nil_r. exact (H i j' p Hi Hp).
  - rewrite nth_error_app2 in Hi by exact Hge.
    destruct (i - length hier) as [|k] eqn:Ek; [|destruct k; discriminate].
    injection Hi as <-. replace i with (length hier) by lia.
    rewrite firstn_app, Nat.sub_diag, firstn_all. simpl. rewrite app_nil_r.
    exact (Hj p Hp).
Qed.

Lemma parse_inv_offset (pre : list joint) (jl : joint) (vals : list R)
    (stk ord : list string) :
  parents_earlier (pre ++ [jl]) ->
  Forall (fun n => In n (map name (pre ++ [jl]))) stk ->
  subseq ord (map name (pre ++ [jl])) ->
  end_sites_named (pre ++ [jl]) ord ->
  let jl' := mkJoint (name jl) (parent jl) (Some vals) in
  parents_earlier (pre ++ [jl']) /\
  Forall (fun n => In n (map name (pre ++ [jl']))) stk /\
  subseq ord (map name (pre ++ [jl'])) /\
  end_sites_named (pre ++ [jl']) ord.
Proof.
  intros Hpe Hst Hsub Hend jl'.
  assert (Hn : map name (pre ++ [jl']) = map name (pre ++ [jl]))
    by (rewrite !map_app; reflexivity).
  rewrite Hn. split; [|split; [exact Hst|split; [exact Hsub|]]].
  - intros i j p Hi Hp.
    destruct (Nat.lt_ge_cases i (length pre)) as [Hlt|Hge].
    + rewrite nth_error_app1 in Hi by exact Hlt.
      assert (Hi' : nth_error (pre ++ [jl]) i = Some j)
        by (rewrite nth_error_app1 by exact Hlt; exact Hi).
      rewrite <- firstn_map, Hn, firstn_map. exact (Hpe i j p Hi' Hp).
    + rewrite nth_error_app2 in Hi by exact Hge.
      destruct (i - length pre) as [|k] eqn:Ek; [|destruct k; discriminate].
      injection Hi as <-.
      assert (Hi' : nth_error (pre ++ [jl]) i = Some jl)
        by (rewrite nth_error_app2 by exact Hge; rewrite Ek; reflexivity).
      rewrite <- firstn_map, Hn, firstn_map. exact (Hpe i jl p Hi' Hp).
  - intros j Hj Hno. apply in_app_or in Hj as [Hj|[<-|[]]].
    + apply Hend; [apply in_or_app; left; exact Hj|exact Hno].
    + apply (Hend jl); [apply in_or_app; right; left; reflexivity|exact Hno].
Qed.

Lemma process_line_inv (st st' : parse_state) (line : string) :
  parse_inv st -> process_line st line = Ok st' -> parse_inv st'.
Proof.
  intros (Hpe & Hst & Hsub & Hend). unfold process_line.
  destruct (String.eqb line ""); [injection 1 as <-; repeat split; assumption|].
  set (l := strip line).
  destruct (p_in_motion st); cbn [negb].
  - destruct (startswith l "Frames:" || startswith l "Frame Time:");
      [injection 1 as <-; repeat split; assumption|].
    destruct (floats (split l)); cbn [bind]; [|discriminate].
    injection 1 as <-. repeat split; assumption.
  - destruct (startswith l "ROOT" || startswith l "JOINT").
    { destruct (list_getitem (split l) 1) as [jn|]; cbn [bind]; [|discriminate].
      injection 1 as <-. unfold parse_inv; cbn [p_hierarchy p_stack p_order].
      rewrite map_app. cbn [map name].
      split; [|split; [|split]].
      - apply parents_earlier_snoc; [exact Hpe|]. cbn [parent].
        destruct (rev (p_stack st)) as [|t r] eqn:E; [discriminate|].
        injection 1 as <-. rewrite Forall_forall in Hst. apply Hst.
        apply in_rev. rewrite E. left. reflexivity.
      - apply Forall_app. split.
        + eapply Forall_impl; [|exact Hst]. intros n Hn. apply in_or_app. left. exact Hn.
        + constructor; [apply in_or_app; right; left; reflexivity|constructor].
      - apply subseq_snoc, Hsub.
      - intros j Hj Hno. apply in_app_or in Hj as [Hj|[<-|[]]].
        + apply Hend; [exact Hj|]. intros Hin. apply Hno, in_or_app. left. exact Hin.
        + exfalso. apply Hno, in_or_app. right. left. reflexivity. }
    destruct (startswith l "End Site").
    { destruct (list_last (p_stack st)) as [top|] eqn:Et; cbn [bind]; [|discriminate].
      injection 1 as <-. unfold parse_inv; cbn [p_hierarchy p_stack p_order].
      assert (Htop : In top (map name (p_hierarchy st))).
      { rewrite Forall_forall in Hst. apply Hst, list_last_in, Et. }
      rewrite map_app. cbn [map name].
      split; [|split; [|split]].
      - apply parents_earlier_snoc; [exact Hpe|]. cbn [parent].
        injection 1 as <-. exact Htop.
      - apply Forall_app. split.
        + eapply Forall_impl; [|exact Hst]. intros n Hn. apply in_or_app. left. exact Hn.
        + constructor; [apply in_or_app; right; left; reflexivity|constructor].
      - apply subseq_snoc_r, Hsub.
      - intros j Hj Hno. apply in_app_or in Hj as [Hj|[<-|[]]].
        + apply Hend; assumption.
        + exists top. split; reflexivity. }
    destruct (startswith l "OFFSET").
    { destruct (floats (tl (split l))) as [vals|]; cbn [bind]; [|discriminate].
      destruct (set_last_offset (p_hierarchy st) vals) as [hier|] eqn:Eh;
        cbn [bind]; [|discriminate].
      injection 1 as <-. unfold parse_inv; cbn [p_hierarchy p_stack p_order].
      destruct (set_last_offset_shape _ _ _ Eh) as (pre & jl & Hh & ->).
      rewrite Hh in Hpe, Hst, Hsub, Hend.
      exact (parse_inv_offset pre jl vals _ _ Hpe Hst Hsub Hend). }
    destruct (startswith l "CHANNELS");
      [injection 1 as <-; repeat split; assumption|].
    destruct (startswith l "}").
    { destruct (p_stack st) as [|t r] eqn:Es;
        [injection 1 as <-; repeat split; try assumption; rewrite Es; constructor|].
      injection 1 as <-. unfold parse_inv; cbn [p_hierarchy p_stack p_order].
      split; [exact Hpe|split; [|split; assumption]].
      rewrite Forall_forall in Hst |- *. intros n Hn.
      apply Hst. apply (in_removelast (t :: r)). exact Hn. }
    destruct (startswith l "MOTION");
      injection 1 as <-; repeat split; assumption.
Qed.

Lemma run_lines_inv (st st' : parse_state) (lines : list string) :
  parse_inv st -> run_lines st lines = Ok st' -> parse_inv st'.
Proof.
  revert st. induction lines as [|line lines IH]; intros st Hi; simpl.
  - injection 1 as <-. exact Hi.
  - destruct (process_line st line) as [st1|] eqn:E; cbn [bind]; [|discriminate].
    apply IH. exact (process_line_inv _ _ _ Hi E).
Qed.

Lemma process_bvh_lines_inv (lines : list string) (d : bvh_data) :
  process_bvh_lines lines = Ok d ->
  exists st, parse_inv st /\ p_hierarchy st = d_hierarchy d /\ p_order st = d_order d.
Proof.
  unfold process_bvh_lines.
  destruct (run_lines init_state lines) as [st|] eqn:E; cbn [bind]; [|discriminate].
  destruct (same_lengths (p_motion st)); [|discriminate].
  injection 1 as <-. exists st. split; [|split; reflexivity].
  apply (run_lines_inv init_state st lines); [|exact E].
  unfold parse_inv; cbn. split; [intros i j p Hi; destruct i; discriminate|].
  split; [constructor|]. split; [constructor|]. intros j [].
Qed.

(** Every successful parse returns a hierarchy in which each entry's parent
    is the name of an entry listed before it; in particular the first entry
    has no parent. *)
Theorem parse_parents_point_backwards (lines : list string) (d : bvh_data) :
  process_bvh_lines lines = Ok d ->
  parents_earlier (d_hierarchy d) /\
  (forall j rest, d_hierarchy d = j :: rest -> parent j = None).
Proof.
  intros H. destruct (process_bvh_lines_inv _ _ H) as (st & (Hpe & _) & Hh & _).
  rewrite <- Hh. split; [exact Hpe|].
  intros j rest Hj. destruct (parent j) as [p|] eqn:Ep; [|reflexivity].
  exfalso. apply (Hpe 0 j p); [rewrite Hj; reflexivity|exact Ep].
Qed.

Lemma parse_parents_point_backwards_witness :
  exists d, process_bvh_lines sample_bvh_lines = Ok d /\
    parents_earlier (d_hierarchy d).
Proof.
  destruct (process_bvh_lines sample_bvh_lines) as [d|e] eqn:E.
  - exists d. split; [reflexivity|].
    exact (proj1 (parse_parents_point_backwards sample_bvh_lines d E)).
  - vm_compute in E. discriminate.
Defined.

(** Every successful parse returns an order sequence that lists names of
    hierarchy entries in hierarchy order (a subsequence of the names), and
    every entry whose name is not in the order sequence is an end site:
    it has a parent [p] and is named [p ++ "_End"]. *)
Theorem parse_order_and_end_sites (lines : list string) (d : bvh_data) :
  process_bvh_lines lines = Ok d ->
  subseq (d_order d) (map name (d_hierarchy d)) /\
  end_sites_named (d_hierarchy d) (d_order d).
Proof.
  intros H. destruct (process_bvh_lines_inv _ _ H) as (st & (_ & _ & Hs & He) & Hh & Ho).
  rewrite <- Hh, <- Ho. split; assumption.
Qed.

Lemma parse_order_and_end_sites_witness :
  exists d, process_bvh_lines sample_bvh_lines = Ok d /\
    subseq (d_order d) (map name (d_hierarchy d)) /\
    end_sites_named (d_hierarchy d) (d_order d).
Proof.
  destruct (process_bvh_lines sample_bvh_lines) as [d|e] eqn:E.
  - exists d. split; [reflexivity|].
    exact (parse_order_and_end_sites sample_bvh_lines d E).
  - vm_compute in E. discriminate.
Defined.

(* ------------------------------------------------------------------ *)
(** ** The motion section *)

Lemma py_float_raise (v : string) (e : exc) : py_float v = Raise e -> e = ValueError.
Proof.
  unfold py_float. destruct (drop_underscores _ _) as [t|]; [|congruence].
  match goal with |- match ?X with _ => _ end = _ -> _ => destruct X as [sign body] end.
  destruct (dec_aux body 0 0 false false) as [[[m e'] k]|]; congruence.
Qed.

Lemma floats_raise (vs : list string) (e : exc) : floats vs = Raise e -> e = ValueError.
Proof.
  induction vs as [|v vs IH]; simpl; [discriminate|].
  destruct (py_float v) eqn:E; cbn [bind].
  - destruct (floats vs); cbn [bind]; [discriminate|]. exact IH.
  - injection 1 as <-. exact (py_float_raise _ _ E).
Qed.

Lemma floats_in_raise (vs : list string) (v : string) :
  In v vs -> is_raise (py_float v) = true -> floats vs = Raise ValueError.
Proof.
  induction vs as [|v0 vs IH]; simpl; [tauto|].
  intros Hin Hv. destruct (py_float v0) as [x|e] eqn:E; cbn [bind].
  - destruct Hin as [->|Hin]; [rewrite E in Hv; discriminate|].
    rewrite (IH Hin Hv). reflexivity.
  - rewrite (py_float_raise _ _ E). reflexivity.
Qed.

(** One line of the motion section. *)
Lemma process_line_motion (st : parse_state) (line : string) :
  p_in_motion st = true ->
  match process_line st line with
  | Ok st' => p_hierarchy st' = p_hierarchy st /\ p_channels st' = p_channels st /\
              p_order st' = p_order st /\ p_stack st' = p_stack st /\
              p_in_motion st' = true /\
              exists rows, p_motion st' = p_motion st ++ rows
  | Raise e => e = ValueError
  end.
Proof.
  intros Hm. unfold process_line. rewrite Hm. cbn [negb].
  destruct (String.eqb line "").
  { repeat split; try reflexivity; [exact Hm|]. exists []. rewrite app_nil_r. reflexivity. }
  destruct (startswith (strip line) "Frames:" || startswith (strip line) "Frame Time:").
  { repeat split; try reflexivity; [exact Hm|]. exists []. rewrite app_nil_r. reflexivity. }
  destruct (floats (split (strip line))) as [vals|e] eqn:E; cbn [bind].
  - repeat split; try reflexivity. exists [vals]. reflexivity.
  - exact (floats_raise _ _ E).
Qed.

Lemma run_lines_motion (st : parse_state) (lines : list string) :
  p_in_motion st = true ->
  match run_lines st lines with
  | Ok st' => p_hierarchy st' = p_hierarchy st /\ p_channels st' = p_channels st /\
              p_order st' = p_order st /\ p_stack st' = p_stack st /\
              p_in_motion st' = true /\
              exists rows, p_motion st' = p_motion st ++ rows
  | Raise e => e = ValueError
  end.
Proof.
  revert st. induction lines as [|line lines IH]; intros st Hm; simpl.
  - repeat split; try reflexivity; [exact Hm|]. exists []. rewrite app_nil_r. reflexivity.
  - pose proof (process_line_motion st line Hm) as H1.
    destruct (process_line st line) as [st1|e]; cbn [bind]; [|exact H1].
    destruct H1 as (H1h & H1c & H1o & H1s & H1m & rows1 & H1r).
    pose proof (IH st1 H1m) as H2.
    destruct (run_lines st1 lines) as [st2|e]; [|exact H2].
    destruct H2 as (H2h & H2c & H2o & H2s & H2m & rows2 & H2r).
    repeat split; try congruence.
    exists (rows1 ++ rows2). rewrite H2r, H1r, app_assoc. reflexivity.
Qed.

Lemma same_lengths_false (rows : list (list R)) (r1 r2 : list R) :
  In r1 rows -> In r2 rows -> length r1 <> length r2 -> same_lengths rows = false.
Proof.
  intros H1 H2 Hne. destruct (same_lengths rows) eqn:E; [|reflexivity].
  exfalso. exact (Hne (same_lengths_spec rows E r1 r2 H1 H2)).
Qed.

(** The state after reading the test file up to and including [MOTION]. *)
Lemma sample_motion_prefix :
  firstn 15 sample_bvh_lines ++ skipn 15 sample_bvh_lines = sample_bvh_lines.
Proof. apply firstn_skipn. Qed.

(** Once the [MOTION] line has been read, no later line changes the
    hierarchy, the channel sequence or the order sequence: a successful
    parse returns those as they were at that point, and its motion table
    extends the frames read so far. *)
Theorem parse_motion_section_keeps_structure (pre rest : list string)
    (st : parse_state) (d : bvh_data) :
  run_lines init_state pre = Ok st -> p_in_motion st = true ->
  process_bvh_lines (pre ++ rest) = Ok d ->
  d_hierarchy d = p_hierarchy st /\ d_channels d = p_channels st /\
  d_order d = p_order st /\ exists rows, d_motion d = p_motion st ++ rows.
Proof.
  intros Hpre Hm. unfold process_bvh_lines. rewrite run_lines_app, Hpre. cbn [bind].
  pose proof (run_lines_motion st rest Hm) as H.
  destruct (run_lines st rest) as [st'|e]; cbn [bind]; [|discriminate].
  destruct H as (Hh & Hc & Ho & _ & _ & rows & Hr).
  destruct (same_lengths (p_motion st')); [|discriminate].
  injection 1 as <-. cbn. repeat split; try assumption. exists rows. exact Hr.
Qed.

Lemma parse_motion_section_keeps_structure_witness :
  let st := match run_lines init_state (firstn 15 sample_bvh_lines) with
            | Ok st => st | Raise _ => init_state end in
  let d := match process_bvh_lines sample_bvh_lines with
           | Ok d => d | Raise _ => mkData [] [] [] [] end in
  d_hierarchy d = p_hierarchy st /\ d_channels d = p_channels st /\
  d_order d = p_order st /\ exists rows, d_motion d = p_motion st ++ rows.
Proof.
  intros st d.
  apply (parse_motion_section_keeps_structure (firstn 15 sample_bvh_lines)
           (skipn 15 sample_bvh_lines) st d).
  - vm_compute. reflexivity.
  - vm_compute. reflexivity.
  - rewrite sample_motion_prefix. vm_compute. reflexivity.
Defined.

(** Characters that survive the steps of [float()] before the literal
    is read. *)
Lemma str_exists_lstrip (f : ascii -> bool) (s : string) :
  (forall c, f c = true -> is_space c = false) ->
  str_exists f s = true -> str_exists f (lstrip s) = true.
Proof.
  intros Hf. induction s as [|c s IH]; cbn [lstrip str_exists]; [discriminate|].
  destruct (is_space c) eqn:Ec.
  - destruct (f c) eqn:Efc; [rewrite (Hf c Efc) in Ec; discriminate|]. exact IH.
  - intros H. exact H.
Qed.

Lemma str_exists_rev (f : ascii -> bool) (s acc : string) :
  str_exists f (rev_string s acc) = str_exists f s || str_exists f acc.
Proof.
  revert acc. induction s as [|c s IH]; intros acc; cbn [rev_string str_exists];
    [reflexivity|].
  rewrite IH. cbn [str_exists].
  destruct (f c), (str_exists f s), (str_exists f acc); reflexivity.
Qed.

Lemma str_exists_strip (f : ascii -> bool) (s : string) :
  (forall c, f c = true -> is_space c = false) ->
  str_exists f s = true -> str_exists f (strip s) = true.
Proof.
  intros Hf H. unfold strip. rewrite str_exists_rev. cbn [str_exists].
  rewrite orb_false_r. apply str_exists_lstrip; [exact Hf|].
  rewrite str_exists_rev. cbn [str_exists]. rewrite orb_false_r.
  apply str_exists_lstrip; assumption.
Qed.

Lemma str_exists_drop_underscores (f : ascii -> bool) (prev : ascii) (s t : string) :
  (forall c, f c = true -> Nat.eqb (nat_of_ascii c) 95 = false) ->
  drop_underscores prev s = Some t -> str_exists f s = true -> str_exists f t = true.
Proof.
  intros Hf. revert prev t. induction s as [|c s IH]; intros prev t Hd Hs;
    [discriminate|].
  cbn [drop_underscores] in Hd. cbn [str_exists] in Hs.
  destruct (Nat.eqb (nat_of_ascii c) 95) eqn:Hu.
  - destruct (is_digit prev); [|discriminate].
    destruct (f c) eqn:Efc; [rewrite (Hf c Efc) in Hu; discriminate|].
    exact (IH c t Hd Hs).
  - destruct (Nat.eqb (nat_of_ascii prev) 95 && negb (is_digit c)); [discriminate|].
    destruct (drop_underscores c s) as [t'|] eqn:E; cbn [option_map] in Hd;
      [|discriminate].
    injection Hd as <-. cbn [str_exists].
    destruct (f c); [reflexivity|]. exact (IH c t' E Hs).
Qed.

Lemma digit_not_foreign (c : ascii) (d : Z) : digit_val c = Some d -> foreign_char c = false.
Proof.
  destruct c as [[] [] [] [] [] [] [] []]; intros H; vm_compute in H |- *;
    first [discriminate H | reflexivity].
Qed.

Lemma code_not_foreign (c : ascii) (n : nat) :
  Nat.eqb (nat_of_ascii c) n = true -> In n [43; 45; 46; 69; 101] ->
  foreign_char c = false.
Proof.
  intros H Hn. apply Nat.eqb_eq in H. rewrite <- (ascii_nat_embedding c), H.
  destruct Hn as [<-|[<-|[<-|[<-|[<-|[]]]]]]; reflexivity.
Qed.

Lemma exp_digits_no_foreign (s : string) (k : Z) (nd : bool) (z : Z) :
  exp_digits s k nd = Some z -> str_exists foreign_char s = false.
Proof.
  revert k nd. induction s as [|c s IH]; intros k nd H; [reflexivity|].
  cbn [exp_digits] in H. cbn [str_exists].
  destruct (digit_val c) as [d|] eqn:Ed; [|discriminate].
  rewrite (digit_not_foreign c d Ed). exact (IH _ _ H).
Qed.

Lemma exp_part_no_foreign (s : string) (z : Z) :
  exp_part s = Some z -> str_exists foreign_char s = false.
Proof.
  destruct s as [|c s]; [discriminate|]. cbn [exp_part].
  destruct (Nat.eqb (nat_of_ascii c) 45) eqn:E45.
  - destruct (exp_digits s 0 false) as [z'|] eqn:E; [|discriminate]. intros _.
    cbn [str_exists]. rewrite (code_not_foreign c 45 E45) by (simpl; tauto).
    exact (exp_digits_no_foreign _ _ _ _ E).
  - destruct (Nat.eqb (nat_of_ascii c) 43) eqn:E43.
    + intros H. cbn [str_exists]. rewrite (code_not_foreign c 43 E43) by (simpl; tauto).
      exact (exp_digits_no_foreign _ _ _ _ H).
    + intros H. exact (exp_digits_no_foreign _ _ _ _ H).
Qed.

Lemma dec_aux_no_foreign (s : string) (m : Z) (e : nat) (frac nd : bool) r :
  dec_aux s m e frac nd = Some r -> str_exists foreign_char s = false.
Proof.
  revert m e frac nd. induction s as [|c s IH]; intros m e frac nd H; [reflexivity|].
  cbn [dec_aux] in H. cbn [str_exists].
  destruct (digit_val c) as [d|] eqn:Ed.
  - rewrite (digit_not_foreign c d Ed). exact (IH _ _ _ _ H).
  - destruct (Nat.eqb (nat_of_ascii c) 46 && negb frac) eqn:Edot.
    + apply andb_true_iff in Edot as [Edot _].
      rewrite (code_not_foreign c 46 Edot) by (simpl; tauto). exact (IH _ _ _ _ H).
    + destruct ((Nat.eqb (nat_of_ascii c) 101 || Nat.eqb (nat_of_ascii c) 69) && nd)
        eqn:Ee; [|discriminate].
      apply andb_true_iff in Ee as [Ee _]. apply orb_true_iff in Ee as [Ee|Ee].
      * rewrite (code_not_foreign c 101 Ee) by (simpl; tauto).
        destruct (exp_part s) as [k|] eqn:Ek; [|discriminate].
        exact (exp_part_no_foreign _ _ Ek).
      * rewrite (code_not_foreign c 69 Ee) by (simpl; tauto).
        destruct (exp_part s) as [k|] eqn:Ek; [|discriminate].
        exact (exp_part_no_foreign _ _ Ek).
Qed.

(** [float(v)] raises [ValueError] on a string with a character that is
    neither whitespace nor one a float literal can hold. *)
Lemma py_float_foreign (v : string) :
  str_exists foreign_char v = true -> py_float v = Raise ValueError.
Proof.
  intros Hv. unfold py_float.
  assert (Hs : str_exists foreign_char (strip v) = true).
  { apply str_exists_strip; [|exact Hv].
    intros c Hc. unfold foreign_char in Hc. apply andb_true_iff in Hc as [_ Hc].
    apply negb_true_iff. exact Hc. }
  destruct (drop_underscores Ascii.zero (strip v)) as [t|] eqn:Ed; [|reflexivity].
  assert (Ht : str_exists foreign_char t = true).
  { refine (str_exists_drop_underscores _ _ _ _ _ Ed Hs).
    intros c Hc. destruct (Nat.eqb_spec (nat_of_ascii c) 95) as [E|]; [|reflexivity].
    unfold foreign_char, float_char in Hc. rewrite E in Hc. discriminate. }
  assert (Hb : forall body, str_exists foreign_char body = true ->
            match dec_aux body 0 0 false false with
            | Some (m, e, k) => Ok (IZR (1 * m * 10 ^ Z.max 0 k)
                                    / IZR (10 ^ (Z.of_nat e + Z.max 0 (- k))))%R
            | None => Raise ValueError
            end = Raise ValueError /\
            match dec_aux body 0 0 false false with
            | Some (m, e, k) => Ok (IZR (-1 * m * 10 ^ Z.max 0 k)
                                    / IZR (10 ^ (Z.of_nat e + Z.max 0 (- k))))%R
            | None => Raise ValueError
            end = Raise ValueError).
  { intros body Hbody. destruct (dec_aux body 0 0 false false) as [r|] eqn:Er;
      [|split; reflexivity].
    rewrite (dec_aux_no_foreign _ _ _ _ _ _ Er) in Hbody. discriminate. }
  destruct t as [|c s]; [discriminate|].
  cbn [str_exists] in Ht.
  destruct (Nat.eqb (nat_of_ascii c) 45) eqn:E45.
  - rewrite (code_not_foreign c 45 E45) in Ht by (simpl; tauto). apply Hb, Ht.
  - destruct (Nat.eqb (nat_of_ascii c) 43) eqn:E43.
    + rewrite (code_not_foreign c 43 E43) in Ht by (simpl; tauto). apply Hb, Ht.
    + apply Hb. cbn [str_exists]. exact Ht.
Qed.

(** In the motion section, a line that is not a [Frames:] or [Frame Time:]
    header and has a token with a character no float literal can hold
    (neither a digit, a letter, a sign, a dot, an underscore nor
    whitespace: a comma, for instance) makes the whole parse fail with
    [ValueError]. *)
Theorem parse_motion_non_number_fails (pre rest : list string) (st : parse_state)
    (line v : string) :
  run_lines init_state pre = Ok st -> p_in_motion st = true ->
  String.eqb line "" = false ->
  startswith (strip line) "Frames:" = false ->
  startswith (strip line) "Frame Time:" = false ->
  In v (split (strip line)) -> str_exists foreign_char v = true ->
  process_bvh_lines (pre ++ line :: rest) = Raise ValueError.
Proof.
  intros Hpre Hm Hne Hf1 Hf2 Hv Hr. apply (process_bvh_lines_fail _ _ _ st _ Hpre).
  unfold process_line. rewrite Hne, Hm, Hf1, Hf2. cbn [negb orb].
  rewrite (floats_in_raise _ _ Hv) by (rewrite (py_float_foreign v Hr); reflexivity).
  reflexivity.
Qed.

Lemma parse_motion_non_number_fails_witness :
  process_bvh_lines (firstn 15 sample_bvh_lines ++ "1.0, 2.0" :: skipn 15 sample_bvh_lines)
    = Raise ValueError.
Proof.
  apply (parse_motion_non_number_fails _ _
           (match run_lines init_state (firstn 15 sample_bvh_lines) with
            | Ok st => st | Raise _ => init_state end) "1.0, 2.0" "1.0,");
    vm_compute; first [reflexivity | left; reflexivity].
Defined.

(** A line made only of whitespace (not the empty string) that
    [process_bvh_lines] reads in the motion section after some non-empty
    frame is taken as an empty frame, so the parse fails with [ValueError]
    whatever follows. *)
Theorem parse_motion_blank_line_fails (pre rest : list string) (st : parse_state)
    (line : string) (r : list R) :
  run_lines init_state pre = Ok st -> p_in_motion st = true ->
  In r (p_motion st) -> r <> [] ->
  String.eqb line "" = false -> strip line = "" ->
  process_bvh_lines (pre ++ line :: rest) = Raise ValueError.
Proof.
  intros Hpre Hm Hr Hrne Hne Hs. unfold process_bvh_lines.
  rewrite run_lines_app, Hpre. cbn [bind run_lines].
  unfold process_line at 1. rewrite Hne, Hm, Hs. cbn [negb bind].
  set (st1 := mkPS (p_hierarchy st) (p_motion st ++ [[]]) (p_channels st)
                   (p_stack st) true (p_order st)).
  change (bind (run_lines st1 rest) (fun st0 =>
    if same_lengths (p_motion st0)
    then Ok (mkData (p_hierarchy st0) (p_motion st0) (p_channels st0) (p_order st0))
    else Raise ValueError) = Raise ValueError).
  pose proof (run_lines_motion st1 rest eq_refl) as H.
  destruct (run_lines st1 rest) as [st'|e]; cbn [bind]; [|rewrite H; reflexivity].
  destruct H as (_ & _ & _ & _ & _ & rows & Hrows).
  rewrite (same_lengths_false _ r []); [reflexivity| | |].
  - rewrite Hrows. apply in_or_app. left. apply in_or_app. left. exact Hr.
  - rewrite Hrows. apply in_or_app. left. apply in_or_app. right. left. reflexivity.
  - destruct r; [contradiction|discriminate].
Qed.

Lemma parse_motion_blank_line_fails_witness :
  process_bvh_lines (firstn 18 sample_bvh_lines ++ "   " :: skipn 18 sample_bvh_lines)
    = Raise ValueError.
Proof.
  apply (parse_motion_blank_line_fails _ _
           (match run_lines init_state (firstn 18 sample_bvh_lines) with
            | Ok st => st | Raise _ => init_state end) "   " [0; 0; 0; 0; 0; 0]%R).
  - vm_compute. reflexivity.
  - vm_compute. reflexivity.
  - vm_compute. left. repeat f_equal; field.
  - discriminate.
  - reflexivity.
  - reflexivity.
Defined.

(** [parse_bvh] strips every line before parsing, so a line of the file
    made only of whitespace is ignored wherever it stands, in the motion
    section too. *)
Theorem parse_bvh_ignores_blank_lines (l1 l2 : list string) (ws : string) :
  strip ws = "" -> parse_bvh (l1 ++ ws :: l2) = parse_bvh (l1 ++ l2).
Proof.
  intros Hs. unfold parse_bvh, read_bvh_file, process_bvh_lines.
  rewrite !map_app. cbn [map]. rewrite Hs, !run_lines_app.
  destruct (run_lines init_state (map strip l1)); reflexivity.
Qed.

Lemma parse_bvh_ignores_blank_lines_witness :
  parse_bvh (firstn 18 sample_bvh_lines ++ "   " :: skipn 18 sample_bvh_lines)
  = parse_bvh sample_bvh_lines.
Proof.
  rewrite (parse_bvh_ignores_blank_lines _ _ "   " eq_refl), firstn_skipn.
  reflexivity.
Defined.

(* ------------------------------------------------------------------ *)
(** ** Lines the hierarchy phase cannot read *)

Lemma startswith_end_site_not_joint (l : string) :
  startswith l "End Site" = true ->
  startswith l "ROOT" = false /\ startswith l "JOINT" = false.
Proof.
  unfold startswith. destruct l as [|c l]; [discriminate|]. cbn [String.prefix].
  destruct (ascii_dec "E" c) as [<-|]; [|discriminate]. intros _.
  split; reflexivity.
Qed.

(** In the hierarchy phase, a [ROOT] or [JOINT] line with no joint name
    after the keyword, or an [End Site] line while no joint is open (the
    scope stack is empty), makes the whole parse fail with [IndexError]. *)
Theorem parse_hierarchy_index_errors (pre rest : list string) (st : parse_state)
    (line : string) :
  run_lines init_state pre = Ok st -> p_in_motion st = false ->
  ((startswith (strip line) "ROOT" || startswith (strip line) "JOINT") = true /\
   length (split (strip line)) <= 1
   \/ startswith (strip line) "End Site" = true /\ p_stack st = []) ->
  process_bvh_lines (pre ++ line :: rest) = Raise IndexError.
Proof.
  intros Hpre Hm Hcase. apply (process_bvh_lines_fail _ _ _ st _ Hpre).
  destruct Hcase as [[Hk Hlen]|[He Hs]].
  - assert (Hne : String.eqb line "" = false).
    { apply orb_true_iff in Hk as [Hk|Hk]; eapply line_nonempty; eauto; discriminate. }
    unfold process_line. rewrite Hne, Hm, Hk. cbn [negb].
    unfold list_getitem.
    destruct (nth_error (split (strip line)) 1) eqn:E; [|reflexivity].
    exfalso. assert (Hlt : 1 < length (split (strip line)))
      by (apply nth_error_Some; rewrite E; discriminate). lia.
  - assert (Hne : String.eqb line "" = false)
      by (eapply line_nonempty; [|exact He]; discriminate).
    destruct (startswith_end_site_not_joint _ He) as [Hr Hj].
    unfold process_line. rewrite Hne, Hm, Hr, Hj, He, Hs. reflexivity.
Qed.

Lemma parse_hierarchy_index_errors_witness :
  process_bvh_lines ["End Site"; "{"; "}"] = Raise IndexError /\
  process_bvh_lines ["ROOT Hips"; "{"; "JOINT"; "}"] = Raise IndexError.
Proof.
  split.
  - apply (parse_hierarchy_index_errors [] ["{"; "}"] init_state "End Site");
      [reflexivity|reflexivity|right; split; reflexivity].
  - apply (parse_hierarchy_index_errors ["ROOT Hips"; "{"] ["}"]
             (match run_lines init_state ["ROOT Hips"; "{"] with
              | Ok st => st | Raise _ => init_state end) "JOINT").
    + vm_compute. reflexivity.
    + vm_compute. reflexivity.
    + left. split; [reflexivity|vm_compute; lia].
Defined.

(* ------------------------------------------------------------------ *)
(** ** Columns of the channel map *)

Lemma all_indices_app (m1 m2 : dict (dict nat)) :
  all_indices (m1 ++ m2) = all_indices m1 ++ all_indices m2.
Proof. unfold all_indices. apply flat_map_app. Qed.

Lemma build_loop_columns (chans ord : list string) (cur : nat) (m : dict (dict nat)) :
  NoDup ord -> (forall jn, In jn ord -> dict_get jn m = None) ->
  all_indices m = seq 0 cur -> cur <= length chans ->
  exists k, k <= length chans /\ all_indices (build_loop chans ord cur m) = seq 0 k.
Proof.
  revert cur m. induction ord as [|jn ord IH]; intros cur m Hnd Hfresh Hm Hcur;
    cbn [build_loop]; [exists cur; split; assumption|].
  inversion Hnd as [|? ? Hjn Hnd']; subst.
  destruct (contains "_End" jn).
  { apply IH; auto. intros jn' H. apply Hfresh. right. exact H. }
  destruct (match_channels_shape chans channel_kinds cur [])
    as (new & Hmc & _ & Hseq & Hf); [reflexivity|apply channel_kinds_nodup|].
  rewrite Hmc. cbn [app].
  rewrite (@dict_set_fresh (dict nat) jn new m (Hfresh jn (or_introl eq_refl))).
  apply IH; [exact Hnd'| | |].
  - intros jn' H. rewrite dict_get_app_none by (apply Hfresh; right; exact H).
    simpl. destruct (String.eqb_spec jn' jn) as [->|]; [contradiction|reflexivity].
  - rewrite all_indices_app, Hm. unfold all_indices at 1. simpl. rewrite app_nil_r.
    rewrite Hseq, seq_app. reflexivity.
  - destruct new as [|e new'] eqn:En; [simpl; lia|].
    assert (Hlast : In (cur + length new') (map snd (e :: new'))).
    { rewrite Hseq. apply in_seq. simpl. lia. }
    apply in_map_iff in Hlast as (e' & He' & Hin).
    rewrite Forall_forall in Hf. pose proof (Hf e' Hin) as Hc.
    rewrite He' in Hc. assert (Hlt : cur + length new' < length chans)
      by (apply nth_error_Some; rewrite Hc; discriminate).
    simpl. lia.
Qed.

(** When no joint name is repeated in the order sequence, the channel map
    uses exactly the columns 0, 1, ..., k-1 of the channel sequence for
    some k, each once, joint after joint in order: no column is skipped
    and none from k on is ever mapped. *)
Theorem build_joint_channel_map_columns_prefix (chans ord : list string) :
  NoDup ord ->
  exists k, k <= length chans /\
    all_indices (build_joint_channel_map chans ord) = seq 0 k.
Proof.
  intros Hnd. apply build_loop_columns; [exact Hnd|reflexivity|reflexivity|lia].
Qed.

Lemma build_joint_channel_map_columns_prefix_witness :
  all_indices (build_joint_channel_map sample_channels ["Hips"; "Spine"]) = seq 0 5.
Proof.
  destruct (build_joint_channel_map_columns_prefix sample_channels ["Hips"; "Spine"])
    as (k & _ & Hk).
  - repeat constructor; simpl; intuition discriminate.
  - rewrite Hk. assert (Hk5 : length (seq 0 k) = 5)
      by (rewrite <- Hk; vm_compute; reflexivity).
    rewrite length_seq in Hk5. rewrite Hk5. reflexivity.
Defined.

(* ------------------------------------------------------------------ *)
(** ** What [set_new_root] leaves alone *)

Lemma mapM_length {A B} (f : A -> PyResult B) (xs : list A) (ys : list B) :
  mapM f xs = Ok ys -> length ys = length xs.
Proof.
  revert ys. induction xs as [|x xs IH]; intros ys; simpl.
  - injection 1 as <-. reflexivity.
  - destruct (f x); cbn [bind]; [|discriminate].
    destruct (mapM f xs) as [ys'|] eqn:E; cbn [bind]; [|discriminate].
    injection 1 as <-. simpl. f_equal. apply IH. reflexivity.
Qed.

Lemma reparent_name (o n : string) (j : joint) : name (reparent o n j) = name j.
Proof. unfold reparent. destruct (String.eqb (name j) o), (String.eqb (name j) n); reflexivity. Qed.

Lemma reparent_offset (o n : string) (j : joint) : offset (reparent o n j) = offset j.
Proof. unfold reparent. destruct (String.eqb (name j) o), (String.eqb (name j) n); reflexivity. Qed.

Lemma set_new_root_shape (X : string) (s s' : skeleton) (u : unit) :
  set_new_root X s = Ok (u, s') ->
  channels s' = channels s /\ order s' = order s /\
  joint_channel_map s' = joint_channel_map s /\ joint_wm s' = joint_wm s /\
  sk_world_motion s' = sk_world_motion s /\
  map name (hierarchy s') = map name (hierarchy s) /\
  map offset (hierarchy s') = map offset (hierarchy s) /\
  length (motion s') = length (motion s).
Proof.
  unfold set_new_root. destruct (String.eqb X (root_joint s)).
  { injection 1 as _ <-. repeat split. }
  destruct (find _ _); [|discriminate].
  destruct (dict_getitem (root_joint s) _); cbn [bind]; [|discriminate].
  destruct (dict_getitem X _); cbn [bind]; [|discriminate].
  destruct (mapM _ (motion s)) as [rows|] eqn:Em; cbn [bind]; [|discriminate].
  injection 1 as _ <-. cbn. repeat split.
  - rewrite map_map. apply map_ext, reparent_name.
  - rewrite map_map. apply map_ext, reparent_offset.
  - exact (mapM_length _ _ _ Em).
Qed.



Lemma set_new_root_ok (X : string) (s : skeleton) :
  String.eqb X (root_joint s) = false ->
  existsb (fun j => String.eqb (name j) X) (hierarchy s) = true ->
  joint_channel_map s = build_joint_channel_map (channels s) (order s) ->
  dict_get (root_joint s) (joint_channel_map s) <> None ->
  dict_get X (joint_channel_map s) <> None ->
  positions_mapped (joint_channel_map s) (motion s) = true ->
  exists s', set_new_root X s = Ok (tt, s') /\
    root_joint s' = X /\
    map name (hierarchy s') = map name (hierarchy s) /\
    map offset (hierarchy s') = map offset (hierarchy s) /\
    map parent (hierarchy s') =
      map (fun j => if String.eqb (name j) (root_joint s) then Some X
                    else if String.eqb (name j) X then None else parent j)
          (hierarchy s) /\
    length (motion s') = length (motion s) /\
    forall f row row', nth_error (motion s) f = Some row ->
      nth_error (motion s') f = Some row' ->
      length row' = length row /\
      (forall subX a iX, dict_get X (joint_channel_map s) = Some subX ->
         In a position_kinds -> dict_get a subX = Some iX ->
         nth iX row' 0%R = 0%R) /\
      (forall jn sub a c subX iX, dict_get jn (joint_channel_map s) = Some sub ->
         In a position_kinds -> dict_get a sub = Some c ->
         dict_get X (joint_channel_map s) = Some subX -> dict_get a subX = Some iX ->
         nth c row' 0%R = (nth c row 0 - nth iX row 0)%R) /\
      (forall c, ~ In (nth_error (channels s) c) (map Some position_kinds) ->
         nth c row' 0%R = nth c row 0%R).
Proof.
  intros Hne Hex Hb Hroot HXk Hpm.
  destruct (dict_get (root_joint s) (joint_channel_map s)) as [subR|] eqn:ER;
    [|contradiction].
  destruct (dict_get X (joint_channel_map s)) as [subX|] eqn:EX; [|contradiction].
  destruct (find_existsb _ _ Hex) as [jX HjX].
  assert (Hall : forall row, In row (motion s) ->
    forall e a, In e (joint_channel_map s) -> In a position_kinds ->
      exists i, dict_get a (snd e) = Some i /\ i < length row).
  { intros row Hr e a He Ha.
    destruct (positions_mapped_spec _ _ e a Hpm He Ha) as (i & Hi & Hl).
    exists i. split; [exact Hi|apply Hl, Hr]. }
  assert (HallX : forall row, In row (motion s) ->
    forall a, In a position_kinds -> exists i, dict_get a subX = Some i /\ i < length row).
  { intros row Hr a Ha.
    exact (Hall row Hr (X, subX) a (dict_get_in _ _ _ EX) Ha). }
  destruct (mapM_ok (shift_frame (joint_channel_map s) subX) (motion s)) as (rows' & Hm & Hf2).
  { intros row Hr.
    destruct (shift_frame_ok (joint_channel_map s) subX row (Hall row Hr) (HallX row Hr))
      as (ix & iy & iz & row' & _ & _ & _ & Hs & _).
    exists row'. exact Hs. }
  unfold set_new_root. rewrite Hne, HjX. unfold dict_getitem.
  rewrite ER, EX. cbn [bind]. rewrite Hm. cbn [bind].
  eexists. split; [reflexivity|]. cbn [root_joint hierarchy motion channels joint_channel_map].
  split; [reflexivity|].
  split; [rewrite map_map; apply map_ext; intros j; unfold reparent;
          destruct (String.eqb (name j) (root_joint s)), (String.eqb (name j) X);
          reflexivity|].
  split; [rewrite map_map; apply map_ext; intros j; unfold reparent;
          destruct (String.eqb (name j) (root_joint s)), (String.eqb (name j) X);
          reflexivity|].
  split; [rewrite map_map; apply map_ext; intros j; unfold reparent;
          destruct (String.eqb (name j) (root_joint s)), (String.eqb (name j) X);
          reflexivity|].
  split; [symmetry; exact (Forall2_length Hf2)|].
  intros f row row' Hrow Hrow'.
  pose proof (Forall2_nth_error_both _ _ _ _ _ _ Hf2 Hrow Hrow') as Hs.
  assert (Hr : In row (motion s)) by (eapply nth_error_In; exact Hrow).
  destruct (shift_frame_ok (joint_channel_map s) subX row (Hall row Hr) (HallX row Hr))
    as (ix & iy & iz & row'' & Hx & Hy & Hz & Hs' & Hl & Hn).
  rewrite Hs in Hs'. injection Hs' as <-.
  assert (Hnd : NoDup (all_indices (joint_channel_map s))).
  { rewrite Hb. apply build_joint_channel_map_nodup. }
  assert (Hsub : forall jn sub a c iA, dict_get jn (joint_channel_map s) = Some sub ->
      In a position_kinds -> dict_get a sub = Some c -> dict_get a subX = Some iA ->
      nth c row' 0%R = (nth c row 0 - nth iA row 0)%R).
  { intros jn sub a c iA Hj Ha Hc HA. rewrite Hn.
    rewrite (hit_single _ _ jn sub a c Hnd (dict_get_in _ _ _ Hj) Ha Hc).
    rewrite (comp_position ix iy iz row subX a iA Hx Hy Hz Ha HA). reflexivity. }
  split; [exact Hl|].
  split.
  { intros subX' a iX HX' Ha HA. injection HX' as <-.
    rewrite (Hsub X subX a iX iX EX Ha HA HA). lra. }
  split.
  { intros jn sub a c subX' iX Hj Ha Hc HX' HA. injection HX' as <-.
    exact (Hsub jn sub a c iX Hj Ha Hc HA). }
  intros c Hc. rewrite Hn, hit_zero; [lra|].
  intros e a He Ha Hac. apply Hc.
  rewrite Hb in He.
  rewrite (build_entry_columns (channels s) (order s) e a c He Hac).
  apply in_map, Ha.
Qed.

Lemma existsb_name (hier : list joint) (n : string) :
  existsb (fun j => String.eqb (name j) n) hier =
  existsb (fun m => String.eqb m n) (map name hier).
Proof. induction hier as [|j hier IH]; simpl; [reflexivity|]. rewrite IH. reflexivity. Qed.

Lemma map_name_parent (G : string -> option string -> option string)
    (F : joint -> option string) (h1 h : list joint) :
  map name h1 = map name h -> map parent h1 = map F h ->
  map (fun j => G (name j) (parent j)) h1 = map (fun j => G (name j) (F j)) h.
Proof.
  revert h. induction h1 as [|j1 h1 IH]; intros [|j h]; simpl; try discriminate;
    [reflexivity|].
  intros Hn Hp. injection Hn as Hn1 Hn. injection Hp as Hp1 Hp.
  rewrite Hn1, Hp1, (IH h Hn Hp). reflexivity.
Qed.

Lemma positions_mapped_rows (cmap : dict (dict nat)) (rows rows' : list (list R)) :
  positions_mapped cmap rows = true ->
  (forall r', In r' rows' -> exists r, In r rows /\ length r' = length r) ->
  positions_mapped cmap rows' = true.
Proof.
  unfold positions_mapped. rewrite !forallb_forall. intros H Hr e He.
  specialize (H e He). rewrite forallb_forall in H |- *. intros a Ha.
  specialize (H a Ha). destruct (dict_get a (snd e)) as [i|]; [|discriminate].
  rewrite forallb_forall in H |- *. intros r' Hr'.
  destruct (Hr r' Hr') as (r & Hin & Hlen). rewrite Hlen. exact (H r Hin).
Qed.

Lemma nth_error_same_length {A B} (l : list A) (l' : list B) (n : nat) (a : A) :
  length l' = length l -> nth_error l n = Some a -> exists b, nth_error l' n = Some b.
Proof.
  intros Hl Ha. destruct (nth_error l' n) as [b|] eqn:E; [exists b; reflexivity|].
  apply nth_error_None in E. assert (n < length l) by (apply nth_error_Some; congruence).
  lia.
Qed.

(** Re-rooting a skeleton at a joint [X] and then back at the original
    root [R] does not restore it: [R] is the root again and has no parent,
    [X] now has [R] as parent (whatever its parent was), and in every frame
    each mapped position column of kind [a] ends up decreased by the
    frame's original value of [R]'s [a] column, so the positions become
    relative to the original root's position. *)
Theorem set_new_root_there_and_back (X : string) (s : skeleton) :
  String.eqb X (root_joint s) = false ->
  existsb (fun j => String.eqb (name j) X) (hierarchy s) = true ->
  existsb (fun j => String.eqb (name j) (root_joint s)) (hierarchy s) = true ->
  joint_channel_map s = build_joint_channel_map (channels s) (order s) ->
  dict_get (root_joint s) (joint_channel_map s) <> None ->
  dict_get X (joint_channel_map s) <> None ->
  positions_mapped (joint_channel_map s) (motion s) = true ->
  exists s1 s2, set_new_root X s = Ok (tt, s1) /\
    set_new_root (root_joint s) s1 = Ok (tt, s2) /\
    root_joint s2 = root_joint s /\
    map parent (hierarchy s2) =
      map (fun j => if String.eqb (name j) (root_joint s) then None
                    else if String.eqb (name j) X then Some (root_joint s)
                    else parent j) (hierarchy s) /\
    length (motion s2) = length (motion s) /\
    forall f row row2, nth_error (motion s) f = Some row ->
      nth_error (motion s2) f = Some row2 ->
      forall jn sub a c subR iR, dict_get jn (joint_channel_map s) = Some sub ->
        In a position_kinds -> dict_get a sub = Some c ->
        dict_get (root_joint s) (joint_channel_map s) = Some subR ->
        dict_get a subR = Some iR ->
        nth c row2 0%R = (nth c row 0 - nth iR row 0)%R.
Proof.
  intros HXR HexX HexR Hb HkR HkX Hpm.
  destruct (set_new_root_ok X s HXR HexX Hb HkR HkX Hpm)
    as (s1 & E1 & Hr1 & Hn1 & _ & Hp1 & Hl1 & Hrows1).
  destruct (set_new_root_shape X s s1 tt E1) as (Hc1 & Ho1 & Hm1 & _).
  assert (HRX : String.eqb (root_joint s) (root_joint s1) = false)
    by (rewrite Hr1, String.eqb_sym; exact HXR).
  assert (HexR1 : existsb (fun j => String.eqb (name j) (root_joint s)) (hierarchy s1) = true)
    by (rewrite existsb_name, Hn1, <- existsb_name; exact HexR).
  assert (Hb1 : joint_channel_map s1 = build_joint_channel_map (channels s1) (order s1))
    by (rewrite Hm1, Hc1, Ho1; exact Hb).
  assert (HkX1 : dict_get (root_joint s1) (joint_channel_map s1) <> None)
    by (rewrite Hr1, Hm1; exact HkX).
  assert (HkR1 : dict_get (root_joint s) (joint_channel_map s1) <> None)
    by (rewrite Hm1; exact HkR).
  assert (Hpm1 : positions_mapped (joint_channel_map s1) (motion s1) = true).
  { rewrite Hm1. apply (positions_mapped_rows _ (motion s)); [exact Hpm|].
    intros r' Hr'. apply In_nth_error in Hr' as [f Hf].
    destruct (nth_error_same_length (motion s1) (motion s) f r') as [r Hr];
      [symmetry; exact Hl1|exact Hf|].
    exists r. split; [eapply nth_error_In; exact Hr|].
    exact (proj1 (Hrows1 f r r' Hr Hf)). }
  destruct (set_new_root_ok (root_joint s) s1 HRX HexR1 Hb1 HkX1 HkR1 Hpm1)
    as (s2 & E2 & Hr2 & _ & _ & Hp2 & Hl2 & Hrows2).
  exists s1, s2. split; [exact E1|]. split; [exact E2|]. split; [exact Hr2|].
  split.
  { rewrite Hp2, Hr1.
    rewrite (map_name_parent
      (fun n p => if String.eqb n X then Some (root_joint s)
                  else if String.eqb n (root_joint s) then None else p)
      (fun j => if String.eqb (name j) (root_joint s) then Some X
                else if String.eqb (name j) X then None else parent j)
      (hierarchy s1) (hierarchy s) Hn1 Hp1).
    apply map_ext. intros j.
    destruct (String.eqb_spec (name j) (root_joint s)) as [Ha|Ha],
             (String.eqb_spec (name j) X) as [Hb'|Hb']; try reflexivity.
    exfalso. rewrite Ha in Hb'. rewrite Hb', String.eqb_refl in HXR. discriminate. }
  split; [rewrite Hl2; exact Hl1|].
  intros f row row2 Hrow Hrow2 jn sub a c subR iR Hj Ha Hc HR HiR.
  destruct (nth_error_same_length (motion s) (motion s1) f row) as [row1 Hrow1];
    [exact Hl1|exact Hrow|].
  assert (HsX : exists subX, dict_get X (joint_channel_map s) = Some subX)
    by (destruct (dict_get X (joint_channel_map s)); [eexists; reflexivity|contradiction]).
  destruct HsX as [subX EX].
  destruct (positions_mapped_spec _ _ (X, subX) a Hpm (dict_get_in _ _ _ EX) Ha)
    as (iX & HiX & _).
  destruct (Hrows1 f row row1 Hrow Hrow1) as (_ & _ & Hsub1 & _).
  destruct (Hrows2 f row1 row2 Hrow1 Hrow2) as (_ & _ & Hsub2 & _).
  rewrite Hm1 in Hsub2.
  rewrite (Hsub2 jn sub a c subR iR Hj Ha Hc HR HiR).
  rewrite (Hsub1 jn sub a c subX iX Hj Ha Hc EX HiX).
  rewrite (Hsub1 (root_joint s) subR a iR subX iX HR Ha HiR EX HiX).
  lra.
Qed.

Lemma set_new_root_there_and_back_witness :
  exists s1 s2, set_new_root "Spine" canonical_skeleton = Ok (tt, s1) /\
    set_new_root "Hips" s1 = Ok (tt, s2) /\ root_joint s2 = "Hips".
Proof.
  destruct (set_new_root_there_and_back "Spine" canonical_skeleton)
    as (s1 & s2 & E1 & E2 & Hr & _).
  1-7: vm_compute; first [reflexivity | discriminate].
  exists s1, s2. split; [exact E1|]. split; [exact E2|exact Hr].
Defined.

Lemma last_nth_pred (l : list R) (d : R) : l <> [] -> nth (length l - 1) l d = last l d.
Proof.
  induction l as [|x l IH]; intros Hne; [contradiction|].
  destruct l as [|y l]; [reflexivity|].
  change (nth (length (y :: l)) (x :: y :: l) d = last (y :: l) d).
  rewrite <- IH by discriminate. simpl. rewrite Nat.sub_0_r. reflexivity.
Qed.

Lemma np_getitem2_last (rows : list (list R)) (f : nat) (row : list R) :
  nth_error rows f = Some row -> row <> [] ->
  np_getitem2 rows f (-1)%Z = Ok (last row 0%R).
Proof.
  intros Hf Hne. unfold np_getitem2, list_getitem. rewrite Hf. cbn [bind]. cbv zeta.
  assert (Hl : length row <> 0) by (destruct row; [contradiction|discriminate]).
  assert (E0 : ((-1 + Z.of_nat (length row)) <? 0)%Z = false) by (apply Z.ltb_ge; lia).
  replace ((-1 <? 0)%Z) with true by reflexivity. rewrite E0.
  replace (Z.to_nat (-1 + Z.of_nat (length row))) with (length row - 1) by lia.
  destruct (nth_error row (length row - 1)) as [x|] eqn:E.
  - rewrite <- (nth_error_nth _ _ 0%R E), last_nth_pred by exact Hne. reflexivity.
  - apply nth_error_None in E. lia.
Qed.

Lemma np_getitem2_empty (rows : list (list R)) (f : nat) (idx : Z) :
  nth_error rows f = Some [] -> np_getitem2 rows f idx = Raise IndexError.
Proof.
  intros Hf. unfold np_getitem2, list_getitem. rewrite Hf. cbn [bind]. cbv zeta.
  cbn [length Z.of_nat]. rewrite Z.add_0_r.
  destruct (idx <? 0)%Z eqn:E; rewrite ?E; [reflexivity|].
  destruct (Z.to_nat idx); reflexivity.
Qed.

Lemma get_index_read (rows : list (list R)) (f : nat) (row : list R)
    (kind : string) (chans : dict nat) :
  nth_error rows f = Some row -> row <> [] ->
  (forall i, dict_get kind chans = Some i -> i < length row) ->
  np_getitem2 rows f (get_index kind chans) =
    Ok (match dict_get kind chans with Some i => nth i row 0%R | None => last row 0%R end).
Proof.
  intros Hf Hne Hi. unfold get_index.
  destruct (dict_get kind chans) as [i|].
  - exact (np_getitem2_ok rows f i row Hf (Hi i eq_refl)).
  - exact (np_getitem2_last rows f row Hf Hne).
Qed.

(** [get_joint_rotation] reads each rotation column with
    [channels.get(kind, -1)]: for a mapped joint and an in-range frame, a
    rotation kind missing from the joint's channel map silently yields the
    last value of the frame's row instead of an error; on an empty row
    every read raises [IndexError]. *)
Theorem get_joint_rotation_missing_kind_reads_last (s : skeleton) (jn : string)
    (frame : Z) (chans : dict nat) (row : list R) :
  dict_get jn (joint_channel_map s) = Some chans ->
  (0 <= frame)%Z -> nth_error (motion s) (Z.to_nat frame) = Some row ->
  (row <> [] ->
   (forall k i, In k ["Xrotation"; "Yrotation"; "Zrotation"] ->
      dict_get k chans = Some i -> i < length row) ->
   get_joint_rotation jn frame s =
     Ok (Some (map (fun k => match dict_get k chans with
                             | Some i => nth i row 0%R
                             | None => last row 0%R end)
                   ["Xrotation"; "Yrotation"; "Zrotation"]), s)) /\
  (row = [] -> get_joint_rotation jn frame s = Raise IndexError).
Proof.
  intros Hj Hf0 Hrow. unfold get_joint_rotation. rewrite Hj.
  assert (Hlt : Z.to_nat frame < length (motion s))
    by (apply nth_error_Some; rewrite Hrow; discriminate).
  assert (Hc : ((frame <? 0)%Z || (Z.of_nat (length (motion s)) <=? frame)%Z) = false)
    by (apply orb_false_iff; split; [apply Z.ltb_ge | apply Z.leb_gt]; lia).
  rewrite Hc. cbv zeta. split.
  - intros Hne Hi.
    rewrite (get_index_read _ _ _ "Xrotation" chans Hrow Hne
               (fun i => Hi "Xrotation" i ltac:(simpl; auto))).
    cbn [bind].
    rewrite (get_index_read _ _ _ "Yrotation" chans Hrow Hne
               (fun i => Hi "Yrotation" i ltac:(simpl; auto))).
    cbn [bind].
    rewrite (get_index_read _ _ _ "Zrotation" chans Hrow Hne
               (fun i => Hi "Zrotation" i ltac:(simpl; auto))).
    reflexivity.
  - intros ->. rewrite (np_getitem2_empty _ _ _ Hrow). reflexivity.
Qed.

Lemma get_joint_rotation_missing_kind_reads_last_witness :
  get_joint_rotation "Hips" 0
    (mkSkel [mkJoint "Hips" None (Some [0; 0; 0]%R)] [[1; 2; 3; 4]%R]
       ["Xposition"; "Yposition"; "Zposition"; "Zrotation"] ["Hips"] "Hips"
       [("Hips", [("Xposition", 0); ("Yposition", 1); ("Zposition", 2);
                  ("Zrotation", 3)])] [] [])
  = Ok (Some [4; 4; 4]%R,
        mkSkel [mkJoint "Hips" None (Some [0; 0; 0]%R)] [[1; 2; 3; 4]%R]
          ["Xposition"; "Yposition"; "Zposition"; "Zrotation"] ["Hips"] "Hips"
          [("Hips", [("Xposition", 0); ("Yposition", 1); ("Zposition", 2);
                     ("Zrotation", 3)])] [] []).
Proof.
  match goal with |- get_joint_rotation _ _ ?s = _ =>
  rewrite (proj1 (get_joint_rotation_missing_kind_reads_last s "Hips" 0
            [("Xposition", 0); ("Yposition", 1); ("Zposition", 2); ("Zrotation", 3)]
            [1; 2; 3; 4]%R eq_refl ltac:(lia) eq_refl) ltac:(discriminate))
  end; [reflexivity|].
  intros k i Hk. simpl in Hk.
  destruct Hk as [<-|[<-|[<-|[]]]]; simpl; intros H;
    first [discriminate | injection H as <-; simpl; lia].
Defined.

Lemma compute_world_position_cycle (s : skeleton) (C : list string) (f : nat) :
  (forall n, In n C -> exists j p, joint_map_get n (hierarchy s) = Some j /\
     parent j = Some p /\ In p C) ->
  forall fuel n M, In n C -> compute_world_position fuel s n f <> Ok M.
Proof.
  intros Hcl fuel. induction fuel as [|fuel IH]; intros n M Hn; simpl; [discriminate|].
  destruct (Hcl n Hn) as (j & p & Hj & Hp & HpC).
  unfold joint_map_getitem. rewrite Hj. cbn [bind].
  repeat match goal with
         | |- bind ?m _ <> _ => destruct m; cbn [bind]; [|discriminate]
         end.
  cbv zeta. rewrite Hp.
  destruct (compute_world_position fuel s p f) as [m|e] eqn:E; cbn [bind];
    [|discriminate].
  exfalso. exact (IH p m HpC E).
Qed.

Lemma frame_positions_each (fuel : nat) (s : skeleton) (f : nat) (hier : list joint)
    (pos r : dict (list R)) :
  frame_positions fuel s f hier pos = Ok r ->
  forall j, In j hier -> contains "_End" (name j) = false ->
  exists M, compute_world_position fuel s (name j) f = Ok M.
Proof.
  revert pos. induction hier as [|a hier IH]; intros pos H j Hin He; [destruct Hin|].
  simpl in H. destruct Hin as [<-|Hin].
  - rewrite He in H. unfold fk_joint_position in H.
    destruct (compute_world_position fuel s (name a) f) as [M|e] eqn:E;
      [exists M; reflexivity|cbn [bind] in H; discriminate].
  - destruct (contains "_End" (name a)); [exact (IH pos H j Hin He)|].
    destruct (fk_joint_position fuel s f a); cbn [bind] in H; [|discriminate].
    exact (IH _ H j Hin He).
Qed.

(** Construction walks each joint's parent chain through [joint_map],
    where a name repeated in the hierarchy stands for its last entry: if
    those entries form a parent cycle (every name of a set [C] has a
    parent in [C]) through a joint whose name does not contain "_End",
    and there is at least one frame, construction never succeeds (the
    recursion runs into Python's recursion limit unless a read fails
    first). *)
Theorem init_parent_cycle_fails (d : bvh_data) (C : list string) :
  d_motion d <> [] ->
  (forall n, In n C -> exists j p, joint_map_get n (d_hierarchy d) = Some j /\
     parent j = Some p /\ In p C) ->
  (exists j, In j (d_hierarchy d) /\ In (name j) C /\ contains "_End" (name j) = false) ->
  forall s, init d <> Ok s.
Proof.
  intros Hne Hcl (j & Hj & HjC & He) s Hinit. unfold init in Hinit.
  set (root := match d_hierarchy d with j :: _ => Ok (name j) | [] => Raise IndexError end)
    in Hinit.
  destruct root as [r|e]; cbn [bind] in Hinit; [|discriminate].
  destruct (update_hierarchy_with_motion _ _ _) as [wmd|e]; cbn [bind] in Hinit;
    [|discriminate].
  cbv zeta in Hinit.
  match type of Hinit with
  | bind (compute_world_skeleton_for_frames ?fu ?s0) _ = _ =>
      destruct (compute_world_skeleton_for_frames fu s0) as [wm|e] eqn:Ew;
      cbn [bind] in Hinit; [|discriminate]; set (s1 := s0) in Ew
  end.
  unfold compute_world_skeleton_for_frames in Ew.
  destruct (d_motion d) as [|row rows] eqn:Em; [contradiction|].
  assert (Hs1 : motion s1 = row :: rows) by reflexivity.
  rewrite Hs1 in Ew. cbn [length seq mapM] in Ew.
  destruct (frame_positions recursion_limit s1 0 (hierarchy s1) []) as [pos|e] eqn:Ef;
    cbn [bind] in Ew; [|discriminate].
  destruct (frame_positions_each _ _ _ _ _ _ Ef j Hj He) as [M HM].
  exact (compute_world_position_cycle s1 C 0 Hcl recursion_limit (name j) M HjC HM).
Qed.

Lemma init_parent_cycle_fails_witness :
  is_raise (init (mkData
    [mkJoint "A" None (Some [0; 0; 0]%R); mkJoint "B" (Some "A") (Some [0; 0; 0]%R);
     mkJoint "A" (Some "B") (Some [0; 0; 0]%R)]
    [[0; 0; 0; 0; 0; 0; 0; 0; 0; 0; 0; 0]%R]
    (channel_kinds ++ channel_kinds) ["A"; "B"; "A"])) = true.
Proof.
  match goal with |- is_raise (init ?d) = true =>
    destruct (init d) as [s|e] eqn:E; [exfalso|reflexivity];
    apply (init_parent_cycle_fails d ["A"; "B"]) with (s := s); [| | |exact E]
  end.
  - discriminate.
  - intros n [<-|[<-|[]]]; eexists _, _;
      (split; [reflexivity|split; [reflexivity|simpl; auto]]).
  - exists (mkJoint "B" (Some "A") (Some [0; 0; 0]%R)).
    split; [simpl; auto|split; [simpl; auto|reflexivity]].
Defined.

Lemma mapM_Forall2 {A B} (f : A -> PyResult B) (xs : list A) (ys : list B) :
  mapM f xs = Ok ys -> Forall2 (fun x y => f x = Ok y) xs ys.
Proof.
  revert ys. induction xs as [|x xs IH]; intros ys; simpl.
  - injection 1 as <-. constructor.
  - destruct (f x) as [y|e] eqn:E; cbn [bind]; [|discriminate].
    destruct (mapM f xs) as [ys'|e] eqn:E'; cbn [bind]; [|discriminate].
    injection 1 as <-. constructor; [exact E|exact (IH ys' eq_refl)].
Qed.

Lemma Forall2_in_r {A B} (P : A -> B -> Prop) (xs : list A) (ys : list B) (y : B) :
  Forall2 P xs ys -> In y ys -> exists x, In x xs /\ P x y.
Proof.
  induction 1 as [|x y' xs ys Hxy _ IH]; intros Hin; [destruct Hin|].
  destruct Hin as [<-|Hin]; [exists x; split; [left|]; auto|].
  destruct (IH Hin) as (x' & Hx' & HP). exists x'. split; [right|]; auto.
Qed.

Lemma matvec4_length (M : Mat) (v l : list R) : matvec4 M v = Ok l -> length l = 4%nat.
Proof.
  unfold matvec4. destruct v as [|a [|b [|c [|e [|]]]]]; try discriminate.
  injection 1 as <-. reflexivity.
Qed.

Lemma fk_joint_position_length (fuel : nat) (s : skeleton) (f : nat) (j : joint)
    (p : list R) :
  fk_joint_position fuel s f j = Ok p -> length p = 3%nat.
Proof.
  unfold fk_joint_position.
  destruct (compute_world_position fuel s (name j) f) as [M|e]; cbn [bind];
    [|discriminate].
  destruct (offset j) as [o|]; cbn [bind]; [|discriminate].
  match goal with |- bind ?m _ = _ -> _ => destruct m as [l|e] eqn:E end;
    cbn [bind]; [|discriminate].
  injection 1 as <-.
  assert (Hl : length l = 4%nat)
    by (destruct (String.eqb _ _); exact (matvec4_length _ _ _ E)).
  destruct l as [|a [|b [|c [|e l]]]]; simpl in Hl; try discriminate; reflexivity.
Qed.

Lemma frame_positions_shape (fuel : nat) (s : skeleton) (f : nat) (hier : list joint)
    (pos r : dict (list R)) :
  frame_positions fuel s f hier pos = Ok r ->
  forall k v, dict_get k r = Some v ->
    dict_get k pos = Some v \/
    (length v = 3%nat /\ exists j, In j hier /\ name j = k /\ contains "_End" k = false).
Proof.
  revert pos. induction hier as [|a hier IH]; intros pos H k v Hk; simpl in H.
  - injection H as <-. left. exact Hk.
  - destruct (contains "_End" (name a)) eqn:Ea.
    + destruct (IH pos H k v Hk) as [Hp|(Hl & j & Hj & Hn & He)]; [left; exact Hp|].
      right. split; [exact Hl|]. exists j. split; [right|]; auto.
    + destruct (fk_joint_position fuel s f a) as [p|e] eqn:Ep; cbn [bind] in H;
        [|discriminate].
      destruct (IH _ H k v Hk) as [Hp|(Hl & j & Hj & Hn & He)].
      * rewrite dict_get_set in Hp.
        destruct (String.eqb_spec k (name a)) as [->|Hne]; [|left; exact Hp].
        injection Hp as <-. right. split; [exact (fk_joint_position_length _ _ _ _ _ Ep)|].
        exists a. split; [left; reflexivity|split; [reflexivity|exact Ea]].
      * right. split; [exact Hl|]. exists j. split; [right|]; auto.
Qed.

Lemma flatten_positions_shape (pos : dict (list R)) (ord : list string) (l : list R) :
  flatten_positions pos ord = Ok l ->
  (forall n, In n ord -> exists v, dict_get n pos = Some v) /\
  ((forall n v, In n ord -> dict_get n pos = Some v -> length v = 3%nat) ->
   length l = (3 * length ord)%nat).
Proof.
  revert l. induction ord as [|n ord IH]; intros l H; simpl in H.
  - injection H as <-. split; [intros n []|reflexivity].
  - unfold dict_getitem in H.
    destruct (dict_get n pos) as [v|] eqn:Ev; cbn [bind] in H; [|discriminate].
    destruct (flatten_positions pos ord) as [rest|e]; cbn [bind] in H; [|discriminate].
    injection H as <-. destruct (IH rest eq_refl) as [Hk Hlen]. split.
    + intros m [<-|Hm]; [exists v; exact Ev|exact (Hk m Hm)].
    + intros H3. rewrite length_app, (H3 n v (or_introl eq_refl) Ev).
      rewrite Hlen by (intros m w Hm; apply H3; right; exact Hm). simpl. lia.
Qed.

(** A constructed skeleton's [world_motion] table has one row per motion
    frame, each row holding three coordinates per name of the order list;
    and when there is at least one frame, every name of the order list is
    the name of a hierarchy joint and does not contain "_End" (an order
    name without such a joint makes construction raise [KeyError]). *)
Theorem init_world_motion_shape (d : bvh_data) (s : skeleton) :
  init d = Ok s ->
  length (sk_world_motion s) = length (motion s) /\
  (forall row, In row (sk_world_motion s) -> length row = (3 * length (order s))%nat) /\
  (motion s <> [] -> forall n, In n (order s) ->
     exists j, In j (hierarchy s) /\ name j = n /\ contains "_End" n = false).
Proof.
  intros Hinit. unfold init in Hinit.
  set (root := match d_hierarchy d with j :: _ => Ok (name j) | [] => Raise IndexError end)
    in Hinit.
  destruct root as [r|e]; cbn [bind] in Hinit; [|discriminate].
  destruct (update_hierarchy_with_motion _ _ _) as [wmd|e]; cbn [bind] in Hinit;
    [|discriminate].
  cbv zeta in Hinit.
  match type of Hinit with
  | bind (compute_world_skeleton_for_frames ?fu ?s0) _ = _ =>
      destruct (compute_world_skeleton_for_frames fu s0) as [wm|e] eqn:Ew;
      cbn [bind] in Hinit; [|discriminate]; set (s1 := s0) in Ew
  end.
  injection Hinit as <-. cbn [sk_world_motion motion order hierarchy].
  unfold compute_world_skeleton_for_frames in Ew.
  pose proof (mapM_Forall2 _ _ _ Ew) as HF.
  change (motion s1) with (d_motion d) in Ew, HF.
  change (hierarchy s1) with (d_hierarchy d) in Ew, HF.
  change (order s1) with (d_order d) in Ew, HF.
  split; [rewrite (mapM_length _ _ _ Ew), length_seq; reflexivity|].
  split.
  - intros row Hrow. destruct (Forall2_in_r _ _ _ _ HF Hrow) as (f & _ & Hf).
    destruct (frame_positions recursion_limit s1 f (d_hierarchy d) []) as [pos|e] eqn:Ep;
      cbn [bind] in Hf; [|discriminate].
    apply (proj2 (flatten_positions_shape _ _ _ Hf)).
    intros n v _ Hv.
    destruct (frame_positions_shape _ _ _ _ _ _ Ep n v Hv) as [H0|(Hl & _)];
      [discriminate|exact Hl].
  - intros Hne n Hn.
    destruct (d_motion d) as [|row0 rows] eqn:Em; [contradiction|].
    cbn [length seq mapM] in Ew.
    destruct (frame_positions recursion_limit s1 0 (d_hierarchy d) []) as [pos|e] eqn:Ep;
      cbn [bind] in Ew; [|discriminate].
    destruct (flatten_positions pos (d_order d)) as [l|e] eqn:El; cbn [bind] in Ew;
      [|discriminate].
    destruct (proj1 (flatten_positions_shape _ _ _ El) n Hn) as [v Hv].
    destruct (frame_positions_shape _ _ _ _ _ _ Ep n v Hv) as [H0|(_ & j & Hj)];
      [discriminate|exists j; exact Hj].
Qed.

Lemma init_world_motion_shape_witness :
  exists s, init canonical_data = Ok s /\
    length (sk_world_motion s) = length (motion s) /\
    (forall row, In row (sk_world_motion s) -> length row = (3 * length (order s))%nat).
Proof.
  destruct (init canonical_data) as [s|e] eqn:E.
  - destruct (init_world_motion_shape _ _ E) as (H1 & H2 & _).
    exists s. split; [reflexivity|split; assumption].
  - vm_compute in E. discriminate.
Defined.

Lemma update_get (cmap : dict (dict nat)) (rows : list (list R)) (names : list string)
    (acc : PyResult (dict world_motion)) (wmd : dict world_motion) (n : string)
    (wm : world_motion) :
  fold_left (fun acc jn =>
    d <- acc ;; wm <- wm_frames cmap jn rows empty_wm ;; Ok (dict_set jn wm d))
    names acc = Ok wmd ->
  wm_frames cmap n rows empty_wm = Ok wm ->
  (exists d, acc = Ok d /\ dict_get n d = Some wm) \/ In n names ->
  dict_get n wmd = Some wm.
Proof.
  revert acc. induction names as [|x names IH]; intros acc H Hwm Hcase; simpl in H.
  - destruct Hcase as [(d & Hd & Hn)|[]]. rewrite Hd in H. injection H as <-. exact Hn.
  - destruct acc as [d|e]; cbn [bind] in H; [|rewrite update_fold_raise in H; discriminate].
    destruct (wm_frames cmap x rows empty_wm) as [wx|e] eqn:Ex; cbn [bind] in H;
      [|rewrite update_fold_raise in H; discriminate].
    apply (IH _ H Hwm).
    destruct (in_dec string_dec n names) as [Hin|Hnin]; [right; exact Hin|left].
    exists (dict_set x wx d). split; [reflexivity|]. rewrite dict_get_set.
    destruct (String.eqb_spec n x) as [->|Hne].
    + rewrite Hwm in Ex. injection Ex as ->. reflexivity.
    + destruct Hcase as [(d' & Hd' & Hn)|[Hx|Hin]]; [|congruence|contradiction].
      injection Hd' as <-. exact Hn.
Qed.

Lemma list_getitem_nth (l : list R) (i : nat) (x : R) :
  list_getitem l i = Ok x -> nth i l 0%R = x.
Proof.
  unfold list_getitem. destruct (nth_error l i) eqn:E; [|discriminate].
  injection 1 as <-. exact (nth_error_nth _ _ _ E).
Qed.

Lemma list_getitem_lt (l : list R) (i : nat) :
  i < length l -> list_getitem l i = Ok (nth i l 0%R).
Proof.
  intros Hi. unfold list_getitem.
  destruct (nth_error l i) eqn:E.
  - rewrite (nth_error_nth _ _ _ E). reflexivity.
  - apply nth_error_None in E. lia.
Qed.

Lemma frame_values_xyz (sub : dict nat) (row : list R) v (wm0 : world_motion)
    (ix iy iz : nat) :
  frame_values sub row = Ok v ->
  dict_get "Xposition" sub = Some ix -> dict_get "Yposition" sub = Some iy ->
  dict_get "Zposition" sub = Some iz ->
  wX (wm_append wm0 v) = wX wm0 ++ [nth ix row 0%R] /\
  wY (wm_append wm0 v) = wY wm0 ++ [nth iy row 0%R] /\
  wZ (wm_append wm0 v) = wZ wm0 ++ [nth iz row 0%R].
Proof.
  intros H Hx Hy Hz. unfold frame_values in H. unfold dict_getitem in H at 1 2 3.
  rewrite Hx, Hy, Hz in H. cbn [bind] in H.
  destruct (dict_getitem "Xrotation" sub); cbn [bind] in H; [|discriminate].
  destruct (dict_getitem "Yrotation" sub); cbn [bind] in H; [|discriminate].
  destruct (dict_getitem "Zrotation" sub); cbn [bind] in H; [|discriminate].
  destruct (list_getitem row ix) as [x|] eqn:E1; cbn [bind] in H; [|discriminate].
  destruct (list_getitem row iy) as [y|] eqn:E2; cbn [bind] in H; [|discriminate].
  destruct (list_getitem row iz) as [z|] eqn:E3; cbn [bind] in H; [|discriminate].
  repeat match type of H with
         | bind ?m _ = _ => destruct m; cbn [bind] in H; [|discriminate]
         end.
  injection H as <-. cbn [wm_append wX wY wZ].
  rewrite (list_getitem_nth _ _ _ E1), (list_getitem_nth _ _ _ E2),
    (list_getitem_nth _ _ _ E3).
  repeat split.
Qed.

Lemma wm_frames_prefix (cmap : dict (dict nat)) (jn : string) (rows : list (list R))
    (wm0 wm : world_motion) :
  wm_frames cmap jn rows wm0 = Ok wm ->
  exists a b c, wX wm = wX wm0 ++ a /\ wY wm = wY wm0 ++ b /\ wZ wm = wZ wm0 ++ c.
Proof.
  revert wm0. induction rows as [|row rows IH]; intros wm0 H; simpl in H.
  - injection H as <-. exists [], [], []. rewrite !app_nil_r. repeat split.
  - destruct (contains "_End" jn); [exact (IH _ H)|].
    destruct (dict_getitem jn cmap); cbn [bind] in H; [|discriminate].
    destruct (frame_values d row) as [v|]; cbn [bind] in H; [|discriminate].
    destruct (IH _ H) as (a & b & c & Ha & Hb & Hc).
    destruct v as [[[[[x y] z] rx] ry] rz]. cbn [wm_append wX wY wZ] in Ha, Hb, Hc.
    exists (x :: a), (y :: b), (z :: c).
    rewrite Ha, Hb, Hc, <- !app_assoc. repeat split.
Qed.

Lemma wm_frames_lengths (cmap : dict (dict nat)) (jn : string) (rows : list (list R))
    (wm0 wm : world_motion) :
  wm_frames cmap jn rows wm0 = Ok wm -> contains "_End" jn = false ->
  length (wX wm) = length (wX wm0) + length rows /\
  length (wY wm) = length (wY wm0) + length rows /\
  length (wZ wm) = length (wZ wm0) + length rows /\
  length (wRy wm) = length (wRy wm0) + length rows /\
  length (wRx wm) = length (wRx wm0) + length rows /\
  length (wRz wm) = length (wRz wm0) + length rows.
Proof.
  intros H He. revert wm0 H. induction rows as [|row rows IH]; intros wm0 H; simpl in H.
  - injection H as <-. rewrite !Nat.add_0_r. repeat split.
  - rewrite He in H.
    destruct (dict_getitem jn cmap); cbn [bind] in H; [|discriminate].
    destruct (frame_values d row) as [v|]; cbn [bind] in H; [|discriminate].
    destruct (IH _ H) as (H1 & H2 & H3 & H4 & H5 & H6).
    destruct v as [[[[[x y] z] rx] ry] rz]. cbn [wm_append wX wY wZ wRy wRx wRz] in *.
    rewrite !length_app in *. cbn [length] in *. lia.
Qed.

Lemma wm_frames_nth (cmap : dict (dict nat)) (jn : string) (rows : list (list R))
    (wm0 wm : world_motion) (sub : dict nat) (ix iy iz : nat) :
  wm_frames cmap jn rows wm0 = Ok wm -> contains "_End" jn = false ->
  dict_get jn cmap = Some sub ->
  dict_get "Xposition" sub = Some ix -> dict_get "Yposition" sub = Some iy ->
  dict_get "Zposition" sub = Some iz ->
  forall f row, nth_error rows f = Some row ->
    nth_error (wX wm) (length (wX wm0) + f) = Some (nth ix row 0%R) /\
    nth_error (wY wm) (length (wY wm0) + f) = Some (nth iy row 0%R) /\
    nth_error (wZ wm) (length (wZ wm0) + f) = Some (nth iz row 0%R).
Proof.
  intros H He Hs Hx Hy Hz. revert wm0 H.
  induction rows as [|r rows IH]; intros wm0 H f row Hf; [destruct f; discriminate|].
  simpl in H. rewrite He in H. unfold dict_getitem in H at 1. rewrite Hs in H.
  cbn [bind] in H.
  destruct (frame_values sub r) as [v|] eqn:Ev; cbn [bind] in H; [|discriminate].
  destruct (frame_values_xyz _ _ _ wm0 _ _ _ Ev Hx Hy Hz) as (HX & HY & HZ).
  destruct f as [|f].
  - injection Hf as <-.
    destruct (wm_frames_prefix _ _ _ _ _ H) as (a & b & c & Ha & Hb & Hc).
    rewrite Ha, Hb, Hc, HX, HY, HZ, <- !app_assoc, !Nat.add_0_r.
    repeat split; rewrite nth_error_app2, Nat.sub_diag by lia; reflexivity.
  - destruct (IH _ H f row Hf) as (H1 & H2 & H3).
    rewrite HX in H1. rewrite HY in H2. rewrite HZ in H3.
    rewrite !length_app in H1, H2, H3. cbn [length] in H1, H2, H3.
    replace (length (wX wm0) + S f) with (length (wX wm0) + 1 + f) by lia.
    replace (length (wY wm0) + S f) with (length (wY wm0) + 1 + f) by lia.
    replace (length (wZ wm0) + S f) with (length (wZ wm0) + 1 + f) by lia.
    repeat split; assumption.
Qed.

Lemma compute_world_position_root (fuel : nat) (s : skeleton) (n : string) (f : nat)
    (j : joint) (wm : world_motion) :
  joint_map_get n (hierarchy s) = Some j -> parent j = None ->
  dict_get n (joint_wm s) = Some wm ->
  f < length (wX wm) -> f < length (wY wm) -> f < length (wZ wm) ->
  f < length (wRy wm) -> f < length (wRx wm) -> f < length (wRz wm) ->
  compute_world_position (S fuel) s n f =
    Ok (transformation_matrix_yxz (nth f (wRy wm) 0%R) (nth f (wRx wm) 0%R)
          (nth f (wRz wm) 0%R)
          [nth f (wX wm) 0%R; nth f (wY wm) 0%R; nth f (wZ wm) 0%R]).
Proof.
  intros Hj Hp Hw H1 H2 H3 H4 H5 H6. simpl.
  unfold joint_map_getitem, dict_getitem. rewrite Hj, Hw. cbn [bind].
  rewrite (list_getitem_lt _ _ H1), (list_getitem_lt _ _ H2), (list_getitem_lt _ _ H3),
    (list_getitem_lt _ _ H4), (list_getitem_lt _ _ H5), (list_getitem_lt _ _ H6).
  cbn [bind]. rewrite Hp. reflexivity.
Qed.

Lemma root_origin_image (ry rx rz x y z : R) (l : list R) :
  matvec4 (transformation_matrix_yxz ry rx rz [x; y; z]) [0; 0; 0; 1]%R = Ok l ->
  firstn 3 l = [x; y; z].
Proof.
  unfold matvec4. injection 1 as <-. cbn [map firstn].
  unfold transformation_matrix_yxz. cbn -[rotation_matrix_yxz].
  f_equal; [ring|f_equal; [ring|f_equal; ring]].
Qed.

Lemma frame_positions_get (fuel : nat) (s : skeleton) (f : nat) (hier : list joint)
    (pos r : dict (list R)) (k : string) (p : list R) :
  frame_positions fuel s f hier pos = Ok r -> contains "_End" k = false ->
  (forall j p', In j hier -> name j = k -> fk_joint_position fuel s f j = Ok p' -> p' = p) ->
  (dict_get k pos = Some p \/ exists j, In j hier /\ name j = k) ->
  dict_get k r = Some p.
Proof.
  revert pos. induction hier as [|a hier IH]; intros pos H He Hfk Hcase; simpl in H.
  - injection H as <-. destruct Hcase as [Hk|(j & [] & _)]. exact Hk.
  - destruct (String.eqb_spec (name a) k) as [Hak|Hak].
    + rewrite Hak, He in H.
      destruct (fk_joint_position fuel s f a) as [pa|e] eqn:Ea; cbn [bind] in H;
        [|discriminate].
      apply (IH _ H He); [intros j p' Hj; apply Hfk; right; exact Hj|].
      left. rewrite dict_get_set, String.eqb_refl.
      rewrite (Hfk a pa (or_introl eq_refl) Hak Ea). reflexivity.
    + assert (Hcase' : dict_get k pos = Some p \/ exists j, In j hier /\ name j = k).
      { destruct Hcase as [Hk|(j & [<-|Hj] & Hjk)]; [left; exact Hk|contradiction|].
        right. exists j. split; assumption. }
      destruct (contains "_End" (name a)).
      * apply (IH _ H He); [intros j p' Hj; apply Hfk; right; exact Hj|exact Hcase'].
      * destruct (fk_joint_position fuel s f a) as [pa|e]; cbn [bind] in H;
          [|discriminate].
        apply (IH _ H He); [intros j p' Hj; apply Hfk; right; exact Hj|].
        destruct Hcase' as [Hk|Hex]; [left|right; exact Hex].
        rewrite dict_get_set. destruct (String.eqb_spec k (name a)); [congruence|exact Hk].
Qed.

Lemma nth_error_seq_0 (n f : nat) : f < n -> nth_error (seq 0 n) f = Some f.
Proof.
  intros Hf. rewrite (nth_error_nth' (seq 0 n) 0) by (rewrite length_seq; exact Hf).
  rewrite seq_nth by exact Hf. reflexivity.
Qed.

(** In a constructed skeleton whose order list starts with the root, the
    first three values of every [world_motion] row are the root's
    [Xposition], [Yposition] and [Zposition] values of that frame: the
    root's world position is its raw position channels, whatever its
    rotation channels and its offset (provided the [joint_map] entry
    under the root's name has no parent). *)
Theorem init_root_world_position (d : bvh_data) (s : skeleton) (jr : joint)
    (sub : dict nat) (ix iy iz : nat) :
  init d = Ok s ->
  hd_error (order s) = Some (root_joint s) ->
  contains "_End" (root_joint s) = false ->
  joint_map_get (root_joint s) (hierarchy s) = Some jr -> parent jr = None ->
  dict_get (root_joint s) (joint_channel_map s) = Some sub ->
  dict_get "Xposition" sub = Some ix -> dict_get "Yposition" sub = Some iy ->
  dict_get "Zposition" sub = Some iz ->
  forall f row wrow, nth_error (motion s) f = Some row ->
    nth_error (sk_world_motion s) f = Some wrow ->
    firstn 3 wrow = [nth ix row 0%R; nth iy row 0%R; nth iz row 0%R].
Proof.
  intros Hinit Hhd He Hjr Hpr Hsub Hx Hy Hz f row wrow Hrow Hwrow.
  unfold init in Hinit.
  set (root := match d_hierarchy d with j :: _ => Ok (name j) | [] => Raise IndexError end)
    in Hinit.
  destruct root as [r|e]; cbn [bind] in Hinit; [|discriminate].
  destruct (update_hierarchy_with_motion _ _ _) as [wmd|e] eqn:Eu; cbn [bind] in Hinit;
    [|discriminate].
  cbv zeta in Hinit.
  match type of Hinit with
  | bind (compute_world_skeleton_for_frames ?fu ?s0) _ = _ =>
      destruct (compute_world_skeleton_for_frames fu s0) as [wm|e] eqn:Ew;
      cbn [bind] in Hinit; [|discriminate]; set (s1 := s0) in Ew
  end.
  injection Hinit as <-.
  cbn [order root_joint hierarchy joint_channel_map motion sk_world_motion] in *.
  (* the root's [world_motion] entry *)
  unfold joint_map_get in Hjr. apply find_some in Hjr as Hjr'.
  destruct Hjr' as [Hin Hnm]. apply String.eqb_eq in Hnm. apply in_rev in Hin.
  assert (Hnames : In r (joint_map_names (d_hierarchy d)))
    by (rewrite <- Hnm; exact (joint_map_names_in _ _ Hin)).
  destruct (update_ok_each _ _ _ _ _ Eu r Hnames) as [wmr Hwmr].
  assert (Hget : dict_get r wmd = Some wmr)
    by exact (update_get _ _ _ _ _ _ _ Eu Hwmr (or_intror Hnames)).
  assert (Hf : f < length (d_motion d)) by (apply nth_error_Some; congruence).
  destruct (wm_frames_lengths _ _ _ _ _ Hwmr He) as (L1 & L2 & L3 & L4 & L5 & L6).
  cbn [wX wY wZ wRy wRx wRz empty_wm length Nat.add] in L1, L2, L3, L4, L5, L6.
  destruct (wm_frames_nth _ _ _ _ _ _ _ _ _ Hwmr He Hsub Hx Hy Hz f row Hrow)
    as (N1 & N2 & N3).
  cbn [wX wY wZ empty_wm length Nat.add] in N1, N2, N3.
  (* the root's world transform at frame [f] *)
  assert (Hcwp : compute_world_position recursion_limit s1 r f =
    Ok (transformation_matrix_yxz (nth f (wRy wmr) 0%R) (nth f (wRx wmr) 0%R)
          (nth f (wRz wmr) 0%R)
          [nth ix row 0%R; nth iy row 0%R; nth iz row 0%R])).
  { rewrite <- (nth_error_nth _ _ 0%R N1), <- (nth_error_nth _ _ 0%R N2),
      <- (nth_error_nth _ _ 0%R N3).
    apply (compute_world_position_root 999 s1 r f jr wmr);
      [unfold joint_map_get; exact Hjr|exact Hpr|exact Hget|lia..]. }
  (* the row of frame [f] *)
  unfold compute_world_skeleton_for_frames in Ew.
  pose proof (Forall2_nth_error_both _ _ _ _ _ _ (mapM_Forall2 _ _ _ Ew)
                (nth_error_seq_0 _ _ Hf) Hwrow) as Hrowf.
  cbv beta in Hrowf.
  destruct (frame_positions recursion_limit s1 f (hierarchy s1) []) as [pos|e] eqn:Ep;
    cbn [bind] in Hrowf; [|discriminate].
  destruct (matvec4 (transformation_matrix_yxz (nth f (wRy wmr) 0%R) (nth f (wRx wmr) 0%R)
          (nth f (wRz wmr) 0%R) [nth ix row 0%R; nth iy row 0%R; nth iz row 0%R])
          [0; 0; 0; 1]%R) as [l|e] eqn:Em; [|discriminate].
  assert (Hpos : dict_get r pos = Some [nth ix row 0%R; nth iy row 0%R; nth iz row 0%R]).
  { apply (frame_positions_get _ _ _ _ _ _ _ _ Ep He).
    - intros j p' _ Hjn Hfk. unfold fk_joint_position in Hfk.
      rewrite Hjn, Hcwp in Hfk. cbn [bind] in Hfk.
      destruct (offset j); cbn [bind] in Hfk; [|discriminate].
      change (root_joint s1) with r in Hfk. rewrite String.eqb_refl, Em in Hfk.
      cbn [bind] in Hfk. injection Hfk as <-. exact (root_origin_image _ _ _ _ _ _ _ Em).
    - right. exists jr. split; [exact Hin|exact Hnm]. }
  destruct (d_order d) as [|o ord] eqn:Eo; [discriminate|].
  injection Hhd as ->. subst s1. cbn [order] in Hrowf.
  cbn [flatten_positions] in Hrowf. unfold dict_getitem in Hrowf. rewrite Hpos in Hrowf.
  cbn [bind] in Hrowf.
  destruct (flatten_positions pos ord); cbn [bind] in Hrowf; [|discriminate].
  injection Hrowf as <-. reflexivity.
Qed.

Lemma init_root_world_position_witness :
  firstn 3 (nth 0 (sk_world_motion canonical_skeleton) []) = [1; 2; 3]%R.
Proof.
  rewrite (init_root_world_position canonical_data canonical_skeleton
           (mkJoint "Hips" None (Some [0; 0; 0]%R))
           [("Xposition", 0); ("Yposition", 1); ("Zposition", 2);
            ("Yrotation", 3); ("Xrotation", 4); ("Zrotation", 5)] 0 1 2)
    with (f := 0) (row := nth 0 (motion canonical_skeleton) []);
    vm_compute; reflexivity.
Defined.

Lemma ascii_compare_refl (c : ascii) : Ascii.compare c c = Eq.
Proof. unfold Ascii.compare. apply N.compare_refl. Qed.

Lemma string_compare_refl (s : string) : String.compare s s = Eq.
Proof. induction s as [|c s IH]; simpl; [reflexivity|]. rewrite ascii_compare_refl. exact IH. Qed.

Lemma string_compare_app_l (p a b : string) :
  String.compare (String.append p a) (String.append p b) = String.compare a b.
Proof. induction p as [|c p IH]; simpl; [reflexivity|]. rewrite ascii_compare_refl. exact IH. Qed.

Lemma string_compare_lt_app (s t u : string) :
  String.compare s t = Lt -> String.compare s (String.append t u) = Lt.
Proof.
  revert t. induction s as [|c s IH]; intros [|d t]; simpl; try discriminate; auto.
  destruct (Ascii.compare c d); auto; discriminate.
Qed.

Lemma string_leb_refl (s : string) : String.leb s s = true.
Proof. unfold String.leb. rewrite string_compare_refl. reflexivity. Qed.

Lemma string_leb_lt (s t : string) : String.compare s t = Lt -> String.leb s t = true.
Proof. unfold String.leb. intros ->. reflexivity. Qed.

Lemma string_leb_gt (s t : string) : String.compare t s = Lt -> String.leb s t = false.
Proof. unfold String.leb. intros H. rewrite String.compare_antisym, H. reflexivity. Qed.

Lemma nat_digits_above_10 (fuel k : nat) :
  k < fuel -> 2 <= k -> k <> 10 -> String.compare "10" (nat_digits fuel k) = Lt.
Proof.
  revert k. induction fuel as [|fuel IH]; intros k Hk H2 H10; [lia|].
  cbn [nat_digits]. destruct (Nat.ltb_spec k 10) as [Hlt|Hge].
  - do 10 (destruct k as [|k]; [try lia; reflexivity|]). lia.
  - assert (Hq : k / 10 < fuel).
    { assert (k / 10 < k) by (apply Nat.div_lt; lia). lia. }
    assert (Hq1 : 1 <= k / 10) by (apply (Nat.div_le_lower_bound k 10 1); lia).
    destruct (Nat.eq_dec (k / 10) 1) as [E1|N1].
    + rewrite E1. destruct fuel as [|fuel]; [lia|]. cbn [nat_digits Nat.ltb Nat.leb].
      assert (Hm : k mod 10 <> 0).
      { intros Hm. pose proof (Nat.div_mod_eq k 10). lia. }
      assert (Hm' : k mod 10 < 10) by (apply Nat.mod_upper_bound; lia).
      destruct (k mod 10) as [|m]; [lia|].
      do 9 (destruct m as [|m]; [reflexivity|]). lia.
    + destruct (Nat.eq_dec (k / 10) 10) as [E10|N10].
      * rewrite E10. destruct fuel as [|[|fuel]]; [lia|lia|]. reflexivity.
      * apply string_compare_lt_app. apply IH; lia.
Qed.

Lemma joint_key_above_10 (k : nat) :
  2 <= k -> k <> 10 -> String.compare (joint_key 10) (joint_key k) = Lt.
Proof.
  intros H2 H10. unfold joint_key. rewrite string_compare_app_l.
  exact (nat_digits_above_10 (S k) k ltac:(lia) H2 H10).
Qed.

Lemma joint_key_small_distinct (a b : nat) :
  a < 10 -> b < 10 -> a <> b -> joint_key a <> joint_key b.
Proof.
  intros Ha Hb Hab.
  do 10 (destruct a as [|a];
    [do 10 (destruct b as [|b]; [try lia; intros H; vm_compute in H; discriminate|]); lia|]).
  lia.
Qed.

Lemma joint_key_small_not_10 (a : nat) : a < 10 -> joint_key a <> joint_key 10.
Proof.
  intros Ha. do 10 (destruct a as [|a]; [intros H; vm_compute in H; discriminate|]). lia.
Qed.

Lemma insert_name_in (x z : string) (l : list string) :
  In z (insert_name x l) <-> z = x \/ In z l.
Proof.
  induction l as [|y l IH]; simpl; [intuition|].
  destruct (String.leb x y); simpl; [intuition|]. rewrite IH. intuition.
Qed.

Lemma sort_names_in (z : string) (l : list string) : In z (sort_names l) <-> In z l.
Proof.
  induction l as [|x l IH]; simpl; [reflexivity|].
  rewrite insert_name_in, IH. intuition.
Qed.

Lemma insert_name_length (x : string) (l : list string) :
  length (insert_name x l) = S (length l).
Proof. induction l as [|y l IH]; simpl; [reflexivity|]. destruct (String.leb x y); simpl; auto. Qed.

Lemma sort_names_length (l : list string) : length (sort_names l) = length l.
Proof. induction l as [|x l IH]; simpl; [reflexivity|]. rewrite insert_name_length, IH. reflexivity. Qed.

Lemma sort_names_head (m : string) (l : list string) :
  In m l -> (forall z, In z l -> z = m \/ String.compare m z = Lt) ->
  exists rest, sort_names l = m :: rest.
Proof.
  induction l as [|x l IH]; intros Hm Hall; [destruct Hm|]. cbn [sort_names fold_right].
  fold (sort_names l).
  assert (Hall' : forall z, In z l -> z = m \/ String.compare m z = Lt)
    by (intros z Hz; apply Hall; right; exact Hz).
  destruct (Hall x (or_introl eq_refl)) as [->|Hlt].
  - destruct (in_dec string_dec m l) as [Hin|Hnin].
    + destruct (IH Hin Hall') as [rest Hr]. rewrite Hr. cbn [insert_name].
      rewrite string_leb_refl. eexists. reflexivity.
    + destruct (sort_names l) as [|y ys] eqn:Es; [eexists; reflexivity|].
      assert (Hy : In y l) by (apply sort_names_in; rewrite Es; left; reflexivity).
      destruct (Hall' y Hy) as [->|Hlt]; [contradiction|].
      cbn [insert_name]. rewrite (string_leb_lt _ _ Hlt). eexists. reflexivity.
  - assert (Hin : In m l).
    { destruct Hm as [<-|Hm]; [|exact Hm]. rewrite string_compare_refl in Hlt. discriminate. }
    destruct (IH Hin Hall') as [rest Hr]. rewrite Hr. cbn [insert_name].
    rewrite (string_leb_gt _ _ Hlt). eexists. reflexivity.
Qed.

Lemma sort_joint_keys_large (n : nat) :
  11 <= n ->
  exists rest, sort_names (map joint_key (seq 0 n)) =
    joint_key 0 :: joint_key 1 :: joint_key 10 :: rest.
Proof.
  intros Hn. replace n with (S (S (n - 2))) by lia.
  cbn [seq map sort_names fold_right]. fold (sort_names (map joint_key (seq 2 (n - 2)))).
  destruct (sort_names_head (joint_key 10) (map joint_key (seq 2 (n - 2)))) as [rest Hr].
  - apply in_map, in_seq. lia.
  - intros z Hz. apply in_map_iff in Hz as (k & <- & Hk). apply in_seq in Hk.
    destruct (Nat.eq_dec k 10) as [->|Hne]; [left; reflexivity|].
    right. apply joint_key_above_10; lia.
  - rewrite Hr. exists rest. reflexivity.
Qed.

Lemma sort_joint_keys_small (n : nat) :
  n <= 10 -> sort_names (map joint_key (seq 0 n)) = map joint_key (seq 0 n).
Proof.
  intros Hn. do 11 (destruct n as [|n]; [vm_compute; reflexivity|]). lia.
Qed.

Lemma np_bytes_ok (l : list string) (ds : h5_bytes) :
  np_bytes_ l = Ok ds ->
  read_names ds = match l with [] => Raise ValueError | _ :: _ => Ok (map rstrip_nul l) end.
Proof.
  unfold np_bytes_. destruct (forallb _ _); [|discriminate].
  destruct l; injection 1 as <-; reflexivity.
Qed.

Lemma h5_str_attr_ok (s s' : string) : h5_str_attr s = Ok s' -> s' = s.
Proof. unfold h5_str_attr. destruct (has_nul s); [discriminate|injection 1 as <-; reflexivity]. Qed.

Lemma save_joints_shape (i : nat) (hier : list joint) (g : dict h5_joint) :
  save_joints i hier = Ok g ->
  map fst g = map joint_key (seq i (length hier)) /\
  forall k j, nth_error hier k = Some j ->
    nth_error g k = Some (joint_key (i + k),
      mkH5J (name j) (h5_parent_attr (parent j)) (h5_offset_attr (offset j))).
Proof.
  revert i g. induction hier as [|j hier IH]; intros i g H; simpl in H.
  - injection H as <-. split; [reflexivity|intros [|k] j; discriminate].
  - destruct (h5_str_attr (name j)) as [n|e] eqn:En; cbn [bind] in H; [|discriminate].
    destruct (h5_str_attr (h5_parent_attr (parent j))) as [p|e] eqn:Ep; cbn [bind] in H;
      [|discriminate].
    destruct (save_joints (S i) hier) as [rest|e] eqn:Er; cbn [bind] in H; [|discriminate].
    injection H as <-. apply h5_str_attr_ok in En. apply h5_str_attr_ok in Ep. subst n p.
    destruct (IH (S i) rest Er) as [Hf Hn]. split.
    + cbn [map fst length seq]. rewrite Hf. reflexivity.
    + intros [|k] j' Hk; simpl in Hk.
      * injection Hk as <-. rewrite Nat.add_0_r. reflexivity.
      * cbn [nth_error]. rewrite (Hn k j' Hk), Nat.add_succ_r. reflexivity.
Qed.

Lemma dict_get_nth_first {V} (d : dict V) (k : nat) (key : string) (v : V) :
  nth_error d k = Some (key, v) ->
  (forall k' p, k' < k -> nth_error d k' = Some p -> fst p <> key) ->
  dict_get key d = Some v.
Proof.
  revert k. induction d as [|[key0 v0] d IH]; intros k Hk Hbefore; [destruct k; discriminate|].
  destruct k as [|k]; simpl in Hk |- *.
  - injection Hk as -> ->. rewrite String.eqb_refl. reflexivity.
  - assert (Hne : key0 <> key) by exact (Hbefore 0 (key0, v0) ltac:(lia) eq_refl).
    destruct (String.eqb_spec key key0) as [E|_]; [congruence|].
    apply (IH k Hk). intros k' p Hk' Hp. exact (Hbefore (S k') p ltac:(lia) Hp).
Qed.

Lemma mapM_keys {B} (f : string -> PyResult B) (G : joint -> B) (i : nat)
    (hier : list joint) (dj : joint) :
  (forall k, k < length hier -> f (joint_key (i + k)) = Ok (G (nth k hier dj))) ->
  mapM f (map joint_key (seq i (length hier))) = Ok (map G hier).
Proof.
  revert i. induction hier as [|j hier IH]; intros i H; [reflexivity|].
  cbn [length seq map mapM].
  rewrite <- (Nat.add_0_r i), (H 0 ltac:(simpl; lia)), Nat.add_0_r. cbn [bind nth].
  rewrite (IH (S i)); [reflexivity|].
  intros k Hk. replace (S i + k) with (i + S k) by lia. exact (H (S k) ltac:(simpl; lia)).
Qed.

Lemma read_joint_saved (j : joint) :
  read_joint (mkH5J (name j) (h5_parent_attr (parent j)) (h5_offset_attr (offset j))) =
  mkJoint (name j)
    (match parent j with
     | Some p => if String.eqb p "" || String.eqb p "None" then None else Some p
     | None => None
     end)
    (Some (match offset j with Some (x :: l) => x :: l | _ => [0; 0; 0]%R end)).
Proof.
  unfold read_joint, h5_parent_attr, h5_offset_attr. cbn [h5_name h5_parent h5_offset].
  destruct (parent j) as [p|]; [|reflexivity].
  destruct (String.eqb_spec p "") as [->|Hp]; [reflexivity|].
  destruct (String.eqb_spec p "None"); reflexivity.
Qed.

Lemma save_to_hdf5_shape (d : bvh_data) (h : h5_file) :
  save_to_hdf5 d = Ok h ->
  save_joints 0 (d_hierarchy d) = Ok (h5_hierarchy h) /\ h5_motion h = d_motion d /\
  read_names (h5_channels h) =
    match d_channels d with [] => Raise ValueError | _ :: _ => Ok (map rstrip_nul (d_channels d)) end /\
  read_names (h5_order h) =
    match d_order d with [] => Raise ValueError | _ :: _ => Ok (map rstrip_nul (d_order d)) end.
Proof.
  unfold save_to_hdf5.
  destruct (save_joints 0 (d_hierarchy d)) as [g|e] eqn:Eg; cbn [bind]; [|discriminate].
  destruct (np_bytes_ (d_channels d)) as [c|e] eqn:Ec; cbn [bind]; [|discriminate].
  destruct (np_bytes_ (d_order d)) as [o|e] eqn:Eo; cbn [bind]; [|discriminate].
  injection 1 as <-. cbn [h5_hierarchy h5_motion h5_channels h5_order].
  rewrite (np_bytes_ok _ _ Ec), (np_bytes_ok _ _ Eo). repeat split.
Qed.

(** Every member of the [hierarchy] group is found when it is read. *)
Lemma read_hierarchy_ok (g : dict h5_joint) :
  exists ys, mapM (fun k => a <- dict_getitem k g ;; Ok (read_joint a))
               (h5_member_names g) = Ok ys.
Proof.
  destruct (mapM_ok (fun k => a <- dict_getitem k g ;; Ok (read_joint a))
              (h5_member_names g)) as (ys & Hys & _); [|exists ys; exact Hys].
  intros x Hx. unfold h5_member_names in Hx. rewrite sort_names_in in Hx.
  apply in_map_iff in Hx as ([x' a] & Hx' & Ha). cbn [fst] in Hx'. subst x'.
  unfold dict_getitem.
  destruct (dict_get x g) as [a'|] eqn:E; [eexists; reflexivity|].
  exfalso. clear -E Ha. induction g as [|[k0 v0] g IH]; [destruct Ha|].
  simpl in E, Ha. destruct (String.eqb_spec x k0); [discriminate|].
  destruct Ha as [Ha|Ha]; [injection Ha as -> _; contradiction|exact (IH Ha E)].
Qed.

Lemma saved_lookup (hier : list joint) (g : dict h5_joint) (k : nat) (dj : joint) :
  save_joints 0 hier = Ok g -> k < length hier ->
  (forall k', k' < k -> joint_key k' <> joint_key k) ->
  dict_get (joint_key k) g =
    Some (mkH5J (name (nth k hier dj)) (h5_parent_attr (parent (nth k hier dj)))
            (h5_offset_attr (offset (nth k hier dj)))).
Proof.
  intros Hs Hk Hd. destruct (save_joints_shape _ _ _ Hs) as [Hf Hn].
  apply (dict_get_nth_first _ k).
  - exact (Hn k _ (nth_error_nth' hier dj Hk)).
  - intros k' p Hk' Hp. apply (map_nth_error fst) in Hp. rewrite Hf in Hp.
    rewrite (map_nth_error joint_key _ _ (nth_error_seq_0 (length hier) k' ltac:(lia))) in Hp.
    injection Hp as <-. exact (Hd k' Hk').
Qed.

(** Saving a parsed file with [save_to_hdf5] and reading it back with
    [read_hdf5_file] never fails once the save succeeded, and for at most
    ten joints gives back the joints in the same order and with the same
    names, with a parent that is [None], the empty string or "None" read
    back as [None], and a missing or empty offset read back as
    [[0, 0, 0]]; the motion table comes back unchanged, and the returned
    [world_motion] is that same raw motion table. *)
Theorem hdf5_roundtrip_small (d : bvh_data) (h : h5_file) :
  length (d_hierarchy d) <= 10 -> d_channels d <> [] -> d_order d <> [] ->
  save_to_hdf5 d = Ok h ->
  exists r, read_hdf5_file h = Ok r /\
    r_hierarchy r =
      map (fun j => mkJoint (name j)
             (match parent j with
              | Some p => if String.eqb p "" || String.eqb p "None" then None else Some p
              | None => None
              end)
             (Some (match offset j with Some (x :: l) => x :: l | _ => [0; 0; 0]%R end)))
          (d_hierarchy d) /\
    r_motion r = d_motion d /\ r_world_motion r = d_motion d /\
    r_channels r = map rstrip_nul (d_channels d) /\ r_order r = map rstrip_nul (d_order d).
Proof.
  intros Hn Hcn Hon Hs. destruct (save_to_hdf5_shape _ _ Hs) as (Hg & Hm & Hc & Ho).
  destruct (save_joints_shape _ _ _ Hg) as [Hf _].
  unfold read_hdf5_file, h5_member_names.
  rewrite Hf, sort_joint_keys_small by exact Hn.
  rewrite (mapM_keys _ (fun j => read_joint (mkH5J (name j) (h5_parent_attr (parent j))
                                  (h5_offset_attr (offset j))))
             0 (d_hierarchy d) (mkJoint "" None None)).
  - cbn [bind]. rewrite Hc, Ho.
    destruct (d_channels d) as [|c cs]; [contradiction|].
    destruct (d_order d) as [|o os]; [contradiction|]. cbn [bind].
    eexists. split; [reflexivity|]. cbn [r_hierarchy r_motion r_world_motion
      r_channels r_order]. rewrite Hm. split; [|repeat split].
    apply map_ext. intros j. exact (read_joint_saved j).
  - intros k Hk. cbn [Nat.add]. unfold dict_getitem.
    rewrite (saved_lookup _ _ k (mkJoint "" None None) Hg Hk).
    + cbn [bind]. rewrite read_joint_saved. reflexivity.
    + intros k' Hk'. apply joint_key_small_distinct; lia.
Qed.

Lemma hdf5_roundtrip_small_witness :
  exists r, read_hdf5_file (match save_to_hdf5 canonical_data with
                            | Ok h => h | Raise _ => mkH5 [] [] (H5Array []) (H5Array []) end)
    = Ok r /\
    r_hierarchy r = sample_hierarchy /\ r_world_motion r = d_motion canonical_data.
Proof.
  destruct (hdf5_roundtrip_small canonical_data
              (match save_to_hdf5 canonical_data with
               | Ok h => h | Raise _ => mkH5 [] [] (H5Array []) (H5Array []) end))
    as (r & Hr & Hh & _ & Hw & _).
  - simpl. lia.
  - vm_compute. discriminate.
  - vm_compute. discriminate.
  - vm_compute. reflexivity.
  - exists r. split; [exact Hr|]. split; [|exact Hw].
    rewrite Hh. reflexivity.
Defined.

(** With eleven joints or more, the groups [joint_0], [joint_1], ... are
    read back in HDF5's name order, in which [joint_10] comes before
    [joint_2]: reading back a saved file gives as many joints as were
    saved, but its first three are the saved joints 0, 1 and 10 (the
    eleventh), so the hierarchy order, and the first-entry-is-root
    reading of it, is not preserved. *)
Theorem hdf5_roundtrip_reorders (d : bvh_data) (h : h5_file) :
  11 <= length (d_hierarchy d) -> d_channels d <> [] -> d_order d <> [] ->
  save_to_hdf5 d = Ok h ->
  exists r, read_hdf5_file h = Ok r /\
    length (r_hierarchy r) = length (d_hierarchy d) /\
    firstn 3 (r_hierarchy r) =
      map (fun k => let j := nth k (d_hierarchy d) (mkJoint "" None None) in
             mkJoint (name j)
               (match parent j with
                | Some p => if String.eqb p "" || String.eqb p "None" then None else Some p
                | None => None
                end)
               (Some (match offset j with Some (x :: l) => x :: l | _ => [0; 0; 0]%R end)))
          [0; 1; 10].
Proof.
  intros Hn Hcn Hon Hs. destruct (save_to_hdf5_shape _ _ Hs) as (Hg & _ & Hc & Ho).
  destruct (save_joints_shape _ _ _ Hg) as [Hf _].
  set (dj := mkJoint "" None None).
  unfold read_hdf5_file, h5_member_names. rewrite Hf.
  destruct (sort_joint_keys_large _ Hn) as [rest Hr]. rewrite Hr.
  assert (Hl : forall k, k < length (d_hierarchy d) ->
            (forall k', k' < k -> joint_key k' <> joint_key k) ->
            (a <- dict_getitem (joint_key k) (h5_hierarchy h) ;; Ok (read_joint a)) =
            Ok (read_joint (mkH5J (name (nth k (d_hierarchy d) dj))
                  (h5_parent_attr (parent (nth k (d_hierarchy d) dj)))
                  (h5_offset_attr (offset (nth k (d_hierarchy d) dj)))))).
  { intros k Hk Hd. unfold dict_getitem. rewrite (saved_lookup _ _ k dj Hg Hk Hd).
    reflexivity. }
  assert (Hrest : exists ys, mapM (fun k => a <- dict_getitem k (h5_hierarchy h) ;;
                                   Ok (read_joint a)) rest = Ok ys).
  { destruct (mapM_ok (fun k => a <- dict_getitem k (h5_hierarchy h) ;; Ok (read_joint a))
                rest) as (ys & Hys & _); [|exists ys; exact Hys].
    intros x Hx.
    assert (Hin : In x (map fst (h5_hierarchy h))).
    { rewrite Hf, <- (sort_names_in x). rewrite Hr. right; right; right. exact Hx. }
    apply in_map_iff in Hin as ([x' a] & Hx' & Ha). cbn [fst] in Hx'. subst x'.
    unfold dict_getitem.
    destruct (dict_get x (h5_hierarchy h)) as [a'|] eqn:E; [eexists; reflexivity|].
    exfalso. clear -E Ha. induction (h5_hierarchy h) as [|[k0 v0] g IH]; [destruct Ha|].
    simpl in E, Ha. destruct (String.eqb_spec x k0); [discriminate|].
    destruct Ha as [Ha|Ha]; [injection Ha as -> _; contradiction|exact (IH Ha E)]. }
  destruct Hrest as [ys Hys].
  cbn [mapM]. rewrite (Hl 0 ltac:(lia)) by (intros; lia).
  rewrite (Hl 1 ltac:(lia)) by (intros k' Hk'; replace k' with 0 by lia; intros H;
                                vm_compute in H; discriminate).
  rewrite (Hl 10 ltac:(lia)) by (intros k' Hk'; apply joint_key_small_not_10; exact Hk').
  cbn [bind]. rewrite Hys. cbn [bind]. rewrite Hc, Ho.
  destruct (d_channels d) as [|c cs]; [contradiction|].
  destruct (d_order d) as [|o os]; [contradiction|]. cbn [bind].
  eexists. split; [reflexivity|]. cbn [r_hierarchy]. split.
  - cbn [length]. rewrite (mapM_length _ _ _ Hys).
    pose proof (sort_names_length (map joint_key (seq 0 (length (d_hierarchy d))))) as L.
    rewrite Hr, length_map, length_seq in L. cbn [length] in L. lia.
  - cbn [firstn map]. rewrite !read_joint_saved. reflexivity.
Qed.

Lemma hdf5_roundtrip_reorders_witness :
  exists r, read_hdf5_file
    (match save_to_hdf5 (mkData
       (map (fun i => mkJoint (str_of_nat i) None (Some [0; 0; 0]%R)) (seq 0 11)) []
       ["Xposition"] ["0"])
     with Ok h => h | Raise _ => mkH5 [] [] (H5Array []) (H5Array []) end) = Ok r /\
    map name (firstn 3 (r_hierarchy r)) = ["0"; "1"; "10"].
Proof.
  destruct (hdf5_roundtrip_reorders
    (mkData (map (fun i => mkJoint (str_of_nat i) None (Some [0; 0; 0]%R)) (seq 0 11)) []
       ["Xposition"] ["0"])
    (match save_to_hdf5 (mkData
       (map (fun i => mkJoint (str_of_nat i) None (Some [0; 0; 0]%R)) (seq 0 11)) []
       ["Xposition"] ["0"])
     with Ok h => h | Raise _ => mkH5 [] [] (H5Array []) (H5Array []) end))
    as (r & Hr & _ & H3).
  - simpl. lia.
  - discriminate.
  - discriminate.
  - vm_compute. reflexivity.
  - exists r. split; [exact Hr|]. rewrite H3. vm_compute. reflexivity.
Defined.

(** A file whose channel sequence or order sequence is empty is saved
    (the empty list becomes the scalar [b'']), but reading it back fails
    with [ValueError]: [read_hdf5_file] slices that dataset with [[:]],
    which a scalar dataset refuses. *)
Theorem hdf5_empty_names_unreadable (d : bvh_data) (h : h5_file) :
  save_to_hdf5 d = Ok h -> d_channels d = [] \/ d_order d = [] ->
  read_hdf5_file h = Raise ValueError.
Proof.
  intros Hs Hemp. destruct (save_to_hdf5_shape _ _ Hs) as (_ & _ & Hc & Ho).
  unfold read_hdf5_file. destruct (read_hierarchy_ok (h5_hierarchy h)) as [ys Hy].
  rewrite Hy. cbn [bind]. rewrite Hc, Ho.
  destruct Hemp as [-> | ->]; cbn [bind]; [reflexivity|].
  destruct (d_channels d); reflexivity.
Qed.

Lemma hdf5_empty_names_unreadable_witness :
  save_to_hdf5 (mkData [mkJoint "Hips" None (Some [0; 0; 0]%R)] [] [] ["Hips"]) <> Raise ValueError /\
  read_hdf5_file
    (match save_to_hdf5 (mkData [mkJoint "Hips" None (Some [0; 0; 0]%R)] [] [] ["Hips"])
     with Ok h => h | Raise _ => mkH5 [] [] (H5Array []) (H5Array []) end) = Raise ValueError.
Proof.
  split; [vm_compute; discriminate|].
  apply (hdf5_empty_names_unreadable
           (mkData [mkJoint "Hips" None (Some [0; 0; 0]%R)] [] [] ["Hips"])).
  - vm_compute. reflexivity.
  - left. reflexivity.
Defined.
